(** * tmt: step pipeline and guest execution engine

    A shallow embedding of the parts of [tmt/utils.py],
    [tmt/steps/provision/__init__.py] and [tmt/steps/execute/internal.py]
    that drive command execution, waiting, SSH guests, the provision step
    and the internal executor, together with the properties the
    specification states about them.

    Conventions of the embedding:
    - Python exceptions are values of [exn]; a method is a function from a
      state to an outcome and a new state ([M S A]).
    - [time.monotonic()] is the field [clock] of the world, an exact
      rational number of seconds; [time.sleep t] advances it by [t].
    - A subprocess is described by how long it runs, its exit status and
      the lines it prints with their time stamps; the n-th subprocess
      started by the program behaves as [launches w n] says.
    - Logging through [debug] and [verbose] is not observable and is left
      out; [info], [warn] and [fail] are recorded as events. *)

From stdpp Require Import gmap strings list pretty.
From Stdlib Require Import ZArith QArith Lia Lqa.

Local Open Scope Z_scope.
Local Open Scope string_scope.
Local Open Scope list_scope.

(** ** Outcomes and the state-and-exception monad *)

Module Py.

Abbreviation Path := string.

(** [Command]: an argument vector. *)
Record Command := mkCommand { _command : list string }.

(** [ShellScript]: a blob of text understood by a shell. *)
Record ShellScript := mkShellScript { _script : string }.

(** [CommandOutput]: the named tuple returned by [run]. *)
Record CommandOutput := mkCommandOutput
  { stdout : option string; stderr : option string }.

(** The exception classes the modelled code raises or catches. *)
Inductive exn :=
| GeneralError (message : string)
| FileError (message : string)
| RunError (message : string) (command : list string) (returncode : Z)
           (out err : option string)
| SpecificationError (message : string)
| ProvisionError (message : string)
| RebootTimeoutError (message : string)
| WaitingIncomplete
| WaitingTimedOutError (timeout : Q) (check_success : bool)
| SystemExit
| TypeError (message : string)
| ValueError (message : string)
| AttributeError (message : string)
| AssertionError
| UnboundLocalError (name : string)
| OSError (message : string).

(** [isinstance error RunError] and friends, for [except] clauses. *)
Definition is_RunError (e : exn) : bool :=
  match e with RunError _ _ _ _ _ => true | _ => false end.
Definition is_ProvisionError (e : exn) : bool :=
  match e with ProvisionError _ => true | _ => false end.
Definition is_WaitingIncomplete (e : exn) : bool :=
  match e with WaitingIncomplete => true | _ => false end.
Definition is_WaitingTimedOutError (e : exn) : bool :=
  match e with WaitingTimedOutError _ _ => true | _ => false end.
Definition is_RebootTimeoutError (e : exn) : bool :=
  match e with RebootTimeoutError _ => true | _ => false end.

(** The outcome of a call: a value, an exception, or the loop budget of
    the model ran out before the call finished. *)
Inductive outcome (A : Type) :=
| Ok (a : A)
| Raise (e : exn)
| OutOfFuel.
Arguments Ok {A} a.
Arguments Raise {A} e.
Arguments OutOfFuel {A}.

Definition M (S A : Type) : Type := S → outcome A * S.

Definition ret {S A} (a : A) : M S A := λ s, (Ok a, s).
Definition raise {S A} (e : exn) : M S A := λ s, (Raise e, s).
Definition bind {S A B} (m : M S A) (k : A → M S B) : M S B :=
  λ s, match m s with
       | (Ok a, s') => k a s'
       | (Raise e, s') => (Raise e, s')
       | (OutOfFuel, s') => (OutOfFuel, s')
       end.
Definition get {S} : M S S := λ s, (Ok s, s).
Definition modify {S} (f : S → S) : M S unit := λ s, (Ok tt, f s).

(** [try: m except <sel>: h]; the handler receives the exception. *)
Definition try_except {S A} (m : M S A) (sel : exn → bool)
    (h : exn → M S A) : M S A :=
  λ s, match m s with
       | (Raise e, s') => if sel e then h e s' else (Raise e, s')
       | r => r
       end.

(** [try: m finally: f]. *)
Definition try_finally {S A} (m : M S A) (f : M S unit) : M S A :=
  λ s, match m s with
       | (r, s') =>
           match f s' with
           | (Ok _, s'') => (r, s'')
           | (Raise e, s'') => (Raise e, s'')
           | (OutOfFuel, s'') => (OutOfFuel, s'')
           end
       end.

End Py.
Export Py.

Declare Scope py_scope.
Delimit Scope py_scope with py.
Notation "'let!' x ':=' m 'in' k" := (bind m (λ x, k))
  (at level 10, x name, m at level 100, k at level 200) : py_scope.
Notation "'do!' m 'then' k" := (bind m (λ _, k))
  (at level 10, m at level 100, k at level 200) : py_scope.
Local Open Scope py_scope.

(** Comparisons of time stamps as booleans. *)
Definition Qltb (a b : Q) : bool := negb (Qle_bool b a).


Lemma Qltb_ge a b : Qltb a b = false ↔ (b <= a)%Q.
Proof.
  unfold Qltb. rewrite negb_false_iff. apply Qle_bool_iff.
Qed.

(** ** tmt/utils.py *)

Module Utils.

(** Special process return code. *)
Definition PROCESS_TIMEOUT : Z := 124.

Definition DEFAULT_SHELL : string := "/bin/bash".

(** Defaults for [wait]-related options. *)
Definition DEFAULT_WAIT_TICK : Q := 30.

(** *** Subprocesses and the world *)

Inductive Stream := Out | Err.

Global Instance Stream_eq_dec : EqDecision Stream.
Proof. solve_decision. Defined.

(** A started subprocess: it exits by itself [runtime] seconds after it
    was started, with [exit_status]; [output] lists the lines it writes,
    each with the time (since start) at which it is written. *)
Record Process := mkProcess
  { runtime : Q; exit_status : Z; output : list (Q * Stream * string) }.

(** What [subprocess.Popen] meets: the program is missing, or a process. *)
Inductive Launch :=
| FileNotFound (filename : string)
| Started (p : Process).

Inductive Event :=
| EvPopen (n : nat) (argv : list string) (cwd : option Path)
| EvInteractive (n : nat) (argv : list string) (cwd : option Path)
| EvKillpg (n : nat)
| EvMaster (argv : list string)
| EvInfo (key value : string)
| EvWarn (message : string)
| EvFail (message : string).

(** The world a command runs in. [globals] holds the module-level list
    objects, by name: they are shared by every call in the process. *)
Record World := mkWorld
  { clock : Q;
    fs : gmap string string;
    launches : nat → Launch;
    spawned : nat;
    globals : gmap string (list string);
    events : list Event }.

Definition set_clock (t : Q) (w : World) : World :=
  mkWorld t (fs w) (launches w) (spawned w) (globals w) (events w).
Definition set_fs (f : gmap string string) (w : World) : World :=
  mkWorld (clock w) f (launches w) (spawned w) (globals w) (events w).
Definition set_spawned (n : nat) (w : World) : World :=
  mkWorld (clock w) (fs w) (launches w) n (globals w) (events w).
Definition set_globals (h : gmap string (list string)) (w : World)
    : World :=
  mkWorld (clock w) (fs w) (launches w) (spawned w) h (events w).
Definition emit (e : Event) (w : World) : World :=
  mkWorld (clock w) (fs w) (launches w) (spawned w) (globals w)
          (events w ++ [e]).

(** [time.sleep]: negative lengths are refused. *)
Definition sleep (t : Q) : M World unit :=
  λ w, if Qltb t 0
       then (Raise (ValueError "sleep length must be non-negative"), w)
       else (Ok tt, set_clock (clock w + t)%Q w).

(** States that contain the world: the world itself, or the world
    together with the objects a method works on. *)
Class InWorld (S : Type) := mkInWorld
  { world_of : S → World;
    put_world : World → S → S;
    world_of_put : ∀ w s, world_of (put_world w s) = w }.

Global Instance World_InWorld : InWorld World :=
  mkInWorld World (λ w, w) (λ w _, w) (λ _ _, eq_refl).

Global Instance pair_InWorld {X} : InWorld (X * World) :=
  mkInWorld (X * World) snd (λ w s, (s.1, w)) (λ _ _, eq_refl).

(** Run a computation on the world inside a larger state. *)
Definition liftW {St} `{!InWorld St} {A} (m : M World A) : M St A :=
  λ s, let (r, w') := m (world_of s) in (r, put_world w' s).

(** [time.monotonic()]. *)
Definition NOW {St} `{!InWorld St} (s : St) : Q := clock (world_of s).

(** What a [StreamLogger] has accumulated when its pipe is closed at
    time [t] (since start): the lines of the streams it is attached to
    that were written by then, joined. *)
Definition captured (sel : Stream → bool) (t : Q)
    (lines : list (Q * Stream * string)) : string :=
  String.concat ""
    (map (λ l, l.2)
         (filter (λ l, sel l.1.2 = true ∧ Qle_bool l.1.1 t = true) lines)).

Definition only_out (s : Stream) : bool := bool_decide (s = Out).
Definition only_err (s : Stream) : bool := bool_decide (s = Err).
Definition both (s : Stream) : bool := true.

(** The part of a [Common] object the modelled methods read: its workdir
    and the resolved value of [self.opt('dry')]. *)
Record Common := mkCommon { workdir : option Path; opt_dry : bool }.

(** [Common._run]. The environment overlay and the logging callback do
    not influence the control flow and are left out. *)
Definition _run (command : Command) (cwd : option Path) (shell : bool)
    (join interactive : bool) (timeout : option Z)
    : M World CommandOutput :=
  λ w,
    let n := spawned w in
    let argv := _command command in
    if interactive then
      (* subprocess.run(..., check=True); whatever happens, the
         [finally] clause returns the empty output *)
      let w1 := emit (EvInteractive n argv cwd) (set_spawned (S n) w) in
      match launches w n with
      | FileNotFound _ => (Ok (mkCommandOutput None None), w1)
      | Started p =>
          (Ok (mkCommandOutput None None),
           set_clock (clock w + runtime p)%Q w1)
      end
    else
      let w1 := emit (EvPopen n argv cwd) (set_spawned (S n) w) in
      match launches w n with
      | FileNotFound filename =>
          (Raise (RunError ("File '" +:+ filename +:+ "' not found.")
                           argv 127 None None), w1)
      | Started p =>
          (* process.wait(timeout=timeout) *)
          let expired :=
            match timeout with
            | Some t => Qltb (inject_Z t) (runtime p)
            | None => false
            end in
          let stop :=
            if expired then inject_Z (default 0 timeout) else runtime p in
          (* os.killpg(...); process.wait(); returncode = 124 *)
          let w2 := if expired then emit (EvKillpg n) w1 else w1 in
          let returncode :=
            if expired then PROCESS_TIMEOUT else exit_status p in
          let w3 := set_clock (clock w + stop)%Q w2 in
          (* stdout_thread.join(); stderr_thread.join() *)
          let out :=
            captured (if join then both else only_out) stop (output p) in
          let err :=
            if join then out else captured only_err stop (output p) in
          if bool_decide (returncode ≠ 0) then
            (Raise (RunError
                      ("Command returned '" +:+ pretty returncode +:+ "'.")
                      argv returncode (Some out) (Some err)), w3)
          else if join then
            (Ok (mkCommandOutput (Some out) None), w3)
          else
            (Ok (mkCommandOutput (Some out) (Some err)), w3)
      end.

(** [Common.run]. *)
Definition run (self : Common) (command : Command)
    (friendly_command : option string) (cwd : option Path)
    (dry shell : bool)
    (interactive join : bool) (timeout : option Z)
    : M World CommandOutput :=
  (* Nothing more to do in dry mode (unless requested) *)
  if opt_dry self && negb dry then ret (mkCommandOutput None None)
  else
    let cwd := match cwd with Some c => Some c | None => workdir self end in
    let! w := get in
    (* Fail nicely if the working directory does not exist *)
    if match cwd with
       | Some c => bool_decide (fs w !! c = None)
       | None => false
       end
    then raise (GeneralError ("The working directory '" +:+ default "" cwd
                               +:+ "' does not exist."))
    else
      try_except (_run command cwd shell join interactive timeout)
        is_RunError
        (λ error,
           match error with
           | RunError message command returncode out err =>
               raise (RunError ("Failed to run command: "
                                  +:+ default "None" friendly_command
                                  +:+ " Reason: "
                                  +:+ message)
                               command returncode out err)
           | e => raise e
           end).

(** *** Shell scripts and commands *)

(** Functions of the Python library that the code calls and whose
    results only pass through it. *)
Class Library := mkLibrary
  { quote : string → string;          (* shlex.quote *)
    dedent : string → string;         (* textwrap.dedent *)
    mktemp : World → Path;            (* socket directory and tempfile.mktemp *)
    search_btime : string → option Z  (* re.search(r'btime\s+(\d+)'), int *) }.

Section Scripts.
Context `{Library}.

(** [ShellScript.__init__]. *)
Definition ShellScript_init (script : string) : ShellScript :=
  mkShellScript (dedent script).

(** [ShellScript.from_scripts]. *)
Definition from_scripts (scripts : list ShellScript) : ShellScript :=
  ShellScript_init (String.concat "; " (map _script scripts)).

(** [ShellScript.__add__]. *)
Definition ShellScript_add (self other : ShellScript) : ShellScript :=
  from_scripts [self; other].

(** [ShellScript.to_element]. *)
Definition ShellScript_to_element (self : ShellScript) : string :=
  _script self.

(** [Command.__add__]. *)
Definition Command_add (self other : Command) : Command :=
  mkCommand (_command self ++ _command other).

(** [Command.to_element]. *)
Definition Command_to_element (self : Command) : string :=
  String.concat " " (map quote (_command self)).

(** [Command.to_script]. *)
Definition Command_to_script (self : Command) : ShellScript :=
  ShellScript_init (String.concat " " (map quote (_command self))).

(** [shell_variables], for a dictionary. *)
Definition shell_variables (data : list (string * string)) : list string :=
  map (λ kv, kv.1 +:+ "=" +:+ quote kv.2) data.
End Scripts.

(** [wait]: the polling loop. One unit of [fuel] pays for one iteration
    of [while True]. [deadline] is passed in: the loop never recomputes
    it. The callback [check] may work on any state that contains the
    world. *)
Fixpoint wait_loop {St} `{!InWorld St} {T} (fuel : nat) (check : M St T)
    (timeout deadline tick tick_increase : Q) : M St T :=
  match fuel with
  | O => λ s, (OutOfFuel, s)
  | S fuel' =>
      let! s := get in
      (* now = NOW(); if now > deadline: ... *)
      if Qltb deadline (NOW s)
      then raise (WaitingTimedOutError timeout false)
      else
        try_except
          (let! value := check in
           (* one extra check: succeeded, but took too much time *)
           let! s := get in
           if Qltb deadline (NOW s)
           then raise (WaitingTimedOutError timeout true)
           else ret value)
          is_WaitingIncomplete
          (λ _,
             do! liftW (sleep tick) then
             wait_loop fuel' check timeout deadline
                       (tick * tick_increase)%Q tick_increase)
  end.

(** [wait(parent, check, timeout, tick, tick_increase)]. *)
Definition wait {St} `{!InWorld St} {T} (fuel : nat) (check : M St T)
    (timeout tick tick_increase : Q) : M St T :=
  if Qle_bool tick 0
  then raise (GeneralError "Tick must be a positive integer")
  else
    let! s := get in
    let deadline := (NOW s + timeout)%Q in
    wait_loop fuel check timeout deadline tick tick_increase.

End Utils.

(** ** tmt/steps/provision/__init__.py *)

Module Provision.
Import Utils.

(** Timeout in seconds of waiting for a connection after reboot. *)
Definition CONNECTION_TIMEOUT : Z := 5 * 60.

Definition RECONNECT_WAIT_TICK : Q := 5.
Definition RECONNECT_WAIT_TICK_INCREASE : Q := 1.

(** The module-level rsync option lists: their names in [globals] and
    the contents they are created with. *)
Definition DEFAULT_RSYNC_OPTIONS : string := "DEFAULT_RSYNC_OPTIONS".
Definition DEFAULT_RSYNC_PUSH_OPTIONS : string := "DEFAULT_RSYNC_PUSH_OPTIONS".
Definition DEFAULT_RSYNC_PULL_OPTIONS : string := "DEFAULT_RSYNC_PULL_OPTIONS".

Definition module_globals : gmap string (list string) :=
  <[DEFAULT_RSYNC_OPTIONS :=
      ["-s"; "-R"; "-r"; "-z"; "--links"; "--safe-links"; "--delete"]]>
  (<[DEFAULT_RSYNC_PUSH_OPTIONS :=
      ["-s"; "-R"; "-r"; "-z"; "--links"; "--safe-links"; "--delete"]]>
  (<[DEFAULT_RSYNC_PULL_OPTIONS :=
      ["-s"; "-R"; "-r"; "-z"; "--links"; "--safe-links"; "--protect-args"]]>
   ∅)).

Inductive CheckRsyncOutcome := ALREADY_INSTALLED | INSTALLED.

Global Instance CheckRsyncOutcome_eq_dec : EqDecision CheckRsyncOutcome.
Proof. solve_decision. Defined.

(** A list the code holds by reference: a module-level list, or a list
    object owned by the caller. *)
Inductive ListRef :=
| Global (name : string)
| Owned (items : list string).

Definition deref (r : ListRef) (w : World) : list string :=
  match r with
  | Global name => default [] (globals w !! name)
  | Owned items => items
  end.

(** [GuestSsh]: the data keys, the connection state, and what the guest
    reads from its parent ([parent.plan.workdir],
    [parent.plan.environment]). *)
Record GuestSsh := mkGuestSsh
  { common : Common;
    plan_workdir : option Path;
    plan_environment : list (string * string);
    role : option string;
    guest : option string;
    port : option Z;
    user : option string;
    key : list string;
    password : option string;
    ssh_option : list string;
    _ssh_master_process : option (list string);
    _ssh_socket_path : option Path }.

Definition set_master (p : option (list string)) (g : GuestSsh) : GuestSsh :=
  mkGuestSsh (common g) (plan_workdir g) (plan_environment g) (role g)
             (guest g) (port g) (user g) (key g) (password g)
             (ssh_option g) p (_ssh_socket_path g).
Definition set_socket (p : option Path) (g : GuestSsh) : GuestSsh :=
  mkGuestSsh (common g) (plan_workdir g) (plan_environment g) (role g)
             (guest g) (port g) (user g) (key g) (password g)
             (ssh_option g) (_ssh_master_process g) p.

(** A method of a guest runs on the guest object and the world. *)
Abbreviation GS := (GuestSsh * World)%type.

Definition get_self : M GS GuestSsh := λ s, (Ok s.1, s).
Definition get_world : M GS World := λ s, (Ok s.2, s).
Definition fail (message : string) : M GS unit :=
  liftW (modify (emit (EvFail message))).

(** [str()] of an optional string, and Python truth of one. *)
Definition str_opt (o : option string) : string := default "None" o.
Definition truthy (o : option string) : bool :=
  match o with Some s => negb (bool_decide (s = "")) | None => false end.

(** Python [dict.update] on insertion-ordered dictionaries. *)
Fixpoint dict_set (k v : string) (d : list (string * string))
    : list (string * string) :=
  match d with
  | [] => [(k, v)]
  | (k', v') :: d' =>
      if bool_decide (k = k') then (k, v) :: d'
      else (k', v') :: dict_set k v d'
  end.
Definition dict_update (d u : list (string * string))
    : list (string * string) :=
  foldl (λ acc kv, dict_set kv.1 kv.2 acc) d u.

Section GuestSsh.
Context `{Library}.

(** [Guest._prepare_environment]. *)
Definition _prepare_environment (self : GuestSsh)
    (execute_environment : option (list (string * string)))
    : list (string * string) :=
  dict_update (dict_update [] (default [] execute_environment))
              (plan_environment self).

(** [Guest._export_environment]. *)
Definition _export_environment (environment : list (string * string))
    : list ShellScript :=
  map (λ variable, ShellScript_init ("export " +:+ variable))
      (shell_variables environment).

(** [GuestSsh._ssh_guest]. *)
Definition _ssh_guest (self : GuestSsh) : string :=
  str_opt (user self) +:+ "@" +:+ str_opt (guest self).

(** [GuestSsh._ssh_socket]. *)
Definition _ssh_socket : M GS Path :=
  let! self := get_self in
  match _ssh_socket_path self with
  | Some path => ret path
  | None =>
      let! w := get_world in
      let path := mktemp w in
      do! modify (λ s : GS, (set_socket (Some path) s.1, s.2)) then
      ret path
  end.

(** [GuestSsh._ssh_options]. *)
Definition _ssh_options : M GS Command :=
  let! self := get_self in
  let options :=
    ["-oForwardX11=no"; "-oStrictHostKeyChecking=no";
     "-oUserKnownHostsFile=/dev/null";
     "-oServerAliveInterval=60"; "-oServerAliveCountMax=5"] in
  let options :=
    if negb (bool_decide (key self = [])) || truthy (password self)
    then options ++ ["-oIdentitiesOnly=yes"] else options in
  let options :=
    match port self with
    | Some p => if bool_decide (p = 0) then options
                else options ++ ["-p" +:+ pretty p]
    | None => options
    end in
  let options :=
    options ++ concat (map (λ k, ["-i"; k]) (key self)) in
  let options :=
    if truthy (password self)
    then options ++ ["-oPasswordAuthentication=yes"] else options in
  let! socket := _ssh_socket in
  let options := options ++ ["-S" +:+ socket] in
  ret (mkCommand (options ++ map (λ o, "-o" +:+ o) (ssh_option self))).

(** [GuestSsh._ssh_master_connection]. *)
Definition _ssh_master_connection (command : Command) : M GS unit :=
  let! self := get_self in
  match _ssh_master_process self with
  | Some _ => ret tt
  | None =>
      let! options := _ssh_options in
      let! self := get_self in
      let ssh_master_command :=
        Command_add (Command_add command options)
                    (mkCommand ["-MNnT"; _ssh_guest self]) in
      do! liftW (modify (emit (EvMaster (_command ssh_master_command))))
      then modify (λ s : GS,
             (set_master (Some (_command ssh_master_command)) s.1, s.2))
  end.

(** [GuestSsh._ssh_command]. *)
Definition _ssh_command : M GS Command :=
  let! self := get_self in
  let command :=
    mkCommand ((if truthy (password self)
                then ["sshpass"; "-p"; str_opt (password self)]
                else []) ++ ["ssh"]) in
  do! _ssh_master_connection command then
  let! options := _ssh_options in
  ret (Command_add command options).

(** The single shell line [remote_command] that [execute] hands to
    ssh: exports, the change of directory, then the command. *)
Definition remote_command (self : GuestSsh)
    (command : Command + ShellScript) (cwd : option Path)
    (env : option (list (string * string))) : string :=
  let remote_commands :=
    from_scripts (_export_environment (_prepare_environment self env)) in
  let remote_commands :=
    match cwd with
    | Some c =>
        ShellScript_add remote_commands
                        (ShellScript_init ("cd " +:+ quote c))
    | None => remote_commands
    end in
  let remote_commands :=
    match command with
    | inl c => ShellScript_add remote_commands (Command_to_script c)
    | inr script => ShellScript_add remote_commands script
    end in
  ShellScript_to_element remote_commands.

(** [GuestSsh.execute]. *)
Definition execute (command : Command + ShellScript)
    (cwd : option Path) (env : option (list (string * string)))
    (friendly_command : option string)
    (test_session interactive join : bool) (timeout : option Z)
    : M GS CommandOutput :=
  let! self := get_self in
  (* Abort if guest is unavailable *)
  if bool_decide (guest self = None) && negb (opt_dry (common self))
  then raise (GeneralError "The guest is not available.")
  else
    let! ssh_command := _ssh_command in
    let ssh_command :=
      if interactive then Command_add ssh_command (mkCommand ["-t"])
      else ssh_command in
    let ssh_command :=
      if test_session then Command_add ssh_command (mkCommand ["-tt"])
      else ssh_command in
    let ssh_command :=
      Command_add ssh_command
                  (mkCommand [_ssh_guest self;
                              remote_command self command cwd env]) in
    let friendly_command :=
      match friendly_command with
      | Some f => f
      | None => match command with
                | inl c => Command_to_element c
                | inr script => _script script
                end
      end in
    liftW (run (common self) ssh_command (Some friendly_command) cwd
               false false interactive join timeout).

(** [GuestSsh._check_rsync]. *)
Definition _check_rsync : M GS CheckRsyncOutcome :=
  (* Check for rsync (nothing to do if already installed) *)
  let! present :=
    try_except
      (do! execute (inl (mkCommand ["rsync"; "--version"])) None None
                   None false false false None
       then ret true)
      is_RunError (λ _, ret false) in
  if present : bool then ret ALREADY_INSTALLED
  else
    (* Check the package manager *)
    let! package_manager :=
      try_except
        (do! execute (inl (mkCommand ["dnf"; "--version"])) None None
                     None false false false None
         then ret "dnf")
        is_RunError (λ _, ret "yum") in
    (* Install under '/root/pkg' for read-only distros *)
    let! readonly :=
      try_except
        (do! execute (inl (mkCommand ["rpm-ostree"; "--version"])) None
                     None None false false false None
         then ret (" --installroot=/root/pkg --releasever / "
                   +:+ "&& ln -sf /root/pkg/bin/rsync /usr/local/bin/rsync"))
        is_RunError (λ _, ret "") in
    (* Install the rsync *)
    do! execute (inr (ShellScript_init
                        (package_manager +:+ " install -y rsync"
                           +:+ readonly)))
                None None None false false false None
    then ret INSTALLED.

(** The closure [rsync] of [push]. *)
Definition push_rsync (options : ListRef) (source destination : Path)
    : M GS unit :=
  let! w := get_world in
  match deref options w with
  | [] => raise AssertionError
  | opts =>
      let! ssh := _ssh_command in
      let! self := get_self in
      do! liftW
            (run (common self)
                 (mkCommand (["rsync"] ++ opts ++
                             ["-e"; Command_to_element ssh; source;
                              _ssh_guest self +:+ ":" +:+ destination]))
                 None None false false false false None)
      then ret tt
  end.

(** [options or DEFAULT]: an absent or empty list gives the module-level
    list object itself. *)
Definition or_default (options : option (list string)) (name : string)
    : ListRef :=
  match options with
  | Some (o :: os) => Owned (o :: os)
  | _ => Global name
  end.

(** [GuestSsh.push]. *)
Definition push (source destination : option Path)
    (options : option (list string)) : M GS unit :=
  let! self := get_self in
  (* Abort if guest is unavailable *)
  if bool_decide (guest self = None) && negb (opt_dry (common self))
  then raise (GeneralError "The guest is not available.")
  else
    (* Prepare options and the push command *)
    let options := or_default options DEFAULT_RSYNC_PUSH_OPTIONS in
    let destination := default "/" destination in
    let! source :=
      match source with
      | Some src => ret src
      | None => match plan_workdir self with
                | Some wd => ret wd
                | None => raise AssertionError
                end
      end in
    let rsync := push_rsync options source destination in
    (* Try to push twice, check for rsync after the first failure *)
    try_except rsync is_RunError
      (λ first,
         try_except
           (let! outcome := _check_rsync in
            if bool_decide (outcome = ALREADY_INSTALLED)
            then raise first
            else rsync)
           is_RunError
           (λ error,
              do! fail ("Failed to push workdir to the guest. This "
                        +:+ "usually means that login as '"
                        +:+ str_opt (user self)
                        +:+ "' to the guest does not work.")
              then raise error)).

(** The closure [rsync] of [pull]. *)
Definition pull_rsync (options : ListRef) (source destination : Path)
    : M GS unit :=
  let! w := get_world in
  match deref options w with
  | [] => raise AssertionError
  | opts =>
      let! ssh := _ssh_command in
      let! self := get_self in
      do! liftW
            (run (common self)
                 (mkCommand (["rsync"] ++ opts ++
                             ["-e"; Command_to_element ssh;
                              _ssh_guest self +:+ ":" +:+ source;
                              destination]))
                 None None false false false false None)
      then ret tt
  end.

(** [options.extend(extend_options)]: the list object behind the
    reference grows in place. *)
Definition extend (options : ListRef) (more : list string)
    : M GS ListRef :=
  match options with
  | Global name =>
      do! liftW (modify (λ w,
             set_globals (<[name := deref (Global name) w ++ more]>
                            (globals w)) w))
      then ret (Global name)
  | Owned items => ret (Owned (items ++ more))
  end.

(** The first two statements of [pull] after the guard:
    [options = options or DEFAULT_RSYNC_PULL_OPTIONS] and, when an
    extension is given, [options.extend(extend_options)]. *)
Definition pull_options (options extend_options : option (list string))
    : M GS ListRef :=
  let options := or_default options DEFAULT_RSYNC_PULL_OPTIONS in
  match extend_options with
  | Some more => extend options more
  | None => ret options
  end.

(** [GuestSsh.pull]. *)
Definition pull (source destination : option Path)
    (options extend_options : option (list string)) : M GS unit :=
  let! self := get_self in
  (* Abort if guest is unavailable *)
  if bool_decide (guest self = None) && negb (opt_dry (common self))
  then raise (GeneralError "The guest is not available.")
  else
    (* Prepare options and the pull command *)
    let! options := pull_options options extend_options in
    let destination := default "/" destination in
    let! source :=
      match source with
      | Some src => ret src
      | None => match plan_workdir self with
                | Some wd => ret wd
                | None => raise AssertionError
                end
      end in
    let rsync := pull_rsync options source destination in
    (* Try to pull twice, check for rsync after the first failure *)
    try_except rsync is_RunError
      (λ first,
         try_except
           (let! outcome := _check_rsync in
            if bool_decide (outcome = ALREADY_INSTALLED)
            then raise first
            else rsync)
           is_RunError
           (λ error,
              do! fail ("Failed to pull workdir from the guest. "
                        +:+ "This usually means that login as '"
                        +:+ str_opt (user self)
                        +:+ "' to the guest does not work.")
              then raise error)).

(** The closure [get_boot_time] of [reboot]. *)
Definition get_boot_time : M GS Z :=
  let! output :=
    execute (inl (mkCommand ["cat"; "/proc/stat"])) None None None
            false false false None in
  match stdout output with
  | None | Some "" => raise AssertionError
  | Some text =>
      match search_btime text with
      | None => raise (ProvisionError
                         "Failed to retrieve boot time from guest")
      | Some btime => ret btime
      end
  end.

(** The closure [check_boot_time] of [reboot]. *)
Definition check_boot_time (current_boot_time : Z) : M GS unit :=
  try_except
    (let! new_boot_time := get_boot_time in
     if bool_decide (new_boot_time ≠ current_boot_time)
     then ret tt
     else raise WaitingIncomplete)
    is_RunError (λ _, raise WaitingIncomplete).

(** [GuestSsh.reboot]. [fuel] bounds the iterations of the wait. *)
Definition reboot (fuel : nat) (hard : bool)
    (command : option (Command + ShellScript)) (timeout : option Z)
    (tick tick_increase : Q) : M GS bool :=
  if hard
  then raise (ProvisionError "Method does not support hard reboot.")
  else
    let command := default (inl (mkCommand ["reboot"])) command in
    let! current_boot_time := get_boot_time in
    do! try_except
          (do! execute command None None None false false false None
           then ret tt)
          is_RunError
          (λ error,
             (* Connection can be closed by the remote host even before
                the reboot command is completed. *)
             match error with
             | RunError _ _ returncode _ _ =>
                 if bool_decide (returncode = 255) then ret tt
                 else raise error
             | e => raise e
             end)
    then
    let timeout :=
      match timeout with
      | Some t => if bool_decide (t = 0) then CONNECTION_TIMEOUT else t
      | None => CONNECTION_TIMEOUT
      end in
    try_except
      (do! wait fuel (check_boot_time current_boot_time)
                (inject_Z timeout) tick tick_increase
       then ret true)
      is_WaitingTimedOutError
      (λ _, ret false).

End GuestSsh.

End Provision.

(** ** Data containers and guest data (tmt/utils.py, provision) *)

Module Containers.

(** Python values as they are held by data containers and written to
    [guests.yaml]. *)
Inductive Value :=
| VNone
| VBool (b : bool)
| VInt (z : Z)
| VStr (s : string)
| VList (items : list Value)
| VDict (entries : list (string * Value)).

Definition is_None (v : Value) : bool :=
  match v with VNone => true | _ => false end.

(** Insertion-ordered dictionaries with string keys. *)
Abbreviation Dict := (list (string * Value)).

Fixpoint dict_get (k : string) (d : Dict) : option Value :=
  match d with
  | [] => None
  | (k', v) :: d' => if bool_decide (k = k') then Some v else dict_get k d'
  end.

Fixpoint dict_set (k : string) (v : Value) (d : Dict) : Dict :=
  match d with
  | [] => [(k, v)]
  | (k', v') :: d' =>
      if bool_decide (k = k') then (k, v) :: d'
      else (k', v') :: dict_set k v d'
  end.

Fixpoint dict_pop (k : string) (d : Dict) : Dict :=
  match d with
  | [] => []
  | (k', v) :: d' =>
      if bool_decide (k = k') then d' else (k', v) :: dict_pop k d'
  end.

(** A dataclass: the module and name it is known by, and its fields in
    declaration order, each with the value its default or default factory
    gives. *)
Record DataClass := mkDataClass
  { cls_module : string; cls_name : string; cls_fields : Dict }.

(** An instance of a data container, and an object (a guest) that
    attributes are injected to and extracted from. *)
Record Container := mkContainer
  { klass : DataClass; attrs : gmap string Value }.

Record Object := mkObject
  { _data_class : DataClass; dict : gmap string Value }.

(** Sequencing of calls that may raise. *)
Definition and_then {A B} (r : outcome A) (k : A → outcome B) : outcome B :=
  match r with
  | Ok a => k a
  | Raise e => Raise e
  | OutOfFuel => OutOfFuel
  end.

(** [getattr]. *)
Definition getattr (d : gmap string Value) (name : string) : outcome Value :=
  match d !! name with
  | Some v => Ok v
  | None => Raise (AttributeError name)
  end.

(** [DataContainer.keys]. *)
Definition keys (cls : DataClass) : list string := (cls_fields cls).*1.

(** The constructor of a dataclass called with a dictionary of keyword
    arguments: an unknown keyword is a type error, a field that is not
    given takes its default. *)
Definition construct (cls : DataClass) (kwargs : Dict) : outcome Container :=
  match List.find (λ kv, negb (bool_decide (kv.1 ∈ keys cls))) kwargs with
  | Some kv =>
      Raise (TypeError ("__init__() got an unexpected keyword argument '"
                          +:+ kv.1 +:+ "'"))
  | None =>
      Ok (mkContainer cls
            (list_to_map
               (map (λ field, (field.1, default field.2
                                          (dict_get field.1 kwargs)))
                    (cls_fields cls))))
  end.

(** [DataContainer.to_dict], that is [dataclasses.asdict]. *)
Fixpoint fields_of (d : gmap string Value) (names : list string)
    : outcome Dict :=
  match names with
  | [] => Ok []
  | name :: names' =>
      and_then (getattr d name) (λ v,
      and_then (fields_of d names') (λ rest,
      Ok ((name, v) :: rest)))
  end.

Definition to_dict (self : Container) : outcome Dict :=
  fields_of (attrs self) (keys (klass self)).

(** [SerializableContainer.inject_to]. *)
Definition inject_to (self : Container) (obj : Object) : outcome Object :=
  and_then (to_dict self) (λ items,
  Ok (mkObject (_data_class obj)
               (foldl (λ d item, <[item.1 := item.2]> d) (dict obj) items))).

(** [SerializableContainer.extract_from]. *)
Fixpoint extract_keys (obj : Object) (names : list string)
    (data : gmap string Value) : outcome (gmap string Value) :=
  match names with
  | [] => Ok data
  | key :: names' =>
      and_then (getattr (dict obj) key) (λ value,
      extract_keys obj names'
        (if is_None value then data else <[key := value]> data))
  end.

Definition extract_from (cls : DataClass) (obj : Object) : outcome Container :=
  and_then (construct cls []) (λ data,
  and_then (extract_keys obj (keys cls) (attrs data)) (λ filled,
  Ok (mkContainer cls filled))).

(** [SerializableContainer.to_serialized]. The fields of the guest data
    classes carry no serialize callback. *)
Definition to_serialized (self : Container) : outcome Dict :=
  and_then (to_dict self) (λ fields,
  Ok (dict_set "__class__"
        (VDict [("module", VStr (cls_module (klass self)));
                ("name", VStr (cls_name (klass self)))])
        fields)).

(** [SerializableContainer.from_serialized]. *)
Definition from_serialized (cls : DataClass) (serialized : Dict)
    : outcome Container :=
  construct cls (dict_pop "__class__" serialized).

(** Modelled from the spec: [tmt.plugins.import_member] is not part of
    the sources at hand. It resolves the recorded module and class name to
    the class; here the classes that can be resolved are listed in
    [registry], and an unknown tag is a general error. *)
Definition import_member (registry : list DataClass) (module name : string)
    : outcome DataClass :=
  match List.find (λ cls, bool_decide (cls_module cls = module) &&
                          bool_decide (cls_name cls = name)) registry with
  | Some cls => Ok cls
  | None => Raise (GeneralError ("Failed to import member '" +:+ name
                                   +:+ "' from module '" +:+ module +:+ "'."))
  end.

(** [SerializableContainer.unserialize]. *)
Definition unserialize (registry : list DataClass) (serialized : Dict)
    : outcome Container :=
  match dict_get "__class__" serialized with
  | None =>
      Raise (GeneralError
               ("Failed to load saved state, probably because of old data "
                +:+ "format."))
  | Some klass_info =>
      let serialized := dict_pop "__class__" serialized in
      match klass_info with
      | VDict info =>
          match dict_get "module" info, dict_get "name" info with
          | Some (VStr module), Some (VStr name) =>
              and_then (import_member registry module name) (λ klass,
              from_serialized klass serialized)
          | Some _, Some _ => Raise (TypeError "import_member")
          | _, _ => Raise (OSError "KeyError")
          end
      | _ => Raise (TypeError "klass_info")
      end
  end.

(** The guest data classes of the provision module. *)
Definition GuestData : DataClass :=
  mkDataClass "tmt.steps.provision" "GuestData"
    [("role", VNone); ("guest", VNone)].

Definition GuestSshData : DataClass :=
  mkDataClass "tmt.steps.provision" "GuestSshData"
    (cls_fields GuestData ++
     [("port", VNone); ("user", VNone); ("key", VList []);
      ("password", VNone); ("ssh_option", VList [])]).

Definition guest_data_classes : list DataClass := [GuestData; GuestSshData].

(** [Guest.load]. *)
Definition load (self : Object) (data : Container) : outcome Object :=
  inject_to data self.

(** [Guest.save]. *)
Definition save (self : Object) : outcome Container :=
  extract_from (_data_class self) self.

(** [Guest.__init__]: a new guest of the class that keeps its data in
    [cls], loaded from [data]. *)
Definition Guest_init (cls : DataClass) (data : Container) : outcome Object :=
  load (mkObject cls ∅) data.

(** Save a guest, serialize, unserialize and wake a new guest up from the
    result, as [Provision.save], [Provision.load] and
    [ProvisionPlugin.wake] do together. *)
Definition save_and_restore (guest : Object) : outcome Object :=
  and_then (save guest) (λ data,
  and_then (to_serialized data) (λ serialized,
  and_then (unserialize guest_data_classes serialized) (λ restored,
  Guest_init (_data_class guest) restored))).

End Containers.

(** ** The provision step (tmt/steps/provision/__init__.py) *)

Module Step.

Inductive PhaseClass := Action | ProvisionPlugin | OtherPhase.

Global Instance PhaseClass_eq_dec : EqDecision PhaseClass.
Proof. solve_decision. Defined.

(** What the step sees of a guest: its name, whether it is ready, and
    whether [details()] raises. *)
Record Guest := mkGuest
  { guest_name : string; is_ready : bool; details_raises : option exn }.

(** What the step sees of a phase: its class, whether its [go()] raises,
    and the guest its [guest()] returns once [go()] has run. *)
Record Phase := mkPhase
  { phase_class : PhaseClass;
    phase_name : string;
    go_raises : option exn;
    phase_guest : option Guest }.

(** The calls the step makes to methods that are defined elsewhere or that
    write to the outside, in order. *)
Inductive Call :=
| CallStepGo
| CallInfo (key value : string)
| CallSummary (guests : list string)
| CallActions
| CallPhaseGo (name : string)
| CallDetails (guest : string)
| CallFail (message : string)
| CallSave (guests : list string).

(** The [Provision] step. [status] is what [self.status()] returns and
    sets; [phases] is what [self.phases()] returns, in order. *)
Record Provision := mkProvision
  { status : option string;
    phases : list Phase;
    _guests : list Guest;
    is_multihost : bool;
    dry : bool;
    calls : list Call }.

Definition set_status (v : option string) (p : Provision) : Provision :=
  mkProvision v (phases p) (_guests p) (is_multihost p) (dry p) (calls p).
Definition set_guests (g : list Guest) (p : Provision) : Provision :=
  mkProvision (status p) (phases p) g (is_multihost p) (dry p) (calls p).
Definition set_multihost (b : bool) (p : Provision) : Provision :=
  mkProvision (status p) (phases p) (_guests p) b (dry p) (calls p).
Definition call (c : Call) : M Provision unit :=
  modify (λ p, mkProvision (status p) (phases p) (_guests p)
                           (is_multihost p) (dry p) (calls p ++ [c])).

(** [str(error)]. *)
Definition str_exn (e : exn) : string :=
  match e with
  | GeneralError m | FileError m | RunError m _ _ _ _
  | SpecificationError m | ProvisionError m | RebootTimeoutError m
  | TypeError m | ValueError m | AttributeError m | OSError m => m
  | WaitingIncomplete => "Waiting incomplete"
  | WaitingTimedOutError _ _ => "Waiting timed out"
  | SystemExit => ""
  | AssertionError => ""
  | UnboundLocalError name => name
  end.

(** [Provision.summary]. *)
Definition summary : M Provision unit :=
  let! self := get in
  call (CallSummary (map guest_name (_guests self))).

(** [Provision.save]. *)
Definition save : M Provision unit :=
  let! self := get in
  call (CallSave (map guest_name (_guests self))).

(** [guest.details()]. *)
Definition details (guest : Guest) : M Provision unit :=
  do! call (CallDetails (guest_name guest)) then
  match details_raises guest with
  | Some e => raise e
  | None => ret tt
  end.

(** [phase.go()]. *)
Definition phase_go (phase : Phase) : M Provision unit :=
  do! call (CallPhaseGo (phase_name phase)) then
  match go_raises phase with
  | Some e => raise e
  | None => ret tt
  end.

(** One iteration of the loop over the phases in [Provision.go]. *)
Definition provision_phase (phase : Phase) : M Provision unit :=
  try_finally
    (try_except
       (do! match phase_class phase with
            | Action => phase_go phase
            | ProvisionPlugin =>
                do! phase_go phase then
                match phase_guest phase with
                | Some guest => details guest
                | None => ret tt
                end
            | OtherPhase => ret tt
            end
        then
        let! self := get in
        if is_multihost self then call (CallInfo "" "") else ret tt)
       (λ e, is_RunError e || is_ProvisionError e)
       (λ error, do! call (CallFail (str_exn error)) then raise error))
    (match phase_class phase with
     | ProvisionPlugin =>
         let! self := get in
         match phase_guest phase with
         | Some guest =>
             if is_ready guest || dry self
             then modify (λ p, set_guests (_guests p ++ [guest]) p)
             else ret tt
         | None => ret tt
         end
     | _ => ret tt
     end).

Fixpoint provision_phases (todo : list Phase) : M Provision unit :=
  match todo with
  | [] => ret tt
  | phase :: rest => do! provision_phase phase then provision_phases rest
  end.

(** [self.phases(classes=(Action, ProvisionPlugin))]. *)
Definition phases_of_classes (self : Provision) : list Phase :=
  List.filter (λ phase, bool_decide (phase_class phase = Action) ||
                        bool_decide (phase_class phase = ProvisionPlugin))
              (phases self).

(** [Provision.go]. *)
Definition go : M Provision unit :=
  do! call CallStepGo then
  let! self := get in
  (* Nothing more to do if already done *)
  if bool_decide (status self = Some "done")
  then
    do! call (CallInfo "status" "done") then
    do! summary then
    do! call CallActions then
    ret tt
  else
    (* Provision guests *)
    do! modify (set_guests []) then
    do! modify (set_multihost
                  (1 <? length (List.filter
                                  (λ phase, bool_decide
                                              (phase_class phase
                                               = ProvisionPlugin))
                                  (phases self)))%nat) then
    λ p,
      match (do! provision_phases (phases_of_classes self) then
             (* Give a summary, update status and save *)
             do! summary then
             modify (set_status (Some "done"))) p with
      | (Raise SystemExit, p') => (Raise SystemExit, p')
      | (Raise (SpecificationError m), p') =>
          (Raise (SpecificationError m), p')
      | (r, p') =>
          match save p' with
          | (Ok _, p'') => (r, p'')
          | (Raise e, p'') => (Raise e, p'')
          | (OutOfFuel, p'') => (OutOfFuel, p'')
          end
      end.

End Step.

(** ** The internal executor (tmt/steps/execute/internal.py) *)

Module Execute.
Import Utils.

Definition TEST_WRAPPER_FILENAME : string := "tmt-test-wrapper.sh".

(** [TEST_WRAPPER_INTERACTIVE] and [TEST_WRAPPER_NONINTERACTIVE], applied
    to the remote command. *)
Definition TEST_WRAPPER_INTERACTIVE (remote_command : string) : string :=
  remote_command.
Definition TEST_WRAPPER_NONINTERACTIVE (remote_command : string) : string :=
  "set -eo pipefail; " +:+ remote_command +:+ " </dev/null |& cat".

Definition SHELL_OPTIONS : string := "set -eo pipefail".

(** A test, as far as the executor reads and writes it. *)
Record Test := mkTest
  { name : string;
    framework : string;
    test : string;
    test_duration_limit : string;     (* test.duration *)
    test_result : string;             (* test.result *)
    environment : list (string * string);
    _reboot_count : Z;
    returncode : option Z;
    real_duration : option string }.

Definition set_reboot_count (n : Z) (t : Test) : Test :=
  mkTest (name t) (framework t) (test t) (test_duration_limit t)
         (test_result t) (environment t) n (returncode t) (real_duration t).
Definition set_returncode (rc : option Z) (t : Test) : Test :=
  mkTest (name t) (framework t) (test t) (test_duration_limit t)
         (test_result t) (environment t) (_reboot_count t) rc (real_duration t).
Definition set_real_duration (d : option string) (t : Test) : Test :=
  mkTest (name t) (framework t) (test t) (test_duration_limit t)
         (test_result t) (environment t) (_reboot_count t) (returncode t)
         d.

Inductive ResultOutcome := PASS | FAIL | INFO | WARN | ERROR.

Global Instance ResultOutcome_eq_dec : EqDecision ResultOutcome.
Proof. solve_decision. Defined.

Record Result := mkResult
  { result_name : string;
    result : ResultOutcome;
    note : option string;
    duration : option string }.

Definition set_result (o : ResultOutcome) (r : Result) : Result :=
  mkResult (result_name r) o (note r) (duration r).
Definition set_note (n : option string) (r : Result) : Result :=
  mkResult (result_name r) (result r) n (duration r).

(** The content of a reboot request, as [json.loads] returns it. *)
Inductive JSON :=
| JNull
| JBool (b : bool)
| JInt (z : Z)
| JFloat (q : Q)
| JStr (s : string)
| JList (items : list JSON)
| JObj (entries : list (string * JSON)).

(** Python truth of a JSON value. *)
Definition json_truthy (v : JSON) : bool :=
  match v with
  | JNull => false
  | JBool b => b
  | JInt z => negb (bool_decide (z = 0))
  | JFloat q => negb (Qeq_bool q 0)
  | JStr s => negb (bool_decide (s = ""))
  | JList items => match items with [] => false | _ => true end
  | JObj entries => match entries with [] => false | _ => true end
  end.

(** [reboot_data.get(key)]: only a dictionary has [get]; a missing key
    gives [None]. *)
Fixpoint entries_get (key : string) (entries : list (string * JSON))
    : JSON :=
  match entries with
  | [] => JNull
  | (k, v) :: rest =>
      if bool_decide (k = key) then v else entries_get key rest
  end.

Definition json_get (data : JSON) (key : string) : outcome JSON :=
  match data with
  | JObj entries => Ok (entries_get key entries)
  | _ => Raise (AttributeError "get")
  end.

(** The executor sees the local files and the guest. *)
Record Host (G : Type) := mkHost
  { files : gmap string string; machine : G }.
Arguments mkHost {G} files machine.
Arguments files {G} h.
Arguments machine {G} h.

(** What was done to the guest and said to the user, in order. *)
Inductive Entry :=
| DidExecute (index : nat)
| DidPush (source : option Path)
| DidPull (source : option Path) (extend_options : option (list string))
| DidReboot (hard : bool) (command : option string) (timeout : option Z)
| DidPrepareScripts
| DidLogin (last : Result)
| Warned (message : string)
| Failed (message : string).

(** The plugin: the host, the tests with their mutable fields, the results
    collected so far, and the trace. *)
Record Plugin (G : Type) := mkPlugin
  { host : Host G;
    tests : list Test;
    _results : list Result;
    trace : list Entry }.
Arguments mkPlugin {G} host tests _results trace.
Arguments host {G} p.
Arguments tests {G} p.
Arguments _results {G} p.
Arguments trace {G} p.

(** The [Guest] interface the executor is written against. *)
Class GuestOps (G : Type) := mkGuestOps
  { guest_localhost : G → bool;
    guest_execute :
      string → Path → list (string * string) → bool → Z →
      M (Host G) CommandOutput;
    guest_push :
      option Path → option Path → option (list string) → M (Host G) unit;
    guest_pull :
      option Path → option (list string) → M (Host G) unit;
    guest_reboot :
      bool → option ShellScript → option Z → M (Host G) bool }.

(** Methods and constants of the executor's base class and of the
    libraries it uses; they are defined outside the file at hand. *)
Class Base (G : Type) := mkBase
  { data_path : Test → Path;
    TEST_DATA : string;
    REBOOT_REQUEST : string;          (* TMT_REBOOT_SCRIPT.created_file *)
    TEST_OUTPUT_FILENAME : string;
    TEST_METADATA_FILENAME : string;
    related_variables : list string;  (* TMT_REBOOT_SCRIPT.related_variables *)
    submit_script_path : Path;        (* TMT_FILE_SUBMIT_SCRIPT.path *)
    test_workdir : Test → Path;
    test_duration : Test → string;
    duration_to_seconds : string → outcome Z;
    plan_data_directory : Path;
    check_custom_results : Test → Host G → outcome (list Result);
    check_beakerlib : Test → Host G → outcome (list Result);
    check_result_file : Test → Host G → outcome (list Result);
    check_shell : Test → Host G → outcome (list Result);
    check_abort_file : Test → Host G → bool;
    json_loads : string → outcome JSON;
    int_of_str : string → option Z }.

(** Options of the plugin. *)
Record Options := mkOptions
  { interactive : bool; exit_first : bool; login_after_test : bool }.

Section Plugin.
Context {G : Type} `{!GuestOps G} `{!Base G} `{!Library}.

Abbreviation P := (Plugin G).

Definition set_host (h : Host G) (p : P) : P :=
  mkPlugin h (tests p) (_results p) (trace p).
Definition set_tests (t : list Test) (p : P) : P :=
  mkPlugin (host p) t (_results p) (trace p).
Definition set_results (r : list Result) (p : P) : P :=
  mkPlugin (host p) (tests p) r (trace p).
Definition record (e : Entry) : M P unit :=
  modify (λ p, mkPlugin (host p) (tests p) (_results p) (trace p ++ [e])).

(** A call of a guest method from the plugin. *)
Definition on_host {A} (m : M (Host G) A) : M P A :=
  λ p, let (r, h) := m (host p) in (r, set_host h p).

Definition set_files (f : gmap string string) (h : Host G) : Host G :=
  mkHost f (machine h).

(** The test object at [index]; the loop guards the index. *)
Definition the_test (index : nat) : M P Test :=
  let! self := get in
  match tests self !! index with
  | Some t => ret t
  | None => raise (OSError "IndexError")
  end.

(** An assignment to a field of the test object at [index]. *)
Definition update_test (index : nat) (f : Test → Test) : M P unit :=
  modify (λ p, set_tests (alter f index (tests p)) p).

(** The path operator of [pathlib], for relative right-hand sides. *)
Definition path_join (a b : Path) : Path := a +:+ "/" +:+ b.

(** [ExecuteInternal._reboot_request_path]. *)
Definition _reboot_request_path (t : Test) : Path :=
  path_join (path_join (data_path t) TEST_DATA) REBOOT_REQUEST.

(** [ExecuteInternal._will_reboot]. *)
Definition _will_reboot (t : Test) : M P bool :=
  let! self := get in
  ret (bool_decide (is_Some (files (host self) !! _reboot_request_path t))).

(** [ShellScript(value)] on a JSON value: [textwrap.dedent] refuses
    anything but a string. *)
Definition shell_script_of (v : JSON) : outcome ShellScript :=
  match v with
  | JStr s => Ok (ShellScript_init s)
  | _ => Raise (TypeError "expected string or bytes-like object")
  end.

(** [int(value)] on a JSON value. *)
Definition int_of (v : JSON) : outcome Z :=
  match v with
  | JNull | JList _ | JObj _ =>
      Raise (TypeError ("int() argument must be a string, a bytes-like "
                        +:+ "object or a real number"))
  | JBool b => Ok (if b then 1 else 0)
  | JInt z => Ok z
  | JFloat q => Ok (Z.quot (Qnum q) (Zpos (Qden q)))
  | JStr s =>
      match int_of_str s with
      | Some z => Ok z
      | None => Raise (ValueError "invalid literal for int() with base 10")
      end
  end.

Definition lift {A} (r : outcome A) : M P A := λ p, (r, p).

(** [ExecuteInternal._test_environment]. *)
Definition _test_environment (t : Test)
    (extra_environment : option (list (string * string)))
    : list (string * string) :=
  let data_directory := data_path t in
  let environment :=
    Provision.dict_update (default [] extra_environment) (environment t) in
  let environment :=
    Provision.dict_update environment
      [("TMT_TEST_NAME", name t);
       ("TMT_TEST_DATA", path_join data_directory TEST_DATA);
       ("TMT_TEST_METADATA", path_join data_directory TEST_METADATA_FILENAME);
       ("TMT_REBOOT_REQUEST",
        path_join (path_join data_directory TEST_DATA) REBOOT_REQUEST)] in
  (* Set all supported reboot variables *)
  let environment :=
    Provision.dict_update environment
      (map (λ variable, (variable, pretty (_reboot_count t)))
           related_variables) in
  (* Variables related to beakerlib tests *)
  if bool_decide (framework t = "beakerlib")
  then Provision.dict_update environment
         [("BEAKERLIB_DIR", data_directory);
          ("BEAKERLIB_COMMAND_SUBMIT_LOG", "bash " +:+ submit_script_path)]
  else environment.

(** [Common.write] of a local file, in mode 'w' or 'a'. *)
Definition write (path : Path) (data : string) (append : bool) : M P unit :=
  modify (λ p,
    set_host (set_files
                (<[path := if append
                           then default "" (files (host p) !! path) +:+ data
                           else data]> (files (host p)))
                (host p)) p).

Definition is_TypeError (e : exn) : bool :=
  match e with TypeError _ => true | _ => false end.
Definition is_ValueError (e : exn) : bool :=
  match e with ValueError _ => true | _ => false end.
Definition is_FileError (e : exn) : bool :=
  match e with FileError _ => true | _ => false end.

(** [ExecuteInternal._handle_reboot]. [fuel] is not needed: the method has
    no loop of its own. *)
Definition _handle_reboot (index : nat) : M P bool :=
  let! t := the_test index in
  let! requested := _will_reboot t in
  if requested : bool then
    do! update_test index (λ t, set_reboot_count (_reboot_count t + 1) t) then
    let reboot_request_path := _reboot_request_path t in
    let test_data := path_join (data_path t) TEST_DATA in
    let! self := get in
    let! content :=
      match files (host self) !! reboot_request_path with
      | Some text => ret text
      | None => raise (OSError "No such file or directory")
      end in
    let! reboot_data := lift (json_loads content) in
    let! command := lift (json_get reboot_data "command") in
    let! reboot_command :=
      if json_truthy command
      then
        try_except
          (let! requested := lift (json_get reboot_data "command") in
           let! script := lift (shell_script_of requested) in
           ret (Some script))
          is_TypeError (λ _, ret None)
      else ret None in
    let! timeout :=
      try_except
        (let! requested := lift (json_get reboot_data "timeout") in
         let! seconds := lift (int_of requested) in
         ret (Some seconds))
        is_ValueError (λ _, ret None) in
    (* Reset the file *)
    do! modify (λ p, set_host (set_files (delete reboot_request_path
                                            (files (host p))) (host p)) p)
    then
    do! record (DidPush (Some test_data)) then
    do! on_host (guest_push (Some test_data) None None) then
    let! rebooted :=
      try_except
        (try_except
           (do! record (DidReboot false (option_map _script reboot_command)
                                  timeout) then
            on_host (guest_reboot false reboot_command timeout))
           is_RunError
           (λ error,
              do! record (Failed ("Failed to reboot guest using the "
                                  +:+ "custom command '"
                                  +:+ default "None"
                                        (option_map _script reboot_command)
                                  +:+ "'.")) then
              raise error))
        is_ProvisionError
        (λ _,
           do! record (Warned ("Guest does not support soft reboot, "
                               +:+ "trying hard reboot.")) then
           do! record (DidReboot true None timeout) then
           on_host (guest_reboot true None timeout)) in
    if rebooted : bool then ret true
    else raise (RebootTimeoutError "Reboot timed out.")
  else ret false.

(** [ExecuteInternal.execute]. The time the run took is what
    [test_duration] reports. *)
Definition execute (opts : Options) (index : nat)
    (extra_environment : option (list (string * string))) : M P unit :=
  let! t := the_test index in
  let workdir := test_workdir t in
  (* Create data directory, prepare test environment *)
  let environment := _test_environment t extra_environment in
  let test_wrapper_filepath := path_join workdir TEST_WRAPPER_FILENAME in
  (* Prepare the test command (use default options for shell tests) *)
  let test_command :=
    if bool_decide (framework t = "shell")
    then _script (ShellScript_init (SHELL_OPTIONS +:+ "; " +:+ test t))
    else test t in
  (* Prepare the wrapper, push to guest *)
  do! write test_wrapper_filepath test_command false then
  do! record (DidPush (Some test_wrapper_filepath)) then
  do! on_host (guest_push (Some test_wrapper_filepath)
                          (Some test_wrapper_filepath)
                          (Some ["-s"; "-p"; "--chmod=755"])) then
  (* Prepare the actual remote command *)
  let remote_command := ShellScript_init ("./" +:+ TEST_WRAPPER_FILENAME) in
  let remote_command :=
    if interactive opts
    then ShellScript_init (TEST_WRAPPER_INTERACTIVE (_script remote_command))
    else ShellScript_init
           (TEST_WRAPPER_NONINTERACTIVE (_script remote_command)) in
  (* Execute the test, save the output and return code *)
  do! record (DidExecute index) then
  let! output :=
    try_except
      (let! timeout := lift (duration_to_seconds (test_duration_limit t)) in
       let! out :=
         on_host (guest_execute (_script remote_command) workdir environment
                                (interactive opts) timeout) in
       do! update_test index (set_returncode (Some 0)) then
       ret (stdout out))
      is_RunError
      (λ error,
         match error with
         | RunError _ _ rc out _ =>
             do! update_test index (set_returncode (Some rc)) then
             ret out
         | e => raise e
         end) in
  do! write (path_join (data_path t) TEST_OUTPUT_FILENAME)
            (default "" output) true then
  update_test index (set_real_duration (Some (test_duration t))).

(** [ExecuteInternal.check]. *)
Definition check (t : Test) : M P (list Result) :=
  let! self := get in
  if bool_decide (test_result t = "custom")
  then lift (check_custom_results t (host self))
  else if bool_decide (framework t = "beakerlib")
  then lift (check_beakerlib t (host self))
  else try_except (lift (check_result_file t (host self)))
         is_FileError (λ _, lift (check_shell t (host self))).

(** The body of the loop in [_run_tests] up to the handling of reboot:
    execute the test, pull its data, produce the list of results. *)
Definition run_test (opts : Options) (index : nat)
    (extra_environment : option (list (string * string)))
    : M P (list Result) :=
  do! execute opts index extra_environment then
  let! t := the_test index in
  (* Pull test logs from the guest, exclude beakerlib backups *)
  let exclude :=
    if bool_decide (framework t = "beakerlib")
    then Some ["--exclude"; path_join (data_path t) "backup*"]
    else None in
  do! record (DidPull (Some (data_path t)) exclude) then
  do! on_host (guest_pull (Some (data_path t)) exclude) then
  let! results := check t in
  match real_duration t with
  | Some _ => ret results
  | None => raise AssertionError
  end.

(** The loop of [_run_tests]. One unit of [fuel] pays for one iteration.
    [last_result] is the loop variable [result], which outlives the
    iteration that set it. *)
Fixpoint tests_loop (opts : Options) (fuel : nat) (index : nat)
    (extra_environment : option (list (string * string)))
    (last_result : option Result) : M P unit :=
  match fuel with
  | O => λ p, (OutOfFuel, p)
  | S fuel' =>
      let! self := get in
      if negb (index <? length (tests self))%nat then ret tt
      else
        let! results := run_test opts index extra_environment in
        (* Handle reboot, abort, exit-first *)
        let! t := the_test index in
        let! requested := _will_reboot t in
        let! proceed :=
          if requested : bool then
            try_except
              (let! rebooted := _handle_reboot index in
               if rebooted : bool then ret None else ret (Some results))
              is_RebootTimeoutError
              (λ _, ret (Some (map (λ r, set_note (Some "reboot timeout")
                                           (set_result ERROR r))
                                   results)))
          else ret (Some results) in
        match proceed with
        | None =>
            (* continue *)
            tests_loop opts fuel' index extra_environment last_result
        | Some results =>
            let! self := get in
            let! t := the_test index in
            let abort := check_abort_file t (host self) in
            (* In case of aborted all results in list will be aborted *)
            let results :=
              if abort then map (set_note (Some "aborted")) results
              else results in
            do! modify (λ p, set_results (_results p ++ results) p) then
            let last_result :=
              match last results with
              | Some r => Some r
              | None => last_result
              end in
            let! stop :=
              if abort then ret true
              else if exit_first opts then
                match last_result with
                | Some r =>
                    ret (negb (bool_decide (result r = PASS) ||
                               bool_decide (result r = INFO)))
                | None => raise (UnboundLocalError "result")
                end
              else ret false in
            if stop : bool then
              do! record (Warned ("Test " +:+ name t +:+ " "
                                  +:+ (if abort then "aborted" else "failed")
                                  +:+ ", stopping execution.")) then
              (* break *)
              ret tt
            else
              (* Log into the guest after each executed test *)
              do! (if login_after_test opts then
                     match last_result with
                     | Some r => record (DidLogin r)
                     | None => raise (UnboundLocalError "result")
                     end
                   else ret tt) then
              tests_loop opts fuel' (S index) extra_environment last_result
        end
  end.

(** [ExecuteInternal._run_tests]; [self.tests] holds what
    [prepare_tests] returned. *)
Definition _run_tests (opts : Options) (fuel : nat)
    (extra_environment : option (list (string * string))) : M P unit :=
  let! self := get in
  (* Prepare scripts, except localhost guest *)
  do! (if guest_localhost (machine (host self)) then ret tt
       else record DidPrepareScripts) then
  (* Push workdir to guest and execute tests *)
  do! record (DidPush None) then
  do! on_host (guest_push None None None) then
  do! tests_loop opts fuel 0 extra_environment None then
  (* Pull artifacts created in the plan data directory *)
  do! record (DidPull (Some plan_data_directory) None) then
  on_host (guest_pull (Some plan_data_directory) None).

End Plugin.

End Execute.

(** ** Further methods of the guest (provision) *)

Module Guests.
Import Utils Provision.

Section GuestSsh.
Context `{Library}.

(** The closure [try_whoami] of [reconnect]. *)
Definition try_whoami : M GS unit :=
  try_except
    (do! execute (inl (mkCommand ["whoami"])) None None None
                 false false false None
     then ret tt)
    is_RunError (λ _, raise WaitingIncomplete).

(** [Guest.reconnect]. [fuel] bounds the iterations of the wait. *)
Definition reconnect (fuel : nat) (timeout : option Z)
    (tick tick_increase : Q) : M GS bool :=
  (* timeout = timeout or CONNECTION_TIMEOUT *)
  let timeout :=
    match timeout with
    | Some t => if bool_decide (t = 0) then CONNECTION_TIMEOUT else t
    | None => CONNECTION_TIMEOUT
    end in
  try_except
    (do! wait fuel try_whoami (inject_Z timeout) tick tick_increase
     then ret true)
    is_WaitingTimedOutError
    (λ _, ret false).

(** [GuestSsh.is_ready]. *)
Definition is_ready (self : GuestSsh) : bool :=
  negb (bool_decide (guest self = None)).

End GuestSsh.

End Guests.

(** ** Further helpers of tmt/utils.py *)

Module Helpers.
Import Utils Stdlib.Strings.Ascii.

(** [str.replace(old, new)] for single characters. *)
Fixpoint replace_char (old new : Ascii.ascii) (s : string) : string :=
  match s with
  | EmptyString => EmptyString
  | String c rest =>
      String (if Ascii.eqb c old then new else c) (replace_char old new rest)
  end.

(** [key_to_option]. *)
Definition key_to_option (key : string) : string := replace_char "_"%char "-"%char key.

(** [option_to_key]. *)
Definition option_to_key (option : string) : string :=
  replace_char "-"%char "_"%char option.

(** The text before the first [c], or all of it. *)
Fixpoint before (c : Ascii.ascii) (s : string) : string :=
  match s with
  | EmptyString => EmptyString
  | String a rest => if Ascii.eqb a c then EmptyString
                     else String a (before c rest)
  end.

(** The text after the first [c], if there is one. *)
Fixpoint after (c : Ascii.ascii) (s : string) : option string :=
  match s with
  | EmptyString => None
  | String a rest => if Ascii.eqb a c then Some rest else after c rest
  end.

Definition newline : Ascii.ascii := Ascii.ascii_of_nat 10.

(** The regular expression of [_add_simple_var], matched at the start of
    [var]: one or more characters other than the equals sign, the equals
    sign, then any characters up to the end of the line. So the name is
    the text before the first equals sign and is not empty, and the value
    is what follows that sign, up to the first line break. *)
Definition match_variable (var : string) : option (string * string) :=
  match after "="%char var with
  | None => None
  | Some rest =>
      let name := before "="%char var in
      if bool_decide (name = EmptyString) then None
      else Some (name, before newline rest)
  end.

(** [_add_simple_var]; the dictionary is passed and returned. *)
Definition _add_simple_var (result : list (string * string)) (var : string)
    : outcome (list (string * string)) :=
  match match_variable var with
  | None =>
      Raise (GeneralError ("Invalid variable specification '" +:+ var
                           +:+ "'."))
  | Some (name, value) => Ok (Provision.dict_set name value result)
  end.

(** [str.split(sep)] for a single character: a list that is never
    empty. *)
Fixpoint split_on (sep : Ascii.ascii) (s : string) : list string :=
  match s with
  | EmptyString => [EmptyString]
  | String a rest =>
      if Ascii.eqb a sep then EmptyString :: split_on sep rest
      else match split_on sep rest with
           | [] => [String a EmptyString]
           | first :: others => String a first :: others
           end
  end.

Section Shell.
Context `{Library}.

(** [shlex.split], which raises [ValueError] on an open quotation. *)
Variable shlex_split : string → outcome (list string).

(** The inner loop of [shell_to_dict]. *)
Fixpoint add_simple_vars (result : list (string * string))
    (vars : list string) : outcome (list (string * string)) :=
  match vars with
  | [] => Ok result
  | var :: rest =>
      Containers.and_then (_add_simple_var result var)
        (λ result, add_simple_vars result rest)
  end.

(** The outer loop of [shell_to_dict]. *)
Fixpoint shell_to_dict_from (result : list (string * string))
    (variables : list (option string)) : outcome (list (string * string)) :=
  match variables with
  | [] => Ok result
  | None :: rest => shell_to_dict_from result rest
  | Some variable :: rest =>
      Containers.and_then (shlex_split variable) (λ vars,
      Containers.and_then (add_simple_vars result vars) (λ result,
      shell_to_dict_from result rest))
  end.

(** [shell_to_dict], for a list of strings. *)
Definition shell_to_dict (variables : list (option string))
    : outcome (list (string * string)) :=
  shell_to_dict_from [] variables.

(** [shell_variables], for a list or tuple of [key=value] pairs. *)
Definition shell_variables_list (data : list string) : list string :=
  map (λ item,
         let splitted_item := split_on "="%char item in
         let key := default EmptyString (head splitted_item) in
         let value := quote (String.concat "=" (tail splitted_item)) in
         key +:+ "=" +:+ value)
      data.

End Shell.

Section Files.

(** The path operator of [pathlib], whether a file can be opened for
    writing, and the text of the error of the operating system. *)
Variable path_div : Path → Path → Path.
Variable writable : World → Path → bool.
Variable strerror : Path → string.


(** [Common.write]; [append] stands for the append mode. *)
Definition write (self : Common) (path : Path) (data : string)
    (append : bool) : M World unit :=
  let path :=
    match workdir self with
    | Some wd => path_div wd path
    | None => path
    end in
  (* Dry mode *)
  if opt_dry self then ret tt
  else
    let! w := get in
    if writable w path
    then modify (set_fs (<[path := if append
                                   then default "" (fs w !! path) +:+ data
                                   else data]> (fs w)))
    else raise (FileError ("Failed to write '" +:+ path +:+ "'."
                           +:+ String newline (strerror path))).

End Files.

End Helpers.

(** ** Durations and names *)

Module Durations.
Import Utils Stdlib.Strings.Ascii.

(** A decimal digit of ASCII, and its value. *)
Definition is_digit (c : Ascii.ascii) : bool :=
  (48 <=? Ascii.nat_of_ascii c)%nat && (Ascii.nat_of_ascii c <=? 57)%nat.

Definition digit_value (c : Ascii.ascii) : Z :=
  Z.of_nat (Ascii.nat_of_ascii c) - 48.

(** Text that is ASCII throughout. *)
Fixpoint is_ascii_text (s : string) : bool :=
  match s with
  | EmptyString => true
  | String c rest => (Ascii.nat_of_ascii c <? 128)%nat && is_ascii_text rest
  end.

(** The longest prefix of digits, and what follows it. *)
Fixpoint digits_of (s : string) : string :=
  match s with
  | EmptyString => EmptyString
  | String c rest => if is_digit c then String c (digits_of rest)
                     else EmptyString
  end.

Fixpoint after_digits (s : string) : string :=
  match s with
  | EmptyString => EmptyString
  | String c rest => if is_digit c then after_digits rest else s
  end.

(** [int(number)] for a text of ASCII digits. *)
Fixpoint int_of_digits (acc : Z) (s : string) : Z :=
  match s with
  | EmptyString => acc
  | String c rest => int_of_digits (10 * acc + digit_value c) rest
  end.

(** [units.get(suffix, 1)]. *)
Definition units (suffix : string) : Z :=
  if bool_decide (suffix = "s") then 1
  else if bool_decide (suffix = "m") then 60
  else if bool_decide (suffix = "h") then 60 * 60
  else if bool_decide (suffix = "d") then 60 * 60 * 24
  else 1.

(** The end of the pattern: the end of the text, or the line break that
    ends the text. *)
Definition at_end (s : string) : bool :=
  bool_decide (s = EmptyString) ||
  bool_decide (s = String (Ascii.ascii_of_nat 10) EmptyString).

(** [duration_to_seconds]. The pattern is one or more digits, at most one
    of the letters s, m, h and d, and the end. For text that is not ASCII
    the digits are those of Unicode, and the result is left to
    [unicode]. *)
Definition duration_to_seconds (unicode : string → outcome Z)
    (duration : string) : outcome Z :=
  if negb (is_ascii_text duration) then unicode duration
  else
    let invalid :=
      Raise (SpecificationError ("Invalid duration '" +:+ duration +:+ "'.")) in
    let number := digits_of duration in
    let rest := after_digits duration in
    if bool_decide (number = EmptyString) then invalid
    else
      match rest with
      | EmptyString => Ok (int_of_digits 0 number * units "")
      | String c rest' =>
          let suffix := String c EmptyString in
          if (bool_decide (suffix = "s") || bool_decide (suffix = "m") ||
              bool_decide (suffix = "h") || bool_decide (suffix = "d"))
             && at_end rest'
          then Ok (int_of_digits 0 number * units suffix)
          else if at_end rest then Ok (int_of_digits 0 number * units "")
          else invalid
      end.

(** The text without its first [n] characters. *)
Fixpoint skip (n : nat) (s : string) : string :=
  match n, s with
  | O, _ => s
  | S n', String _ rest => skip n' rest
  | S _, EmptyString => EmptyString
  end.

(** The slice of Python that starts at [start] and runs to the end. *)
Definition slice_from (start : Z) (s : string) : string :=
  let n := Z.of_nat (String.length s) in
  let i := if (start <? 0)%Z then Z.max 0 (start + n) else Z.min start n in
  skip (Z.to_nat i) s.

(** [Guest._random_name]; [choices k] is what
    [random.choices(string.ascii_letters, k=k)] returns, joined. *)
Definition _random_name (choices : nat → string) (prefix : string)
    (length : Z) : string :=
  (* Append at least 5 random characters *)
  let min_random_part :=
    Z.max 5 (length - Z.of_nat (String.length prefix)) in
  let name := prefix +:+ choices (Z.to_nat min_random_part) in
  (* Return tail (containing random characters) of name *)
  slice_from (- length) name.

End Durations.

(** * Properties *)

(** ** Waiting *)

Module WaitFacts.
Import Utils.

Section Generic.
Context {St : Type} `{!InWorld St} {T : Type}.
Implicit Types (check : M St T) (s : St).




(** Unfolding of one iteration of the polling loop. *)
Lemma wait_loop_S fuel check timeout deadline tick ti s :
  wait_loop (S fuel) check timeout deadline tick ti s =
    if Qltb deadline (NOW s)
    then (Raise (WaitingTimedOutError timeout false), s)
    else match check s with
         | (Ok v, s1) =>
             if Qltb deadline (NOW s1)
             then (Raise (WaitingTimedOutError timeout true), s1)
             else (Ok v, s1)
         | (Raise e, s1) =>
             if is_WaitingIncomplete e
             then match liftW (sleep tick) s1 with
                  | (Ok _, s2) =>
                      wait_loop fuel check timeout deadline
                                (tick * ti)%Q ti s2
                  | (Raise e', s2) => (Raise e', s2)
                  | (OutOfFuel, s2) => (OutOfFuel, s2)
                  end
             else (Raise e, s1)
         | (OutOfFuel, s1) => (OutOfFuel, s1)
         end.
Proof.
  cbn [wait_loop]. unfold bind at 1, get.
  destruct (Qltb deadline (NOW s)); [reflexivity|].
  unfold try_except, bind at 1.
  destruct (check s) as [[v|e|] s1]; cbn.
  - unfold bind, get. destruct (Qltb deadline (NOW s1)); reflexivity.
  - destruct (is_WaitingIncomplete e); [|reflexivity].
    unfold bind.
    destruct (liftW (sleep tick) s1) as [[[]|e'|] s2]; reflexivity.
  - reflexivity.
Qed.








Lemma wait_unfold fuel check timeout tick ti s :
  (0 < tick)%Q →
  wait fuel check timeout tick ti s
    = wait_loop fuel check timeout (NOW s + timeout)%Q tick ti s.
Proof.
  intros Ht. unfold wait.
  destruct (Qle_bool tick 0) eqn:E; [|reflexivity].
  apply Qle_bool_iff in E. lra.
Qed.



End Generic.





End WaitFacts.

(** ** Running commands *)

Module RunFacts.
Import Utils.

(** The command is really executed by [run]: dry mode does not skip it
    and the working directory, when there is one, exists. *)
Definition executed (self : Common) (cwd : option Path) (dry : bool)
    (w : World) : Prop :=
  (opt_dry self && negb dry = false) ∧
  match (match cwd with Some c => Some c | None => workdir self end) with
  | Some c => is_Some (fs w !! c)
  | None => True
  end.

Definition effective_cwd (self : Common) (cwd : option Path) : option Path :=
  match cwd with Some c => Some c | None => workdir self end.

Lemma run_executed (self : Common) (command : Command)
    (friendly : option string) (cwd : option Path)
    (dry shell interactive join : bool) (timeout : option Z) (w : World) :
  executed self cwd dry w →
  run self command friendly cwd dry shell interactive join timeout w =
    try_except
      (_run command (effective_cwd self cwd) shell join interactive timeout)
      is_RunError
      (λ error,
         match error with
         | RunError message command returncode out err =>
             raise (RunError ("Failed to run command: "
                                +:+ default "None" friendly
                                +:+ " Reason: " +:+ message)
                             command returncode out err)
         | e => raise e
         end) w.
Proof.
  intros [Hdry Hcwd]. unfold run. rewrite Hdry.
  unfold bind at 1, get. fold (effective_cwd self cwd).
  unfold effective_cwd in *.
  destruct (match cwd with Some c => Some c | None => workdir self end)
    as [c|]; [|reflexivity].
  rewrite bool_decide_eq_false_2; [reflexivity|].
  intros Hnone. rewrite Hnone in Hcwd. by destruct Hcwd.
Qed.


Definition plain : Common := mkCommon None false.



(** A process that prints one line early, one line late and would run
    for ten seconds. *)
Definition slow : Process :=
  mkProcess 10 0 [(1%Q, Out, "early"); (7%Q, Out, "late")].

Definition slow_world : World :=
  mkWorld 0 ∅ (λ _, Started slow) 0 ∅ [].


End RunFacts.

(** ** SSH guests *)

Module GuestFacts.
Import Utils Provision.

Section Facts.
Context `{Library}.

(** The fields that describe a guest, as opposed to its connection. *)
Definition data_of (g : GuestSsh) :=
  (common g, plan_workdir g, plan_environment g, role g, guest g, port g,
   user g, key g, password g, ssh_option g).

(** Two worlds that differ at most in the recorded events. *)
Definition same_but_events (w w' : World) : Prop :=
  clock w' = clock w ∧ fs w' = fs w ∧ launches w' = launches w ∧
  spawned w' = spawned w ∧ globals w' = globals w.

Definition is_master (e : Event) : bool :=
  match e with EvMaster _ => true | _ => false end.

(** The master connection and its socket exist. *)
Definition connected (g : GuestSsh) : Prop :=
  is_Some (_ssh_master_process g) ∧ is_Some (_ssh_socket_path g).

(** The program an argument vector starts. *)
Definition program (argv : list string) : string := default "" (head argv).

Lemma _ssh_command_spec (s : GS) :
  ∃ c s', _ssh_command s = (Ok c, s') ∧
          data_of s'.1 = data_of s.1 ∧ same_but_events s.2 s'.2 ∧
          connected s'.1 ∧
          (∃ evs, events s'.2 = events s.2 ++ evs ∧
                  forallb is_master evs = true) ∧
          (program (_command c) = "ssh" ∨ program (_command c) = "sshpass") ∧
          (connected s.1 → s' = s).
Proof.
  destruct s as [g w]. destruct g as [cm pw pe r gu po us ke pa so ma sk].
  unfold _ssh_command, _ssh_master_connection, _ssh_options, _ssh_socket.
  destruct ma as [m|], sk as [k|]; cbn.
  all: eexists _, _; split; [reflexivity|]; cbn.
  all: split; [reflexivity|]; split; [by repeat split|].
  all: split; [by split; eexists|].
  all: split; [first [by exists []; rewrite app_nil_r
                     | by eexists [_]] |].
  all: split; [destruct (truthy pa); cbn; auto|].
  all: try (intros [[? [=]] [? [=]]]; fail).
  all: try (intros [[? ?] [? [=]]]; fail).
  all: try (intros [[? [=]] [? ?]]; fail).
  done.
Qed.

(** What a finished launch hands back: the output when the process
    exited with status 0. *)
Definition finished (join : bool) (l : Launch) : option CommandOutput :=
  match l with
  | Started p =>
      let out :=
        captured (if join then both else only_out) (runtime p) (output p) in
      if bool_decide (exit_status p = 0)
      then Some (mkCommandOutput
                   (Some out)
                   (if join then None
                    else Some (captured only_err (runtime p) (output p))))
      else None
  | FileNotFound _ => None
  end.

Definition returncode_of (l : Launch) : Z :=
  match l with Started p => exit_status p | FileNotFound _ => 127 end.

Definition duration (l : Launch) : Q :=
  match l with Started p => runtime p | FileNotFound _ => 0 end.

(** The outcome [r] of running [argv] when the launch is [l]. *)
Definition outcome_of (join : bool) (argv : list string) (l : Launch)
    (r : outcome CommandOutput) : Prop :=
  match finished join l with
  | Some o => r = Ok o
  | None => ∃ m o e, r = Raise (RunError m argv (returncode_of l) o e)
  end.

(** [run] of a plain command: no timeout, not interactive. *)
Lemma run_plain_spec (self : Common) (argv : list string)
    (fr : option string) (cwd : option Path) (join : bool) (w : World) :
  opt_dry self = false →
  match (match cwd with Some c => Some c | None => workdir self end) with
  | Some c => is_Some (fs w !! c)
  | None => True
  end →
  ∃ r w',
    run self (mkCommand argv) fr cwd false false false join None w = (r, w') ∧
    spawned w' = S (spawned w) ∧ launches w' = launches w ∧
    fs w' = fs w ∧ globals w' = globals w ∧
    (clock w' == clock w + duration (launches w (spawned w)))%Q ∧
    events w' = events w ++
      [EvPopen (spawned w) argv
               (match cwd with Some c => Some c | None => workdir self end)] ∧
    outcome_of join argv (launches w (spawned w)) r.
Proof.
  intros Hdry Hcwd. unfold run. rewrite Hdry. cbn [andb].
  unfold bind at 1, get.
  set (cwd' := match cwd with Some c => Some c | None => workdir self end) in *.
  assert (match cwd' with
          | Some c => bool_decide (fs w !! c = None)
          | None => false
          end = false) as ->.
  { destruct cwd' as [c|]; [|done]. apply bool_decide_eq_false_2.
    intros E. rewrite E in Hcwd. by destruct Hcwd. }
  unfold try_except, _run, outcome_of, finished, duration, returncode_of.
  destruct (launches w (spawned w)) as [f|p]; cbn.
  - eexists _, _. split; [reflexivity|]. cbn.
    repeat split; [ring|eauto].
  - destruct (bool_decide (exit_status p = 0)) eqn:E.
    + apply bool_decide_eq_true_1 in E as E'. rewrite E'. cbn.
      destruct join; eexists _, _; (split; [reflexivity|]);
        by repeat split.
    + apply bool_decide_eq_false_1 in E as E'.
      rewrite (bool_decide_eq_true_2 (exit_status p ≠ 0)) by done. cbn.
      eexists _, _. split; [reflexivity|]. by repeat split; eauto.
Qed.

(** The guest can be reached and commands are really run on it. *)
Definition ready (s : GS) : Prop :=
  guest s.1 ≠ None ∧ opt_dry (common s.1) = false ∧
  match workdir (common s.1) with
  | Some c => is_Some (fs s.2 !! c)
  | None => True
  end.

(** One [execute] after another: what is preserved and what advances. *)
Record stepped (s s' : GS) : Prop := mkStepped
  { stepped_data : data_of s'.1 = data_of s.1;
    stepped_connected : connected s'.1;
    stepped_spawned : spawned s'.2 = S (spawned s.2);
    stepped_launches : launches s'.2 = launches s.2;
    stepped_fs : fs s'.2 = fs s.2;
    stepped_globals : globals s'.2 = globals s.2;
    stepped_clock :
      (clock s'.2 == clock s.2 + duration (launches s.2 (spawned s.2)))%Q }.

Lemma stepped_ready s s' : ready s → stepped s s' → ready s'.
Proof.
  intros (Hg & Hd & Hw) Hs. destruct Hs as [Hdata _ _ _ Hfs _ _].
  unfold data_of in Hdata. unfold ready.
  injection Hdata as Hc _ _ _ Hgu _ _ _ _ _.
  rewrite Hc, Hgu, Hfs. done.
Qed.

(** [execute] of a command without working directory, environment,
    terminal or timeout, as the guest's own methods call it. *)
Lemma execute_spec (command : Command + ShellScript)
    (fr : option string) (s : GS) :
  ready s →
  ∃ r s' argv evs,
    execute command None None fr false false false None s = (r, s') ∧
    stepped s s' ∧
    events s'.2 = events s.2 ++ evs ++
                  [EvPopen (spawned s.2) argv (workdir (common s.1))] ∧
    forallb is_master evs = true ∧
    (program argv = "ssh" ∨ program argv = "sshpass") ∧
    last argv = Some (remote_command s.1 command None None) ∧
    outcome_of false argv (launches s.2 (spawned s.2)) r.
Proof.
  intros (Hg & Hdry & Hwd). unfold execute.
  unfold bind at 1, get_self.
  rewrite (bool_decide_eq_false_2 _ Hg). cbn [andb]. unfold bind.
  destruct (_ssh_command_spec s)
    as (c & s1 & -> & Hdata & (Hck & Hfs & Hl & Hsp & Hgl) & Hconn
        & (evs & Hev & Hm) & Hprog & _).
  set (argv := _command c ++
                 [_ssh_guest s.1; remote_command s.1 command None None]).
  destruct (run_plain_spec (common s.1) argv
              (Some match fr with
                    | Some f => f
                    | None => match command with
                              | inl c0 => Command_to_element c0
                              | inr script => _script script
                              end
                    end) None false s1.2)
    as (r & w' & Hrun & Hsp' & Hl' & Hfs' & Hgl' & Hck' & Hev' & Hout).
  { done. }
  { rewrite Hfs. exact Hwd. }
  unfold liftW. cbn [world_of pair_InWorld snd]. unfold Command_add.
  cbn [_command]. fold argv. rewrite Hrun. cbn [put_world].
  exists r, (s1.1, w'), argv, evs. cbn [fst snd].
  split; [reflexivity|]. split.
  { split; cbn [fst snd]; congruence. }
  split. { rewrite Hev', Hev, Hsp. by rewrite <- app_assoc. }
  split; [done|]. split.
  { unfold argv. unfold program in *. destruct (_command c); cbn in *; [|done].
    destruct Hprog; discriminate. }
  split.
  { unfold argv. by rewrite last_app. }
  by rewrite Hsp, Hl in Hout.
Qed.

(** The launch is a process that exits with status 0. *)
Definition launch_ok (l : Launch) : bool :=
  match l with
  | Started p => bool_decide (exit_status p = 0)
  | FileNotFound _ => false
  end.

Lemma outcome_of_ok join argv l r :
  outcome_of join argv l r →
  if launch_ok l then ∃ o, r = Ok o ∧ finished join l = Some o
  else ∃ m o e, r = Raise (RunError m argv (returncode_of l) o e).
Proof.
  unfold outcome_of, finished, launch_ok. destruct l as [f|p]; [done|].
  destruct (bool_decide (exit_status p = 0)); eauto.
Qed.

(** Attempts to transfer files: processes whose program is rsync. *)
Definition is_attempt (e : Event) : bool :=
  match e with
  | EvPopen _ argv _ => bool_decide (program argv = "rsync")
  | _ => false
  end.

Definition rsync_attempts (evs : list Event) : nat :=
  length (List.filter is_attempt evs).





(** Several commands later: [k] processes were started, [a] of them
    transfers; nothing but the clock, the events and the connection of
    the guest has changed. *)
Record advanced (k a : nat) (s s' : GS) : Prop := mkAdvanced
  { adv_data : data_of s'.1 = data_of s.1;
    adv_spawned : spawned s'.2 = (k + spawned s.2)%nat;
    adv_launches : launches s'.2 = launches s.2;
    adv_fs : fs s'.2 = fs s.2;
    adv_globals : globals s'.2 = globals s.2;
    adv_events :
      ∃ evs, events s'.2 = events s.2 ++ evs ∧ rsync_attempts evs = a }.

Lemma advanced_refl s : advanced 0 0 s s.
Proof. split; try done. exists []. by rewrite app_nil_r. Qed.




(** The package manager [_check_rsync] settles on, and the command it
    installs rsync with. *)
Definition package_manager (dnf : Launch) : string :=
  if launch_ok dnf then "dnf" else "yum".



(** The two-attempt scheme shared by [push] and [pull]. *)
Definition retry (rsync : M GS unit) (message : string) : M GS unit :=
  try_except rsync is_RunError
    (λ first,
       try_except
         (let! outcome := _check_rsync in
          if bool_decide (outcome = ALREADY_INSTALLED)
          then raise first
          else rsync)
         is_RunError
         (λ error, do! fail message then raise error)).

















(** *** Reboot *)

(** The launch is a [cat /proc/stat] that succeeds and shows boot time
    [b]. *)
Definition reads (b : Z) (l : Launch) : Prop :=
  match l with
  | Started p =>
      exit_status p = 0 ∧
      let text := captured only_out (runtime p) (output p) in
      text ≠ "" ∧ search_btime text = Some b
  | FileNotFound _ => False
  end.


Lemma get_boot_time_spec (s : GS) :
  ready s →
  ∃ r s',
    get_boot_time s = (r, s') ∧ stepped s s' ∧
    (∀ b, reads b (launches s.2 (spawned s.2)) → r = Ok b) ∧
    (launch_ok (launches s.2 (spawned s.2)) = false →
     ∃ m argv rc o e, r = Raise (RunError m argv rc o e)).
Proof.
  intros Hr. unfold get_boot_time.
  destruct (execute_spec (inl (mkCommand ["cat"; "/proc/stat"])) None s Hr)
    as (r & s' & argv & evs & Hex & Hst & _ & _ & _ & _ & Hout).
  unfold bind. rewrite Hex. unfold outcome_of, finished in Hout.
  destruct (launches s.2 (spawned s.2)) as [f|p]; cbn [launch_ok reads].
  - destruct Hout as (m & o & e & ->). eexists _, _.
    split; [reflexivity|]. split; [done|]. split; [done|]. eauto 10.
  - destruct (bool_decide (exit_status p = 0)) eqn:E.
    + subst r. cbn [stdout].
      destruct (captured only_out (runtime p) (output p)) as [|c text] eqn:Ht.
      * eexists _, _. split; [reflexivity|]. split; [done|].
        split; [|done]. by intros b (_ & Hne & _).
      * destruct (search_btime (String c text)) as [b'|] eqn:Hb;
          eexists _, _; (split; [reflexivity|]); (split; [done|]);
          (split; [|done]); intros b (_ & _ & Hs); congruence.
    + destruct Hout as (m & o & e & ->). eexists _, _.
      split; [reflexivity|]. split; [done|]. split; [|eauto 10].
      intros b (Hz & _). apply bool_decide_eq_false_1 in E. done.
Qed.




(** *** The frame of the guest's methods *)

(** What no method of the guest changes besides [pull_options]: the data
    of the guest, the module-level lists, an established connection, and
    the events already recorded. *)
Definition frame (s s' : GS) : Prop :=
  data_of s'.1 = data_of s.1 ∧ globals s'.2 = globals s.2 ∧
  (connected s.1 → s'.1 = s.1) ∧
  ∃ evs, events s'.2 = events s.2 ++ evs.

Definition framed {A} (m : M GS A) : Prop := ∀ s, frame s (m s).2.

Lemma frame_refl s : frame s s.
Proof. repeat split. exists []. by rewrite app_nil_r. Qed.

Lemma frame_trans s s' s'' : frame s s' → frame s' s'' → frame s s''.
Proof.
  intros (Hd & Hg & Hc & evs & He) (Hd' & Hg' & Hc' & evs' & He').
  split; [congruence|]. split; [congruence|]. split.
  - intros Hconn. rewrite Hc', Hc; [done..|]. by rewrite Hc.
  - exists (evs ++ evs'). by rewrite He', He, <- app_assoc.
Qed.

Lemma framed_ret {A} (a : A) : framed (ret a).
Proof. intros s. apply frame_refl. Qed.

Lemma framed_raise {A} e : framed (@raise GS A e).
Proof. intros s. apply frame_refl. Qed.

Lemma framed_bind {A B} (m : M GS A) (k : A → M GS B) :
  framed m → (∀ a, framed (k a)) → framed (bind m k).
Proof.
  intros Hm Hk s. unfold bind. specialize (Hm s).
  destruct (m s) as [[a|e|] s1]; [|done..].
  eapply frame_trans; [exact Hm|apply Hk].
Qed.

Lemma framed_try_except {A} (m : M GS A) sel (h : exn → M GS A) :
  framed m → (∀ e, framed (h e)) → framed (try_except m sel h).
Proof.
  intros Hm Hh s. unfold try_except. specialize (Hm s).
  destruct (m s) as [[a|e|] s1]; [done| |done].
  destruct (sel e); [|done]. eapply frame_trans; [exact Hm|apply Hh].
Qed.

Lemma _run_globals command cwd shell join interactive timeout w :
  globals (_run command cwd shell join interactive timeout w).2 = globals w ∧
  ∃ evs,
    events (_run command cwd shell join interactive timeout w).2
      = events w ++ evs.
Proof.
  unfold _run.
  repeat match goal with
         | |- context [if ?b then _ else _] => destruct b
         | |- context [match ?x with _ => _ end] => destruct x
         end; cbn; (split; [done|]); rewrite <- ?app_assoc; by eexists.
Qed.

Lemma run_globals self command fr cwd dry shell interactive join timeout w :
  globals (run self command fr cwd dry shell interactive join timeout w).2
    = globals w ∧
  ∃ evs,
    events (run self command fr cwd dry shell interactive join timeout w).2
      = events w ++ evs.
Proof.
  unfold run. destruct (opt_dry self && negb dry).
  { split; [done|]. exists []. by rewrite app_nil_r. }
  unfold bind, get.
  destruct (match match cwd with Some c => Some c | None => workdir self end
            with Some c => bool_decide (fs w !! c = None) | None => false end).
  { split; [done|]. exists []. by rewrite app_nil_r. }
  unfold try_except.
  match goal with
  | |- context [_run ?c ?d ?sh ?j ?i ?t w] =>
      pose proof (_run_globals c d sh j i t w) as [Hg He];
      destruct (_run c d sh j i t w) as [[o|e|] w']
  end; [done| |done].
  destruct (is_RunError e); [|done]. by destruct e.
Qed.

Lemma framed_run self command fr cwd dry shell interactive join timeout :
  framed (liftW (run self command fr cwd dry shell interactive join timeout)).
Proof.
  intros s. unfold liftW. cbn [world_of pair_InWorld].
  destruct (run_globals self command fr cwd dry shell interactive join
              timeout s.2) as [Hg He].
  destruct (run _ _ _ _ _ _ _ _ _ s.2) as [r w']. by repeat split.
Qed.

Lemma framed_ssh_command : framed _ssh_command.
Proof.
  intros s.
  destruct (_ssh_command_spec s)
    as (c & s' & -> & Hd & (_ & _ & _ & _ & Hg) & _ & (evs & He & _) & _ & Hc).
  repeat split; [done..| |by exists evs]. intros Hconn. by rewrite Hc.
Qed.

Lemma framed_execute command cwd env fr ts interactive join timeout :
  framed (execute command cwd env fr ts interactive join timeout).
Proof.
  unfold execute. apply framed_bind; [intros s; apply frame_refl|].
  intros self. destruct (_ && _); [apply framed_raise|].
  apply framed_bind; [apply framed_ssh_command|]. intros c.
  apply framed_run.
Qed.

Lemma framed_check_rsync : framed _check_rsync.
Proof.
  unfold _check_rsync.
  repeat first
    [ apply framed_execute
    | apply framed_ret
    | match goal with |- framed (if ?b then _ else _) => destruct b end
    | apply framed_try_except; [|intros ?]
    | apply framed_bind; [|intros ?] ].
Qed.

Lemma framed_get_world : framed get_world.
Proof. intros s. apply frame_refl. Qed.

Lemma framed_get_self : framed get_self.
Proof. intros s. apply frame_refl. Qed.

Lemma framed_push_rsync options source destination :
  framed (push_rsync options source destination).
Proof.
  unfold push_rsync. apply framed_bind; [apply framed_get_world|].
  intros w. destruct (deref options w); [apply framed_raise|].
  repeat first
    [ apply framed_ssh_command | apply framed_get_self
    | apply framed_run | apply framed_ret
    | apply framed_bind; [|intros ?] ].
Qed.

Lemma framed_pull_rsync options source destination :
  framed (pull_rsync options source destination).
Proof.
  unfold pull_rsync. apply framed_bind; [apply framed_get_world|].
  intros w. destruct (deref options w); [apply framed_raise|].
  repeat first
    [ apply framed_ssh_command | apply framed_get_self
    | apply framed_run | apply framed_ret
    | apply framed_bind; [|intros ?] ].
Qed.

Lemma framed_fail message : framed (fail message).
Proof. intros s. repeat split. by eexists. Qed.

Lemma framed_retry rsync message : framed rsync → framed (retry rsync message).
Proof.
  intros Hr. unfold retry.
  apply framed_try_except; [done|]. intros first.
  apply framed_try_except.
  - apply framed_bind; [apply framed_check_rsync|]. intros outcome.
    destruct (bool_decide _); [apply framed_raise|done].
  - intros e. apply framed_bind; [apply framed_fail|].
    intros _. apply framed_raise.
Qed.





End Facts.

(** *** A concrete guest *)

(** Library functions for the examples: quoting and dedenting leave the
    text alone, the socket has a fixed name, and the boot time is read
    from the two status texts the examples use. *)
Definition example_library : Library :=
  mkLibrary (λ text, text) (λ text, text) (λ _, "/tmp/tmt-socket")
    (λ text, if bool_decide (text = "btime 100") then Some 100
             else if bool_decide (text = "btime 200") then Some 200
             else None).

Definition example_guest : GuestSsh :=
  mkGuestSsh (mkCommon None false) (Some "/var/tmp/tmt/run-001/plan") []
             None (Some "10.0.0.5") None (Some "root") [] None [] None None.

Definition exits (status : Z) : Launch := Started (mkProcess 1 status []).

Definition example_world (launches : nat → Launch) : World :=
  mkWorld 0 ∅ launches 0 module_globals [].





(** A guest that never comes back with a new boot time: the status file
    shows boot time 100 before the reboot; the reboot command drops the
    connection; afterwards the guest is in turn unreachable and back with
    the old boot time. *)
Definition shows_100 : Launch :=
  Started (mkProcess 1 0 [(0%Q, Out, "btime 100")]).



(** Every process succeeds. *)
Definition all_well (n : nat) : Launch := exits 0.


(** The list after one such call, and the command of the next call. *)
Example pull_twice :
  let s1 := (@pull example_library None None None
               (Some ["--exclude"; "backup*"])
               (example_guest, example_world all_well)).2 in
  globals s1.2 !! DEFAULT_RSYNC_PULL_OPTIONS
    = Some ["-s"; "-R"; "-r"; "-z"; "--links"; "--safe-links";
            "--protect-args"; "--exclude"; "backup*"] ∧
  last (events (@pull example_library None None None None s1).2.2)
    = Some (EvPopen 1
              ["rsync"; "-s"; "-R"; "-r"; "-z"; "--links"; "--safe-links";
               "--protect-args"; "--exclude"; "backup*"; "-e";
               "ssh -oForwardX11=no -oStrictHostKeyChecking=no "
               +:+ "-oUserKnownHostsFile=/dev/null -oServerAliveInterval=60 "
               +:+ "-oServerAliveCountMax=5 -S/tmp/tmt-socket";
               "root@10.0.0.5:/var/tmp/tmt/run-001/plan"; "/"]
              None).
Proof. vm_compute. split; reflexivity. Qed.

End GuestFacts.


(** ** Guest data round trip *)

Module ContainerFacts.
Import Containers.

(** Field values as the annotations of the guest data classes type them. *)
Definition opt_str (o : option string) : Value :=
  match o with Some s => VStr s | None => VNone end.

Definition opt_int (o : option Z) : Value :=
  match o with Some z => VInt z | None => VNone end.

Definition str_list (l : list string) : Value := VList (map VStr l).

Definition guest_record (role guest : option string) : Dict :=
  [("role", opt_str role); ("guest", opt_str guest)].

Definition ssh_record (role guest : option string) (port : option Z)
    (user : option string) (key : list string) (password : option string)
    (ssh_option : list string) : Dict :=
  guest_record role guest ++
  [("port", opt_int port); ("user", opt_str user); ("key", str_list key);
   ("password", opt_str password); ("ssh_option", str_list ssh_option)].

(** The guest built from the record [fields] of class [cls] survives
    saving and restoring unchanged, and its attributes are the fields of
    the record. *)
Definition round_trips (cls : DataClass) (fields : Dict) : Prop :=
  ∃ data guest restored,
    construct cls fields = Ok data ∧
    Guest_init cls data = Ok guest ∧
    save guest = Ok data ∧
    save_and_restore guest = Ok restored ∧
    restored = guest ∧
    ∀ name, dict restored !! name = dict_get name fields.

(** Looking a name up in the attributes made from a record without
    repeated names is looking it up in the record. *)
Lemma lookup_record (fields : Dict) (m : gmap string Value) :
  m = list_to_map fields → NoDup fields.*1 →
  ∀ name, m !! name = dict_get name fields.
Proof.
  intros -> Hnd name.
  induction fields as [|[k v] fields IH]; [done|].
  cbn. apply NoDup_cons in Hnd as [Hk Hnd].
  destruct (bool_decide (name = k)) eqn:E.
  - apply bool_decide_eq_true_1 in E as ->. by rewrite lookup_insert_eq.
  - apply bool_decide_eq_false_1 in E.
    rewrite lookup_insert_ne by done. by apply IH.
Qed.

(** Both sides evaluate to the same value. *)
Ltac by_vm :=
  match goal with
  | |- _ = ?r => vm_cast_no_check (@eq_refl _ r)
  | |- Is_true _ => vm_cast_no_check I
  end.

(** C8. For every record of guest data, base or SSH, with fields typed as
    the data classes declare them: a guest loaded from the record, saved,
    serialized (with its class tag), unserialized and loaded into a new
    guest gives a guest with the same attributes, and these are the
    fields [role], [guest] and, for SSH guests, [port], [user], [key],
    [password] and [ssh_option] of the record. *)
Theorem guest_round_trip (role guest : option string) (port : option Z)
    (user : option string) (key : list string) (password : option string)
    (ssh_option : list string) :
  round_trips GuestData (guest_record role guest) ∧
  round_trips GuestSshData
    (ssh_record role guest port user key password ssh_option).
Proof.
  split.
  - exists (mkContainer GuestData (list_to_map (guest_record role guest))),
           (mkObject GuestData (list_to_map (guest_record role guest))),
           (mkObject GuestData (list_to_map (guest_record role guest))).
    split; [by_vm|]. split; [by_vm|].
    split; [destruct role, guest; by_vm|].
    split; [destruct role, guest; by_vm|].
    split; [reflexivity|].
    apply lookup_record; [reflexivity|].
    apply (bool_decide_unpack _). by_vm.
  - set (fields := ssh_record role guest port user key password ssh_option).
    exists (mkContainer GuestSshData (list_to_map fields)),
           (mkObject GuestSshData (list_to_map fields)),
           (mkObject GuestSshData (list_to_map fields)).
    subst fields.
    split; [by_vm|]. split; [by_vm|].
    split; [destruct role, guest, port, user, password; by_vm|].
    split; [destruct role, guest, port, user, password; by_vm|].
    split; [reflexivity|].
    apply lookup_record; [reflexivity|].
    apply (bool_decide_unpack _). by_vm.
Qed.

(** The annotation of [key] is a list of strings. A guest whose [key] is
    nevertheless [None] is saved without it, since [extract_from] skips
    values that are [None], and wakes up with the default, the empty
    list. *)
Example key_none_restored_as_empty :
  let fields :=
    [("role", VNone); ("guest", VStr "10.0.0.5"); ("port", VInt 22);
     ("user", VStr "root"); ("key", VNone); ("password", VNone);
     ("ssh_option", VList [])] in
  and_then (construct GuestSshData fields) (λ data,
  and_then (Guest_init GuestSshData data) (λ guest,
  and_then (save_and_restore guest) (λ restored,
  Ok (dict guest !! "key", dict restored !! "key",
      dict restored !! "user"))))
  = Ok (Some VNone, Some (VList []), Some (VStr "root")).
Proof. cbv zeta. by_vm. Qed.

End ContainerFacts.

(** ** The provision step, once done *)

Module StepFacts.
Import Step.










End StepFacts.

(** ** The internal executor: reboot and abort *)

Module ExecuteFacts.
Import Utils Execute.

Section Facts.
Context {G : Type} `{!GuestOps G} `{!Base G} `{!Library}.

Implicit Types (p : Plugin G).

(** The tests that were run, in order. *)
Definition executed (entries : list Entry) : list nat :=
  omap (λ e, match e with DidExecute index => Some index | _ => None end)
       entries.

(** What is observed of the plugin: the collected results and the tests
    that were run. Calls of guest methods and assignments to test objects
    are not seen through it. *)
Definition observed p : list Result * list nat :=
  (_results p, executed (trace p)).

(** Computations that do not change what is observed. *)
Definition keeps {A} (m : M (Plugin G) A) : Prop :=
  ∀ p, observed (m p).2 = observed p.

Lemma keeps_ret {A} (a : A) : keeps (ret a).
Proof. done. Qed.

Lemma keeps_raise {A} e : keeps (@raise (Plugin G) A e).
Proof. done. Qed.

Lemma keeps_get : keeps (@get (Plugin G)).
Proof. done. Qed.

Lemma keeps_lift {A} (r : outcome A) : keeps (lift r).
Proof. done. Qed.

Lemma keeps_bind {A B} (m : M (Plugin G) A) (k : A → M (Plugin G) B) :
  keeps m → (∀ a, keeps (k a)) → keeps (bind m k).
Proof.
  intros Hm Hk p. unfold bind. specialize (Hm p).
  destruct (m p) as [[a|e|] p1]; [|done..]. by rewrite Hk.
Qed.

Lemma keeps_try_except {A} (m : M (Plugin G) A) sel h :
  keeps m → (∀ e, keeps (h e)) → keeps (try_except m sel h).
Proof.
  intros Hm Hh p. unfold try_except. specialize (Hm p).
  destruct (m p) as [[a|e|] p1]; [done| |done].
  destruct (sel e); [|done]. by rewrite Hh.
Qed.

Lemma keeps_on_host {A} (m : M (Host G) A) : keeps (on_host m).
Proof. intros p. unfold on_host. by destruct (m (host p)). Qed.

(** Entries other than the start of a test. *)
Definition quiet (e : Entry) : Prop :=
  match e with DidExecute _ => False | _ => True end.

Lemma keeps_record e : quiet e → keeps (record e).
Proof.
  intros He p. unfold observed, executed. cbn. rewrite omap_app. cbn.
  destruct e; try done; by rewrite app_nil_r.
Qed.

Lemma keeps_update_test index f : keeps (update_test index f).
Proof. done. Qed.

Lemma keeps_write path data append : keeps (write path data append).
Proof. done. Qed.

Lemma keeps_the_test index : keeps (the_test index).
Proof.
  intros p. unfold the_test, bind, get. by destruct (tests p !! index).
Qed.

Lemma keeps_will_reboot t : keeps (_will_reboot t).
Proof. done. Qed.

Lemma keeps_delete_file path :
  keeps (modify (λ p, set_host (set_files (delete path (files (host p)))
                                          (host p)) p)).
Proof. done. Qed.

Ltac keeps :=
  repeat first
    [ apply keeps_ret | apply keeps_raise | apply keeps_get
    | apply keeps_lift | apply keeps_on_host
    | apply keeps_record; exact I
    | apply keeps_update_test | apply keeps_write | apply keeps_the_test
    | apply keeps_will_reboot | apply keeps_delete_file
    | match goal with
      | |- keeps (if ?b then _ else _) => destruct b
      | |- keeps (match ?x with _ => _ end) => destruct x
      end
    | apply keeps_try_except; [|intros ?]
    | apply keeps_bind; [|intros ?] ].

Lemma keeps_handle_reboot index : keeps (_handle_reboot index).
Proof. unfold _handle_reboot. keeps. Qed.

Lemma keeps_check t : keeps (check t).
Proof. unfold check. keeps. Qed.

Lemma bind_ok {A B} (m : M (Plugin G) A) (k : A → M (Plugin G) B) p b p' :
  bind m k p = (Ok b, p') →
  ∃ a p1, m p = (Ok a, p1) ∧ k a p1 = (Ok b, p').
Proof.
  unfold bind. destruct (m p) as [[a|e|] p1]; [eauto|done..].
Qed.

Lemma run_eq {S A} (r : outcome A * S) (a : A) :
  r.1 = Ok a → r = (Ok a, r.2).
Proof. destruct r as [? ?]. cbn. by intros ->. Qed.

Lemma keeps_eq {A} (m : M (Plugin G) A) p r p' :
  keeps m → m p = (r, p') → observed p' = observed p.
Proof. intros Hk Hm. specialize (Hk p). by rewrite Hm in Hk. Qed.

(** A test that [execute] ran to the end is recorded once. *)
Lemma execute_observed opts index env p p1 :
  execute opts index env p = (Ok tt, p1) →
  observed p1 = (_results p, executed (trace p) ++ [index]).
Proof.
  unfold execute. intros Hrun.
  apply bind_ok in Hrun as (t & pa & Ha & Hrun).
  apply (keeps_eq _ _ _ _ (keeps_the_test index)) in Ha.
  apply bind_ok in Hrun as (? & pb & Hb & Hrun).
  apply (keeps_eq _ _ _ _ (keeps_write _ _ _)) in Hb.
  apply bind_ok in Hrun as (? & pc & Hc & Hrun).
  apply (keeps_eq _ _ _ _ (keeps_record (DidPush _) I)) in Hc.
  apply bind_ok in Hrun as (? & pd & Hd & Hrun).
  apply (keeps_eq _ _ _ _ (keeps_on_host _)) in Hd.
  apply bind_ok in Hrun as (? & pe & He & Hrun).
  injection He as _ <-.
  eapply keeps_eq in Hrun; [|keeps].
  assert (observed pd = observed p) as Hobs by congruence.
  rewrite Hrun. unfold observed, executed in *. cbn.
  rewrite omap_app. cbn.
  by injection Hobs as -> ->.
Qed.

Lemma run_test_observed opts index env p results p1 :
  run_test opts index env p = (Ok results, p1) →
  observed p1 = (_results p, executed (trace p) ++ [index]).
Proof.
  unfold run_test. intros Hrun.
  apply bind_ok in Hrun as ([] & pa & Ha & Hrun).
  apply execute_observed in Ha.
  eapply keeps_eq in Hrun; [by rewrite Hrun|].
  keeps.
Qed.

(** What the loop does with the results of one run of a test once reboot
    has been dealt with: abort, collect, exit-first, login, next test. *)
Definition conclude (opts : Options) (fuel : nat) (index : nat)
    (env : option (list (string * string))) (last_result : option Result)
    (results : list Result) : M (Plugin G) unit :=
  let! self := get in
  let! t := the_test index in
  let abort := check_abort_file t (host self) in
  let results :=
    if abort then map (set_note (Some "aborted")) results else results in
  do! modify (λ p, set_results (_results p ++ results) p) then
  let last_result :=
    match last results with Some r => Some r | None => last_result end in
  let! stop :=
    if abort then ret true
    else if exit_first opts then
      match last_result with
      | Some r => ret (negb (bool_decide (result r = PASS) ||
                             bool_decide (result r = INFO)))
      | None => raise (UnboundLocalError "result")
      end
    else ret false in
  if stop : bool then
    do! record (Warned ("Test " +:+ name t +:+ " "
                        +:+ (if abort then "aborted" else "failed")
                        +:+ ", stopping execution.")) then
    ret tt
  else
    do! (if login_after_test opts then
           match last_result with
           | Some r => record (DidLogin r)
           | None => raise (UnboundLocalError "result")
           end
         else ret tt) then
    tests_loop opts fuel (S index) env last_result.

(** One iteration of the loop, after the test has run. *)
Lemma tests_loop_step opts fuel index env last p results p1 t :
  (index < length (tests p))%nat →
  run_test opts index env p = (Ok results, p1) →
  tests p1 !! index = Some t →
  tests_loop opts (S fuel) index env last p =
    if bool_decide (is_Some (files (host p1) !! _reboot_request_path t))
    then
      match _handle_reboot index p1 with
      | (Ok true, p2) => tests_loop opts fuel index env last p2
      | (Ok false, p2) => conclude opts fuel index env last results p2
      | (Raise e, p2) =>
          if is_RebootTimeoutError e
          then conclude opts fuel index env last
                 (map (λ r, set_note (Some "reboot timeout")
                              (set_result ERROR r)) results) p2
          else (Raise e, p2)
      | (OutOfFuel, p2) => (OutOfFuel, p2)
      end
    else conclude opts fuel index env last results p1.
Proof.
  intros Hlt Hrun Ht. cbn [tests_loop]. unfold bind at 1, get.
  apply Nat.ltb_lt in Hlt. rewrite Hlt. cbn [negb].
  unfold bind at 1. rewrite Hrun.
  unfold bind at 1, the_test at 1, bind at 1, get. rewrite Ht.
  unfold ret at 1. unfold bind at 1, _will_reboot, bind at 1, get, ret at 1.
  destruct (bool_decide (is_Some (files (host p1) !! _reboot_request_path t))).
  - unfold bind at 1, try_except, bind at 1.
    destruct (_handle_reboot index p1) as [[[]|e|] p2]; try reflexivity.
    destruct (is_RebootTimeoutError e); reflexivity.
  - reflexivity.
Qed.




(** C10. When a test has run, left a reboot request and the reboot
    succeeded, the results of that run are dropped: the collected results
    are those from before the run, and the loop goes on with the same
    index, so the test is run again. When the second run neither asks for
    a reboot nor aborts, its results are the only ones collected for the
    test and the loop moves on to the next index. *)
Theorem reboot_restarts_test opts fuel index env last p p1 p2 results t :
  (index < length (tests p))%nat →
  run_test opts index env p = (Ok results, p1) →
  tests p1 !! index = Some t →
  is_Some (files (host p1) !! _reboot_request_path t) →
  _handle_reboot index p1 = (Ok true, p2) →
  tests_loop opts (S (S fuel)) index env last p
    = tests_loop opts (S fuel) index env last p2 ∧
  _results p2 = _results p ∧
  executed (trace p2) = executed (trace p) ++ [index] ∧
  ∀ results2 p3 t3,
    (index < length (tests p2))%nat →
    run_test opts index env p2 = (Ok results2, p3) →
    tests p3 !! index = Some t3 →
    files (host p3) !! _reboot_request_path t3 = None →
    check_abort_file t3 (host p3) = false →
    exit_first opts = false → login_after_test opts = false →
    ∃ last' p4,
      tests_loop opts (S (S fuel)) index env last p
        = tests_loop opts fuel (S index) env last' p4 ∧
      _results p4 = _results p ++ results2 ∧
      executed (trace p4) = executed (trace p) ++ [index; index].
Proof.
  intros Hlt Hrun Ht Hsome Hreboot.
  pose proof (run_test_observed _ _ _ _ _ _ Hrun) as Hobs.
  injection Hobs as Hres Hexe.
  pose proof (keeps_eq _ _ _ _ (keeps_handle_reboot index) Hreboot) as Hk.
  injection Hk as Hres2 Hexe2.
  assert (tests_loop opts (S (S fuel)) index env last p
          = tests_loop opts (S fuel) index env last p2) as Hstep.
  { rewrite (tests_loop_step _ _ _ _ _ _ _ _ _ Hlt Hrun Ht).
    rewrite bool_decide_eq_true_2 by done. by rewrite Hreboot. }
  split; [exact Hstep|]. split; [congruence|]. split; [congruence|].
  intros results2 p3 t3 Hlt2 Hrun2 Ht3 Hnone Hnoabort Hexit Hlogin.
  pose proof (run_test_observed _ _ _ _ _ _ Hrun2) as Hobs3.
  injection Hobs3 as Hres3 Hexe3.
  rewrite Hstep, (tests_loop_step _ _ _ _ _ _ _ _ _ Hlt2 Hrun2 Ht3).
  rewrite bool_decide_eq_false_2 by (rewrite Hnone; by intros [? ?]).
  unfold conclude, bind at 1, get.
  unfold bind at 1, the_test at 1, bind at 1, get. rewrite Ht3.
  unfold ret at 1. rewrite Hnoabort, Hexit, Hlogin.
  unfold bind at 1, modify. unfold bind at 1, ret at 1.
  unfold bind at 1, ret at 1.
  eexists _, _. split; [reflexivity|].
  unfold set_results. cbn [_results trace].
  rewrite Hres3, Hexe3, Hres2, Hexe2, Hres, Hexe, <- app_assoc.
  by split.
Qed.

End Facts.

(** *** An example guest *)

(** What one run of the test wrapper does on the example guest: its exit
    code, the reboot request it leaves, and whether it leaves the abort
    file. The guest runs the entries of its script one after the other. *)
Record Run := mkRun
  { exit_code : Z; marker : option string; aborts : bool }.

Definition env_get (key : string) (env : list (string * string)) : string :=
  default "" ((list_to_map env : gmap string string) !! key).

Definition plain_library : Library :=
  mkLibrary (λ text, text) (λ text, text) (λ _, "/tmp/tmt-socket") (λ _, None).

Definition example_ops : GuestOps (list Run) :=
  mkGuestOps (list Run)
    (λ _, false)
    (λ script workdir env interactive timeout h,
       match machine h with
       | [] => (Raise (RunError "Command returned '127'." [script] 127
                                None None), h)
       | r :: rest =>
           let request := env_get "TMT_REBOOT_REQUEST" env in
           let data := env_get "TMT_TEST_DATA" env in
           let files1 :=
             match marker r with
             | Some text => <[request := text]> (files h)
             | None => files h
             end in
           let files2 :=
             if aborts r then <[data +:+ "/abort" := ""]> files1
             else files1 in
           (if bool_decide (exit_code r = 0)
            then Ok (mkCommandOutput (Some "done") None)
            else Raise (RunError "Command returned an error." [script]
                                 (exit_code r) (Some "done") None),
            mkHost files2 rest)
       end)
    (λ _ _ _, ret tt)
    (λ _ _, ret tt)
    (λ _ _ _, ret true).

(** The double quote. *)
Definition dq : string := String (Ascii.ascii_of_nat 34) "".

(** Three reboot requests: an empty object, one with a timeout of 90
    seconds, and one whose timeout is not a number. *)
Definition request_empty : string := "{}".
Definition request_timeout : string :=
  "{" +:+ dq +:+ "timeout" +:+ dq +:+ ": " +:+ dq +:+ "90" +:+ dq +:+ "}".
Definition request_malformed : string :=
  "{" +:+ dq +:+ "timeout" +:+ dq +:+ ": " +:+ dq +:+ "soon" +:+ dq +:+ "}".

Definition example_base : Base (list Run) :=
  mkBase (list Run)
    (λ t, "/run/execute/data" +:+ name t)
    "data" "reboot-request" "output.txt" "metadata.yaml"
    ["TMT_REBOOT_COUNT"; "REBOOTCOUNT"; "RSTRNT_REBOOTCOUNT"]
    "/usr/local/bin/tmt-file-submit"
    (λ _, "/run/discover/tests")
    (λ _, "00:00:01")
    (λ _, Ok 300)
    "/run/data"
    (λ _ _, Ok [])
    (λ _ _, Ok [])
    (λ _ _, Raise (FileError "No result file."))
    (λ t _, Ok [mkResult (name t)
                  (if bool_decide (returncode t = Some 0) then PASS else FAIL)
                  None (real_duration t)])
    (λ t h, bool_decide (is_Some (files h !!
              ("/run/execute/data" +:+ name t +:+ "/data/abort"))))
    (λ text,
       if bool_decide (text = request_empty) then Ok (JObj [])
       else if bool_decide (text = request_timeout)
       then Ok (JObj [("timeout", JStr "90")])
       else if bool_decide (text = request_malformed)
       then Ok (JObj [("timeout", JStr "soon")])
       else Raise (ValueError "Expecting value"))
    (λ text, if bool_decide (text = "90") then Some 90 else None).

#[local] Existing Instance plain_library.
#[local] Existing Instance example_ops.
#[local] Existing Instance example_base.

Definition first_test : Test :=
  mkTest "/first" "shell" "./first.sh" "5m" "respect" [] 0 None None.
Definition second_test : Test :=
  mkTest "/second" "shell" "./second.sh" "5m" "respect" [] 0 None None.

Definition plain_options : Options := mkOptions false false false.

(** A plugin about to run the two tests on a guest with the given
    script. *)
Definition ready (script : list Run) : Plugin (list Run) :=
  mkPlugin (mkHost ∅ script) [first_test; second_test] [] [].

Definition is_reboot (e : Entry) : bool :=
  match e with DidReboot _ _ _ => true | _ => false end.

(** C2, at the reboot request [{}]: the first test passes and leaves a
    request without [command] and [timeout]. The reboot counter of the test
    goes from 0 to 1, but [int(None)] raises [TypeError], which the handler
    of [ValueError] does not catch: the error leaves [_run_tests], the
    request is not removed, the guest is not rebooted, and no result is
    collected. *)
Theorem reboot_request_without_timeout :
  let p := ready [mkRun 0 (Some request_empty) false; mkRun 0 None false] in
  let r := tests_loop plain_options 3 0 None None p in
  json_loads request_empty = Ok (JObj []) ∧
  (∃ message, r.1 = Raise (TypeError message)) ∧
  List.filter is_reboot (trace r.2) = [] ∧
  executed (trace r.2) = [0%nat] ∧
  _reboot_count <$> tests r.2 !! 0%nat = Some 1 ∧
  files (host r.2) !! _reboot_request_path first_test = Some request_empty ∧
  _results r.2 = [].
Proof. vm_compute. repeat split. by eexists. Qed.

(** A timeout that is not a number is ignored, as the handler of
    [ValueError] intends: the guest is rebooted with neither a command nor
    a timeout, the request is removed and the test is run again. *)
Example reboot_request_malformed_timeout :
  let p := ready [mkRun 0 (Some request_malformed) false; mkRun 0 None false;
                  mkRun 0 None false] in
  let r := tests_loop plain_options 4 0 None None p in
  r.1 = Ok tt ∧
  List.filter is_reboot (trace r.2) = [DidReboot false None None] ∧
  executed (trace r.2) = [0; 0; 1]%nat ∧
  _reboot_count <$> tests r.2 !! 0%nat = Some 1 ∧
  files (host r.2) !! _reboot_request_path first_test = None ∧
  result <$> _results r.2 = [PASS; PASS].
Proof. vm_compute. by repeat split. Qed.


(** The first run of the first test fails and asks for a reboot; the
    second run passes. *)
Definition rebooting : Plugin (list Run) :=
  ready [mkRun 1 (Some request_timeout) false; mkRun 0 None false].

(** The first test after a run with the given exit code. *)
Definition ran (code : Z) (t : Test) : Test :=
  set_real_duration (Some "00:00:01") (set_returncode (Some code) t).


Lemma reboot_restarts_test_witness :
  ∃ last' p4,
    tests_loop plain_options 3 0 None None rebooting
      = tests_loop plain_options 1 1 None last' p4 ∧
    _results p4 = [mkResult "/first" PASS None (Some "00:00:01")] ∧
    executed (trace p4) = [0; 0]%nat.
Proof.
  pose (p1 := (run_test plain_options 0 None rebooting).2).
  pose (p2 := (_handle_reboot 0 p1).2).
  destruct (reboot_restarts_test plain_options 1 0 None None rebooting
              p1 p2 [mkResult "/first" FAIL None (Some "00:00:01")]
              (ran 1 first_test))
    as (_ & _ & _ & H).
  - cbn. lia.
  - apply (run_eq (run_test plain_options 0 None rebooting)).
    vm_compute. reflexivity.
  - vm_compute. reflexivity.
  - vm_compute. by eexists.
  - apply (run_eq (_handle_reboot 0 p1)). vm_compute. reflexivity.
  - destruct (H [mkResult "/first" PASS None (Some "00:00:01")]
                (run_test plain_options 0 None p2).2
                (ran 0 (set_reboot_count 1 (ran 1 first_test))))
      as (last' & p4 & Hloop & Hres & Hexe).
    + vm_compute. lia.
    + apply (run_eq (run_test plain_options 0 None p2)).
      vm_compute. reflexivity.
    + vm_compute. reflexivity.
    + vm_compute. reflexivity.
    + vm_compute. reflexivity.
    + reflexivity.
    + reflexivity.
    + exists last', p4. split; [exact Hloop|].
      split; [refine (eq_trans Hres _)|refine (eq_trans Hexe _)];
        vm_compute; reflexivity.
Defined.

End ExecuteFacts.

(** ** More on the SSH guest *)

Module GuestMoreFacts.
Import Utils Provision Guests GuestFacts.

Section Facts.
Context `{Library}.

(** On a guest whose connection is established, [execute] records the
    process it starts and nothing else. *)
Lemma execute_connected (command : Command + ShellScript)
    (fr : option string) (s : GS) :
  ready s → connected s.1 →
  ∃ r w' argv,
    execute command None None fr false false false None s = (r, (s.1, w')) ∧
    stepped s (s.1, w') ∧
    events w' = events s.2 ++
                [EvPopen (spawned s.2) argv (workdir (common s.1))] ∧
    last argv = Some (remote_command s.1 command None None) ∧
    outcome_of false argv (launches s.2 (spawned s.2)) r.
Proof.
  intros (Hg & Hdry & Hwd) Hconn. unfold execute.
  unfold bind at 1, get_self.
  rewrite (bool_decide_eq_false_2 _ Hg). cbn [andb]. unfold bind.
  destruct (_ssh_command_spec s) as (c & s1 & -> & _ & _ & _ & _ & _ & Hs).
  rewrite (Hs Hconn).
  set (argv := _command c ++
                 [_ssh_guest s.1; remote_command s.1 command None None]).
  destruct (run_plain_spec (common s.1) argv
              (Some match fr with
                    | Some f => f
                    | None => match command with
                              | inl c0 => Command_to_element c0
                              | inr script => _script script
                              end
                    end) None false s.2)
    as (r & w' & Hrun & Hsp' & Hl' & Hfs' & Hgl' & Hck' & Hev' & Hout);
    [done..|].
  unfold liftW. cbn [world_of pair_InWorld snd]. unfold Command_add.
  cbn [_command]. fold argv. rewrite Hrun. cbn [put_world pair_InWorld fst].
  exists r, w', argv. split; [reflexivity|]. split.
  { by split. }
  split; [done|]. split; [|done]. unfold argv. by rewrite last_app.
Qed.

(** The events of [_ssh_command]: the master connection is recorded when
    there is none yet, and nothing otherwise. *)
Lemma ssh_command_events (s : GS) :
  ∃ evs, events (_ssh_command s).2.2 = events s.2 ++ evs ∧
         forallb is_master evs = true ∧
         length evs = match _ssh_master_process s.1 with Some _ => 0%nat | None => 1%nat end.
Proof.
  destruct s as [g w]. destruct g as [cm pw pe r gu po us ke pa so ma sk].
  unfold _ssh_command, _ssh_master_connection, _ssh_options, _ssh_socket.
  destruct ma as [m|], sk as [k|]; cbn.
  all: first [by exists []; rewrite app_nil_r | by eexists [_]].
Qed.

(** The events of one [execute] on a reachable guest. *)
Lemma execute_events (command : Command + ShellScript) (fr : option string)
    (s : GS) :
  ready s →
  ∃ evs argv,
    events (execute command None None fr false false false None s).2.2
      = events s.2 ++ evs ++
        [EvPopen (spawned s.2) argv (workdir (common s.1))] ∧
    forallb is_master evs = true ∧
    length evs = match _ssh_master_process s.1 with Some _ => 0%nat | None => 1%nat end ∧
    last argv = Some (remote_command s.1 command None None).
Proof.
  intros (Hg & Hdry & Hwd).
  destruct (ssh_command_events s) as (evs & He & Hm & Hlen).
  unfold execute, bind at 1, get_self.
  rewrite (bool_decide_eq_false_2 _ Hg). cbn [andb]. unfold bind.
  destruct (_ssh_command_spec s)
    as (c & s1 & Hssh & _ & (_ & Hfs & _ & Hsp & _) & _ & _ & _ & _).
  rewrite Hssh in He |- *. cbn [snd] in He.
  set (argv := _command c ++
                 [_ssh_guest s.1; remote_command s.1 command None None]).
  destruct (run_plain_spec (common s.1) argv
              (Some match fr with
                    | Some f => f
                    | None => match command with
                              | inl c0 => Command_to_element c0
                              | inr script => _script script
                              end
                    end) None false s1.2)
    as (r & w' & Hrun & _ & _ & _ & _ & _ & Hev' & _).
  { done. }
  { rewrite Hfs. exact Hwd. }
  unfold liftW. cbn [world_of pair_InWorld snd]. unfold Command_add.
  cbn [_command]. fold argv. rewrite Hrun. cbn [put_world pair_InWorld snd].
  exists evs, argv. rewrite Hev', He, Hsp, <- app_assoc.
  split; [done|]. split; [done|]. split; [done|].
  unfold argv. by rewrite last_app.
Qed.

(** X1. The master connection is started at most once. *)
Theorem master_started_once (c1 c2 : Command + ShellScript)
    (fr1 fr2 : option string) (s : GS) :
  ready s →
  let s1 := (execute c1 None None fr1 false false false None s).2 in
  let s2 := (execute c2 None None fr2 false false false None s1).2 in
  ∃ evs argv1 argv2,
    events s2.2 = events s.2 ++ evs ++
      [EvPopen (spawned s.2) argv1 (workdir (common s.1));
       EvPopen (S (spawned s.2)) argv2 (workdir (common s.1))] ∧
    forallb is_master evs = true ∧
    length evs = match _ssh_master_process s.1 with Some _ => 0%nat | None => 1%nat end ∧
    is_Some (_ssh_master_process s1.1) ∧
    _ssh_master_process s2.1 = _ssh_master_process s1.1 ∧
    last argv1 = Some (remote_command s.1 c1 None None) ∧
    last argv2 = Some (remote_command s.1 c2 None None).
Proof.
  intros Hr. cbn zeta.
  destruct (execute_events c1 fr1 s Hr) as (evs & argv1 & Hev & Hm & Hlen & Hl1).
  destruct (execute_spec c1 fr1 s Hr)
    as (r1 & s1 & _ & _ & Hex & Hst & _).
  rewrite Hex in Hev |- *. cbn [snd] in Hev |- *.
  pose proof (stepped_ready _ _ Hr Hst) as Hr1.
  pose proof (stepped_connected _ _ Hst) as Hconn.
  destruct (execute_connected c2 fr2 s1 Hr1 Hconn)
    as (r2 & w2 & argv2 & Hex2 & Hst2 & Hev2 & Hlast2 & _).
  rewrite Hex2. cbn [snd fst].
  assert (common s1.1 = common s.1 ∧ remote_command s1.1 c2 None None
          = remote_command s.1 c2 None None) as [Hc Hrc].
  { pose proof (stepped_data _ _ Hst) as Hd. unfold data_of in Hd.
    injection Hd as Hc Hpw Hpe _ _ _ _ _ _ _.
    split; [done|]. unfold remote_command, _prepare_environment.
    by rewrite Hpe. }
  exists evs, argv1, argv2.
  split.
  { rewrite Hev2, Hev, (stepped_spawned _ _ Hst), Hc, <- !app_assoc.
    reflexivity. }
  split; [done|]. split; [done|].
  split; [apply Hconn|]. split; [done|]. split; [done|]. by rewrite <- Hrc.
Qed.

(** X2. [push] never touches the module-level option lists or the data of
    the guest, whatever its arguments and outcome. *)
Theorem push_keeps_module_defaults (source destination : option Path)
    (options : option (list string)) (s : GS) :
  let s' := (push source destination options s).2 in
  globals s'.2 = globals s.2 ∧ data_of s'.1 = data_of s.1 ∧
  (connected s.1 → s'.1 = s.1) ∧
  ∃ evs, events s'.2 = events s.2 ++ evs.
Proof.
  cbn zeta.
  assert (framed (push source destination options)) as Hf.
  { unfold push. apply framed_bind; [apply framed_get_self|]. intros self.
    destruct (_ && _); [apply framed_raise|].
    apply framed_bind.
    { destruct source; [apply framed_ret|].
      destruct (plan_workdir self); [apply framed_ret|apply framed_raise]. }
    intros src. apply (framed_retry (push_rsync _ _ _)).
    apply framed_push_rsync. }
  destruct (Hf s) as (Hd & Hg & Hc & He). done.
Qed.

(** X3. [pull] leaves the module-level option lists alone when no
    extension is given, and also when the caller brings a list of its own:
    the extension then goes to the caller's list. *)
Theorem pull_keeps_module_defaults (source destination : option Path)
    (options extend_options : option (list string)) (s : GS) :
  extend_options = None ∨ (∃ o os, options = Some (o :: os)) →
  let s' := (pull source destination options extend_options s).2 in
  globals s'.2 = globals s.2 ∧ data_of s'.1 = data_of s.1 ∧
  (connected s.1 → s'.1 = s.1) ∧
  ∃ evs, events s'.2 = events s.2 ++ evs.
Proof.
  intros Hopt. cbn zeta.
  assert (framed (pull source destination options extend_options)) as Hf.
  { unfold pull. apply framed_bind; [apply framed_get_self|]. intros self.
    destruct (_ && _); [apply framed_raise|].
    apply framed_bind.
    { unfold pull_options. destruct Hopt as [->|(o & os & ->)].
      - apply framed_ret.
      - destruct extend_options; apply framed_ret. }
    intros ref. apply framed_bind.
    { destruct source; [apply framed_ret|].
      destruct (plan_workdir self); [apply framed_ret|apply framed_raise]. }
    intros src. apply (framed_retry (pull_rsync _ _ _)).
    apply framed_pull_rsync. }
  destruct (Hf s) as (Hd & Hg & Hc & He). done.
Qed.


(** The number of seconds [reboot] and [reconnect] wait: an absent or
    zero timeout means the connection timeout. *)
Definition effective_timeout (timeout : option Z) : Z :=
  match timeout with
  | Some t => if bool_decide (t = 0) then CONNECTION_TIMEOUT else t
  | None => CONNECTION_TIMEOUT
  end.

(** A check that succeeds at once, within the time allowed, ends the
    wait. *)
Lemma wait_first_check {T} (check : M GS T) timeout tick ti fuel
    (s s1 : GS) (v : T) :
  (0 < tick)%Q → (0 <= timeout)%Q →
  check s = (Ok v, s1) → (clock s1.2 <= clock s.2 + timeout)%Q →
  wait (S fuel) check timeout tick ti s = (Ok v, s1).
Proof.
  intros Htick Hto Hcheck Hclock.
  rewrite WaitFacts.wait_unfold by done. rewrite WaitFacts.wait_loop_S.
  unfold NOW. cbn [world_of pair_InWorld].
  assert (Qltb (clock s.2 + timeout) (clock s.2) = false) as ->.
  { apply Qltb_ge. lra. }
  rewrite Hcheck.
  assert (Qltb (clock s.2 + timeout) (clock s1.2) = false) as ->.
  { apply Qltb_ge. lra. }
  reflexivity.
Qed.

(** X5. A soft reboot after which the first poll reaches the guest and reads
    a new boot time returns [True], after three commands: the boot time,
    the reboot command, the poll. *)
Theorem reboot_comes_back (command : option (Command + ShellScript))
    (timeout : option Z) (tick tick_increase : Q) (b b' : Z) (s : GS) :
  ready s → (0 < tick)%Q →
  let l i := launches s.2 (i + spawned s.2)%nat in
  reads b (l 0%nat) →
  launch_ok (l 1%nat) = true ∨ returncode_of (l 1%nat) = 255 →
  reads b' (l 2%nat) → b' ≠ b →
  (0 <= duration (l 2%nat))%Q →
  (duration (l 2%nat) <= inject_Z (effective_timeout timeout))%Q →
  ∀ fuel, ∃ s',
    reboot (S fuel) false command timeout tick tick_increase s = (Ok true, s') ∧
    spawned s'.2 = (3 + spawned s.2)%nat.
Proof.
  intros Hr Htick l Hread Hcmd Hnew Hne Hd0 Hd1 fuel. unfold reboot.
  destruct (get_boot_time_spec s Hr) as (r0 & s1 & Hg0 & Hst1 & Hok & _).
  rewrite (Hok b Hread) in Hg0.
  pose proof (stepped_ready _ _ Hr Hst1) as Hr1.
  destruct (execute_spec (default (inl (mkCommand ["reboot"])) command)
              None s1 Hr1)
    as (r1 & s2 & argv & evs & Hex & Hst2 & _ & _ & _ & _ & Hout).
  pose proof (stepped_ready _ _ Hr1 Hst2) as Hr2.
  assert (launches s1.2 (spawned s1.2) = l 1%nat) as E1.
  { destruct Hst1 as [_ _ -> -> _ _ _]. reflexivity. }
  assert (launches s2.2 (spawned s2.2) = l 2%nat) as E2.
  { destruct Hst1 as [_ _ Hs1 Hl1 _ _ _]. destruct Hst2 as [_ _ -> -> _ _ _].
    rewrite Hs1, Hl1. reflexivity. }
  rewrite E1 in Hout. apply outcome_of_ok in Hout.
  destruct (get_boot_time_spec s2 Hr2) as (r2 & s3 & Hg2 & Hst3 & Hok2 & _).
  rewrite E2 in Hok2. rewrite (Hok2 b' Hnew) in Hg2.
  assert (check_boot_time b s2 = (Ok tt, s3)) as Hcheck.
  { unfold check_boot_time, try_except, bind. rewrite Hg2.
    by rewrite bool_decide_eq_true_2. }
  assert (wait (S fuel) (check_boot_time b)
            (inject_Z (effective_timeout timeout)) tick tick_increase s2
          = (Ok tt, s3)) as Hwait.
  { apply wait_first_check; [done|lra|done|].
    pose proof (stepped_clock _ _ Hst3) as Hck. rewrite E2 in Hck. lra. }
  assert ((∃ o, r1 = Ok o) ∨
          (∃ m o e, r1 = Raise (RunError m argv 255 o e))) as Hr1'.
  { destruct Hcmd as [Hc|Hc].
    - rewrite Hc in Hout. destruct Hout as (o & -> & _). eauto.
    - destruct (launch_ok (l 1%nat)).
      + destruct Hout as (o & -> & _). eauto.
      + destruct Hout as (m & o & e & ->). rewrite Hc. eauto 10. }
  exists s3. split.
  - unfold bind at 1. rewrite Hg0.
    unfold bind at 1, try_except at 1, bind at 1. rewrite Hex.
    fold (effective_timeout timeout).
    destruct Hr1' as [(o & ->)|(m & o & e & ->)]; cbn [is_RunError];
      rewrite ?bool_decide_eq_true_2 by done; unfold ret at 1;
      unfold try_except, bind; rewrite Hwait; reflexivity.
  - rewrite (stepped_spawned _ _ Hst3), (stepped_spawned _ _ Hst2),
      (stepped_spawned _ _ Hst1). reflexivity.
Qed.

(** One connection attempt of [reconnect]. *)
Lemma try_whoami_spec (s : GS) :
  ready s →
  ∃ s', stepped s s' ∧
        try_whoami s =
          (if launch_ok (launches s.2 (spawned s.2))
           then Ok tt else Raise WaitingIncomplete, s').
Proof.
  intros Hr. unfold try_whoami, try_except, bind.
  destruct (execute_spec (inl (mkCommand ["whoami"])) None s Hr)
    as (r & s' & argv & evs & -> & Hst & _ & _ & _ & _ & Hout).
  apply outcome_of_ok in Hout. exists s'. split; [done|].
  destruct (launch_ok _).
  - by destruct Hout as (o & -> & _).
  - by destruct Hout as (m & o & e & ->).
Qed.

(** X6. [reconnect] returns [True] after a single command when the guest
    answers the first [whoami] within the timeout. *)
Theorem reconnect_answers (timeout : option Z) (tick tick_increase : Q)
    (s : GS) :
  ready s → (0 < tick)%Q →
  let l := launches s.2 (spawned s.2) in
  launch_ok l = true → (0 <= duration l)%Q →
  (duration l <= inject_Z (effective_timeout timeout))%Q →
  ∀ fuel, ∃ s',
    reconnect (S fuel) timeout tick tick_increase s = (Ok true, s') ∧
    spawned s'.2 = S (spawned s.2).
Proof.
  intros Hr Htick l Hok Hd0 Hd1 fuel.
  destruct (try_whoami_spec s Hr) as (s' & Hst & Htry).
  fold l in Htry. rewrite Hok in Htry.
  exists s'. split; [|apply (stepped_spawned _ _ Hst)].
  unfold reconnect. fold (effective_timeout timeout).
  unfold try_except, bind.
  rewrite (wait_first_check try_whoami _ tick tick_increase fuel s s' tt);
    [done|done|lra|done|].
  pose proof (stepped_clock _ _ Hst) as Hck. fold l in Hck. lra.
Qed.


End Facts.


(** *** On the concrete guest *)

(** The guest shows boot time 100, drops the connection on [reboot], and
    shows boot time 200 afterwards. *)
Definition comes_back (n : nat) : Launch :=
  match n with
  | 0%nat => shows_100
  | 1%nat => exits 255
  | _ => Started (mkProcess 1 0 [(0%Q, Out, "btime 200")])
  end.


Lemma master_started_once_witness :
  let s := (example_guest, example_world all_well) in
  let s1 := (@execute example_library (inl (mkCommand ["true"])) None None
               None false false false None s).2 in
  let s2 := (@execute example_library (inl (mkCommand ["false"])) None None
               None false false false None s1).2 in
  ∃ evs argv1 argv2,
    events s2.2 = events s.2 ++ evs ++
      [EvPopen (spawned s.2) argv1 (workdir (common s.1));
       EvPopen (S (spawned s.2)) argv2 (workdir (common s.1))] ∧
    forallb is_master evs = true ∧
    length evs = match _ssh_master_process s.1 with
                 | Some _ => 0%nat
                 | None => 1%nat
                 end ∧
    is_Some (_ssh_master_process s1.1) ∧
    _ssh_master_process s2.1 = _ssh_master_process s1.1 ∧
    last argv1
      = Some (@remote_command example_library s.1 (inl (mkCommand ["true"]))
                None None) ∧
    last argv2
      = Some (@remote_command example_library s.1 (inl (mkCommand ["false"]))
                None None).
Proof.
  apply (@master_started_once example_library).
  repeat split. discriminate.
Defined.

Lemma pull_keeps_module_defaults_witness :
  let s := (example_guest, example_world all_well) in
  let s' := (@pull example_library None None (Some ["-a"])
               (Some ["--exclude"; "backup*"]) s).2 in
  globals s'.2 = globals s.2 ∧ data_of s'.1 = data_of s.1 ∧
  (connected s.1 → s'.1 = s.1) ∧
  ∃ evs, events s'.2 = events s.2 ++ evs.
Proof.
  apply (@pull_keeps_module_defaults example_library).
  right. by eexists _, _.
Defined.


Lemma reboot_comes_back_witness :
  ∃ s',
    @reboot example_library 1 false None None 30 1
      (example_guest, example_world comes_back) = (Ok true, s') ∧
    spawned s'.2 = 3%nat.
Proof.
  apply (@reboot_comes_back example_library None None 30 1 100 200
           (example_guest, example_world comes_back)).
  - repeat split. discriminate.
  - reflexivity.
  - repeat split. discriminate.
  - by right.
  - repeat split. discriminate.
  - discriminate.
  - discriminate.
  - discriminate.
Defined.

Lemma reconnect_answers_witness :
  ∃ s',
    @reconnect example_library 1 (Some 60) 5 1
      (example_guest, example_world all_well) = (Ok true, s') ∧
    spawned s'.2 = 1%nat.
Proof.
  apply (@reconnect_answers example_library (Some 60) 5 1
           (example_guest, example_world all_well)).
  - repeat split. discriminate.
  - reflexivity.
  - reflexivity.
  - discriminate.
  - discriminate.
Defined.


End GuestMoreFacts.

(** ** More on the provision step *)

Module StepMoreFacts.
Import Step StepFacts.

(** A phase whose [go()] returns, and whose guest shows its details. *)
Definition healthy (phase : Phase) : Prop :=
  go_raises phase = None ∧
  ∀ guest, phase_guest phase = Some guest → details_raises guest = None.

(** The guest the [finally] clause keeps for a phase. *)
Definition kept (dry : bool) (phase : Phase) : list Guest :=
  match phase_class phase, phase_guest phase with
  | ProvisionPlugin, Some guest =>
      if is_ready guest || dry then [guest] else []
  | _, _ => []
  end.

Definition is_save (c : Call) : bool :=
  match c with CallSave _ => true | _ => false end.
Definition is_fail (c : Call) : bool :=
  match c with CallFail _ => true | _ => false end.

(** The step with more guests and more calls. *)
Definition grown (guests : list Guest) (cs : list Call) (p : Provision)
    : Provision :=
  mkProvision (status p) (phases p) (_guests p ++ guests) (is_multihost p)
              (dry p) (calls p ++ cs).

Lemma grown_grown g1 c1 g2 c2 p :
  grown g2 c2 (grown g1 c1 p) = grown (g1 ++ g2) (c1 ++ c2) p.
Proof. unfold grown. cbn. by rewrite !app_assoc. Qed.

Lemma grown_nil p : grown [] [] p = p.
Proof. destruct p. unfold grown. cbn. by rewrite !app_nil_r. Qed.

(** What a sequence of calls shows of the phases that ran. *)
Definition went (cs : list Call) : list string :=
  omap (λ c, match c with CallPhaseGo name => Some name | _ => None end) cs.

Definition quiet (cs : list Call) : Prop :=
  List.filter is_save cs = [] ∧ List.filter is_fail cs = [].

Lemma provision_phase_ok (phase : Phase) (p : Provision) :
  healthy phase → phase_class phase ≠ OtherPhase →
  ∃ cs, provision_phase phase p
          = (Ok tt, grown (kept (dry p) phase) cs p) ∧
        went cs = [phase_name phase] ∧ quiet cs.
Proof.
  intros [Hgo Hdet] Hcls. destruct phase as [cls name gr pg].
  cbn in Hgo, Hdet, Hcls. subst gr. destruct p as [st ph gs mh dr cs0].
  destruct cls; [| |done].
  - destruct mh, pg; eexists;
      (split; [cbv -[app]; rewrite ?(app_nil_r gs), <- ?app_assoc; reflexivity
              |done]).
  - destruct pg as [[gn rd de]|].
    + specialize (Hdet _ eq_refl). cbn in Hdet. subst de.
      destruct mh, rd, dr; eexists;
        (split; [cbv -[app]; rewrite ?(app_nil_r gs), <- ?app_assoc; reflexivity
                |done]).
    + destruct mh; eexists;
        (split; [cbv -[app]; rewrite ?(app_nil_r gs), <- ?app_assoc; reflexivity
                |done]).
Qed.

Lemma provision_phases_ok (todo : list Phase) (p : Provision) :
  Forall healthy todo → Forall (λ phase, phase_class phase ≠ OtherPhase) todo →
  ∃ cs, provision_phases todo p
          = (Ok tt, grown (concat (map (kept (dry p)) todo)) cs p) ∧
        went cs = map phase_name todo ∧ quiet cs.
Proof.
  revert p. induction todo as [|phase todo IH]; intros p Hh Hc.
  { exists []. cbn. by rewrite grown_nil. }
  apply Forall_cons in Hh as [Hh Hhs]. apply Forall_cons in Hc as [Hc Hcs].
  destruct (provision_phase_ok phase p Hh Hc) as (cs1 & Hrun & Hw1 & Hq1 & Hq1').
  destruct (IH (grown (kept (dry p) phase) cs1 p) Hhs Hcs)
    as (cs2 & Hrest & Hw2 & Hq2 & Hq2').
  exists (cs1 ++ cs2). cbn [provision_phases]. unfold bind. rewrite Hrun, Hrest.
  rewrite grown_grown. cbn [dry grown concat map]. split; [done|].
  unfold went, quiet in *. rewrite omap_app, !List.filter_app.
  rewrite Hw1, Hw2, Hq1, Hq1', Hq2, Hq2'. done.
Qed.

Lemma phases_of_classes_run (self : Provision) :
  Forall (λ phase, phase_class phase ≠ OtherPhase) (phases_of_classes self).
Proof.
  apply Forall_forall. intros phase Hin. unfold phases_of_classes in Hin.
  apply list_elem_of_In, List.filter_In in Hin as [_ Hcls].
  intros E. rewrite E in Hcls. done.
Qed.

(** The guests the step ends up with: those of the provisioning phases
    that are ready (all of them in dry mode), in the order of the
    phases. *)
Definition provisioned (self : Provision) : list Guest :=
  concat (map (kept (dry self)) (phases_of_classes self)).

(** X8. A step that is not done and whose phases all succeed: [go()] runs
    [go()] of every action and provisioning phase once, in order, ends
    with the guests of the provisioning phases that are ready, sets the
    status to 'done', and finishes with the summary and exactly one
    save. *)
Theorem go_provisions (self : Provision) :
  status self ≠ Some "done" →
  Forall healthy (phases_of_classes self) →
  let after := (go self).2 in
  (go self).1 = Ok tt ∧
  status after = Some "done" ∧
  _guests after = provisioned self ∧
  phases after = phases self ∧
  ∃ cs,
    calls after = calls self ++ [CallStepGo] ++ cs ++
      [CallSummary (map guest_name (provisioned self));
       CallSave (map guest_name (provisioned self))] ∧
    went cs = map phase_name (phases_of_classes self) ∧ quiet cs.
Proof.
  intros Htodo Hh. cbn zeta.
  set (p0 := mkProvision (status self) (phases self) []
               (1 <? length (List.filter
                    (λ phase, bool_decide (phase_class phase = ProvisionPlugin))
                    (phases self)))%nat
               (dry self) (calls self ++ [CallStepGo])).
  destruct (provision_phases_ok (phases_of_classes self) p0 Hh
              (phases_of_classes_run self)) as (cs & Hrun & Hw & Hq).
  assert (go self = (Ok tt,
            mkProvision (Some "done") (phases self) (provisioned self)
              (is_multihost p0) (dry self)
              (calls self ++ [CallStepGo] ++ cs ++
               [CallSummary (map guest_name (provisioned self));
                CallSave (map guest_name (provisioned self))]))) as ->.
  { unfold go, bind at 1, call at 1, modify. unfold bind at 1, get.
    cbn [status]. rewrite bool_decide_eq_false_2 by done.
    unfold bind at 1, modify. unfold bind at 1.
    change (phases_of_classes _) with (phases_of_classes self).
    unfold bind at 1.
    match goal with
    | |- context [provision_phases _ ?st] => change st with p0
    end.
    rewrite Hrun.
    cbv -[app provisioned phases_of_classes List.filter length Nat.ltb kept concat map].
    rewrite <- !app_assoc. reflexivity. }
  cbn. repeat split. exists cs. done.
Qed.

(** The handler of [go] reports run and provision errors. *)
Definition reported_error (e : exn) : list Call :=
  if is_RunError e || is_ProvisionError e then [CallFail (str_exn e)] else [].

(** Errors after which the step is not saved. *)
Definition skips_save (e : exn) : bool :=
  match e with SystemExit | SpecificationError _ => true | _ => false end.

Lemma provision_phase_fails (phase : Phase) (e : exn) (p : Provision) :
  go_raises phase = Some e → phase_class phase ≠ OtherPhase →
  ∃ cs, provision_phase phase p
          = (Raise e, grown (kept (dry p) phase) cs p) ∧
        went cs = [phase_name phase] ∧
        List.filter is_fail cs = reported_error e ∧
        List.filter is_save cs = [].
Proof.
  intros Hgo Hcls. destruct phase as [cls name gr pg].
  cbn in Hgo, Hcls. subst gr. destruct p as [st ph gs mh dr cs0].
  unfold reported_error.
  destruct cls; [| |done].
  - destruct pg;
      (destruct (is_RunError e || is_ProvisionError e) eqn:E; eexists;
       (split; [cbv -[app orb is_RunError is_ProvisionError str_exn];
                rewrite E; cbv -[app str_exn];
                rewrite ?(app_nil_r gs), <- ?app_assoc; reflexivity
               |done])).
  - destruct pg as [[gn rd de]|]; [destruct rd, dr|];
      (destruct (is_RunError e || is_ProvisionError e) eqn:E; eexists;
       (split; [cbv -[app orb is_RunError is_ProvisionError str_exn];
                rewrite E; cbv -[app str_exn];
                rewrite ?(app_nil_r gs), <- ?app_assoc; reflexivity
               |done])).
Qed.

Lemma provision_phases_fail (before after : list Phase) (bad : Phase)
    (e : exn) (p : Provision) :
  Forall healthy before →
  Forall (λ phase, phase_class phase ≠ OtherPhase) (before ++ bad :: after) →
  go_raises bad = Some e →
  ∃ cs, provision_phases (before ++ bad :: after) p
          = (Raise e,
             grown (concat (map (kept (dry p)) (before ++ [bad]))) cs p) ∧
        went cs = map phase_name (before ++ [bad]) ∧
        List.filter is_fail cs = reported_error e ∧
        List.filter is_save cs = [].
Proof.
  revert p. induction before as [|phase before IH]; intros p Hh Hc Hbad.
  - apply Forall_cons in Hc as [Hc _].
    destruct (provision_phase_fails bad e p Hbad Hc) as (cs & Hrun & Hw & Hf & Hs).
    exists cs. cbn [app provision_phases map concat]. unfold bind.
    rewrite Hrun, app_nil_r. done.
  - apply Forall_cons in Hh as [Hh Hhs].
    rewrite <- app_comm_cons in Hc. apply Forall_cons in Hc as [Hc Hcs].
    destruct (provision_phase_ok phase p Hh Hc) as (cs1 & Hrun & Hw1 & Hq1 & Hq1').
    destruct (IH (grown (kept (dry p) phase) cs1 p) Hhs Hcs Hbad)
      as (cs2 & Hrest & Hw2 & Hf2 & Hs2).
    exists (cs1 ++ cs2). rewrite <- !app_comm_cons.
    cbn [provision_phases]. unfold bind. rewrite Hrun, Hrest.
    rewrite grown_grown. cbn [dry grown concat map]. split; [done|].
    unfold went in *. rewrite omap_app, !List.filter_app.
    rewrite Hw1, Hw2, Hq1, Hq1', Hf2, Hs2. done.
Qed.

(** X9. A step that is not done and one of whose phases raises: [go()]
    raises the same error; the phases after the failing one are not run;
    run and provision errors are reported with [fail]; the status stays as
    it was; and the guests collected so far are saved, unless the error is
    [SystemExit] or a specification error, after which nothing is
    saved. *)
Theorem go_phase_fails (self : Provision) (before after : list Phase)
    (bad : Phase) (e : exn) :
  status self ≠ Some "done" →
  phases_of_classes self = before ++ bad :: after →
  Forall healthy before →
  go_raises bad = Some e →
  let after_go := (go self).2 in
  let guests := concat (map (kept (dry self)) (before ++ [bad])) in
  (go self).1 = Raise e ∧
  status after_go = status self ∧
  _guests after_go = guests ∧
  ∃ cs,
    calls after_go = calls self ++ [CallStepGo] ++ cs ++
      (if skips_save e then [] else [CallSave (map guest_name guests)]) ∧
    went cs = map phase_name (before ++ [bad]) ∧
    List.filter is_fail cs = reported_error e ∧
    List.filter is_save cs = [].
Proof.
  intros Htodo Hsplit Hh Hbad. cbn zeta.
  set (p0 := mkProvision (status self) (phases self) []
               (1 <? length (List.filter
                    (λ phase, bool_decide (phase_class phase = ProvisionPlugin))
                    (phases self)))%nat
               (dry self) (calls self ++ [CallStepGo])).
  pose proof (phases_of_classes_run self) as Hc. rewrite Hsplit in Hc.
  destruct (provision_phases_fail before after bad e p0 Hh Hc Hbad)
    as (cs & Hrun & Hw & Hf & Hs).
  set (guests := concat (map (kept (dry self)) (before ++ [bad]))).
  assert (go self = (Raise e,
            mkProvision (status self) (phases self) guests
              (is_multihost p0) (dry self)
              (calls self ++ [CallStepGo] ++ cs ++
               (if skips_save e then []
                else [CallSave (map guest_name guests)])))) as ->.
  { unfold go, bind at 1, call at 1, modify. unfold bind at 1, get.
    cbn [status]. rewrite bool_decide_eq_false_2 by done.
    unfold bind at 1, modify. unfold bind at 1.
    change (phases_of_classes _) with (phases_of_classes self).
    unfold bind at 1. rewrite Hsplit.
    match goal with
    | |- context [provision_phases _ ?st] => change st with p0
    end.
    rewrite Hrun. unfold grown. cbn [dry p0 _guests calls app].
    fold guests.
    destruct e; cbn [skips_save]; unfold save, bind, get, call, modify;
      cbn [_guests status phases is_multihost dry calls];
      rewrite <- ?app_assoc, ?app_nil_r; reflexivity. }
  cbn. repeat split. exists cs. done.
Qed.

(** A step to be provisioned: one guest and a login action. *)
Definition fresh_step : Provision :=
  mkProvision None
    [mkPhase ProvisionPlugin "default-0" None
       (Some (mkGuest "default-0" true None));
     mkPhase Action "login" None None]
    [] false false [].

(** A step whose second guest cannot be provisioned. *)
Definition failing_step : Provision :=
  mkProvision (Some "todo")
    [mkPhase ProvisionPlugin "server" None
       (Some (mkGuest "server" true None));
     mkPhase ProvisionPlugin "client" (Some (ProvisionError "No image."))
       None;
     mkPhase Action "login" None None]
    [] false false [].

Ltac healthy_phases :=
  cbn;
  repeat (apply Forall_cons; split;
          [split; [reflexivity
                  |first [by intros ? [= <-] | by intros ? [=]]]|]);
  apply Forall_nil_2.

Lemma go_provisions_witness :
  let after := (go fresh_step).2 in
  (go fresh_step).1 = Ok tt ∧
  status after = Some "done" ∧
  _guests after = provisioned fresh_step ∧
  phases after = phases fresh_step ∧
  ∃ cs,
    calls after = calls fresh_step ++ [CallStepGo] ++ cs ++
      [CallSummary (map guest_name (provisioned fresh_step));
       CallSave (map guest_name (provisioned fresh_step))] ∧
    went cs = map phase_name (phases_of_classes fresh_step) ∧ quiet cs.
Proof.
  apply (go_provisions fresh_step); [discriminate|]. healthy_phases.
Defined.

Lemma go_phase_fails_witness :
  let after_go := (go failing_step).2 in
  (go failing_step).1 = Raise (ProvisionError "No image.") ∧
  status after_go = Some "todo" ∧
  _guests after_go = [mkGuest "server" true None] ∧
  ∃ cs,
    calls after_go = [CallStepGo] ++ cs ++ [CallSave ["server"]] ∧
    went cs = ["server"; "client"] ∧
    List.filter is_fail cs = [CallFail "No image."] ∧
    List.filter is_save cs = [].
Proof.
  apply (go_phase_fails failing_step
           [mkPhase ProvisionPlugin "server" None
              (Some (mkGuest "server" true None))]
           [mkPhase Action "login" None None]
           (mkPhase ProvisionPlugin "client"
              (Some (ProvisionError "No image.")) None)
           (ProvisionError "No image.")).
  - discriminate.
  - reflexivity.
  - healthy_phases.
  - reflexivity.
Defined.

End StepMoreFacts.

(** ** More on data containers *)

Module ContainerMoreFacts.
Import Containers ContainerFacts.

(** *** Dictionaries *)

Lemma dict_get_None (k : string) (d : Dict) :
  k ∉ d.*1 → dict_get k d = None.
Proof.
  induction d as [|[k' v] d IH]; [done|]. cbn.
  intros [Hne Hin]%not_elem_of_cons.
  rewrite bool_decide_eq_false_2 by done. by apply IH.
Qed.

Lemma dict_get_Some (k : string) (d : Dict) :
  k ∈ d.*1 → is_Some (dict_get k d).
Proof.
  induction d as [|[k' v] d IH]; cbn.
  { by intros ?%elem_of_nil. }
  intros [->|Hin]%elem_of_cons.
  - by rewrite bool_decide_eq_true_2.
  - destruct (bool_decide (k = k')); [done|by apply IH].
Qed.





(** *** Containers *)

(** The fields of a container as [to_dict] lists them. *)
Definition items (m : gmap string Value) (names : list string) : Dict :=
  map (λ name, (name, default VNone (m !! name))) names.


Lemma fields_of_ok (m : gmap string Value) (names : list string) :
  (∀ name, name ∈ names → is_Some (m !! name)) →
  fields_of m names = Ok (items m names).
Proof.
  induction names as [|n names IH]; [done|]. intros Hall. cbn.
  destruct (Hall n) as [v Hv]; [apply elem_of_cons; by left|].
  unfold getattr. rewrite Hv. cbn. rewrite IH; [done|].
  intros name Hin. apply Hall, elem_of_cons. by right.
Qed.

Lemma fields_of_missing (m : gmap string Value) (names : list string)
    (name : string) :
  name ∈ names → m !! name = None →
  ∃ missing, fields_of m names = Raise (AttributeError missing) ∧
             missing ∈ names ∧ m !! missing = None.
Proof.
  induction names as [|n names IH]; [by intros ?%elem_of_nil|].
  intros Hin Hnone. cbn. unfold getattr.
  destruct (m !! n) as [v|] eqn:E.
  - cbn. apply elem_of_cons in Hin as [->|Hin]; [congruence|].
    destruct (IH Hin Hnone) as (missing & -> & Hm & Hmn).
    exists missing. split; [done|]. split; [|done]. apply elem_of_cons. by right.
  - exists n. split; [done|]. split; [|done]. apply elem_of_cons. by left.
Qed.




(** The attributes the constructor gives to a new container. *)
Definition initial (cls : DataClass) (kwargs : Dict) : gmap string Value :=
  list_to_map (map (λ field, (field.1, default field.2
                                         (dict_get field.1 kwargs)))
                   (cls_fields cls)).

Lemma initial_lookup cls kwargs name d :
  NoDup (keys cls) → (name, d) ∈ cls_fields cls →
  initial cls kwargs !! name = Some (default d (dict_get name kwargs)).
Proof.
  intros Hnd Hin. unfold initial. apply elem_of_list_to_map_1.
  - rewrite <- list_fmap_compose. exact Hnd.
  - apply (list_elem_of_fmap_2'
             (λ field : string * Value,
                (field.1, default field.2 (dict_get field.1 kwargs)))
             _ (name, d)); done.
Qed.

Lemma initial_lookup_None cls kwargs name :
  name ∉ keys cls → initial cls kwargs !! name = None.
Proof.
  intros Hnot. unfold initial. apply not_elem_of_list_to_map_1.
  by rewrite <- list_fmap_compose.
Qed.



(** A container that holds a value for each field of its class and
    nothing else, the field names being distinct. *)
Definition complete (c : Container) : Prop :=
  NoDup (keys (klass c)) ∧
  ∀ name, is_Some (attrs c !! name) ↔ name ∈ keys (klass c).

Lemma field_of_key (cls : DataClass) (name : string) :
  name ∈ keys cls → ∃ d, (name, d) ∈ cls_fields cls.
Proof.
  intros ([n d] & -> & Hin)%list_elem_of_fmap. by exists d.
Qed.





(** *** Objects *)

Lemma inject_lookup (m d : gmap string Value) (names : list string)
    (name : string) :
  foldl (λ d item, <[item.1 := item.2]> d) d (items m names) !! name
    = if bool_decide (name ∈ names) then Some (default VNone (m !! name))
      else d !! name.
Proof.
  revert d. induction names as [|n names IH]; intros d; [done|].
  cbn [items map foldl]. fold (items m names). rewrite IH. cbn [fst snd].
  destruct (decide (name ∈ names)) as [Hin|Hnot].
  - rewrite !bool_decide_eq_true_2; [done|set_solver|done].
  - rewrite (bool_decide_eq_false_2 (name ∈ names)) by done.
    destruct (decide (name = n)) as [->|Hne].
    + rewrite lookup_insert_eq, bool_decide_eq_true_2; [done|set_solver].
    + rewrite lookup_insert_ne by done.
      rewrite bool_decide_eq_false_2; [done|set_solver].
Qed.

Lemma extract_keys_ok (obj : Object) (names : list string)
    (data : gmap string Value) :
  (∀ name, name ∈ names → is_Some (dict obj !! name)) →
  ∃ filled,
    extract_keys obj names data = Ok filled ∧
    ∀ name,
      filled !! name =
        match dict obj !! name with
        | Some value =>
            if bool_decide (name ∈ names) && negb (is_None value)
            then Some value else data !! name
        | None => data !! name
        end.
Proof.
  revert data. induction names as [|n names IH]; intros data Hall.
  { exists data. split; [done|]. intros name. by destruct (dict obj !! name). }
  destruct (Hall n) as [v Hv]; [set_solver|].
  cbn [extract_keys]. unfold getattr. rewrite Hv. cbn [and_then].
  destruct (IH (if is_None v then data else <[n := v]> data))
    as (filled & -> & Hfilled); [intros name Hin; apply Hall; set_solver|].
  exists filled. split; [done|]. intros name. rewrite Hfilled.
  destruct (dict obj !! name) as [value|] eqn:E.
  - destruct (decide (name ∈ names)) as [Hin|Hnot].
    + rewrite !bool_decide_eq_true_2 by set_solver. cbn.
      destruct (is_None value) eqn:En; [|done]. cbn.
      destruct (decide (name = n)) as [->|Hne].
      * assert (v = value) as -> by congruence. by rewrite En.
      * destruct (is_None v); [done|]. by rewrite lookup_insert_ne.
    + rewrite (bool_decide_eq_false_2 (name ∈ names)) by done. cbn.
      destruct (decide (name = n)) as [->|Hne].
      * assert (v = value) as -> by congruence.
        rewrite bool_decide_eq_true_2 by set_solver. cbn.
        destruct (is_None value); [done|]. by rewrite lookup_insert_eq.
      * rewrite bool_decide_eq_false_2 by set_solver. cbn.
        destruct (is_None v); [done|]. by rewrite lookup_insert_ne.
  - destruct (decide (name = n)) as [->|Hne]; [congruence|].
    destruct (is_None v); [done|]. by rewrite lookup_insert_ne.
Qed.

(** X12. Loading a container into an object and saving the object again
    gives the container back, for every data class: provided the container
    holds exactly the fields of its class and a field that is [None] has
    the default [None]. (A field that is [None] is skipped by
    [extract_from] and so comes back as its default.) *)
Theorem load_save_round_trip (data : Container) (obj : Object) :
  complete data →
  _data_class obj = klass data →
  (∀ name d, (name, d) ∈ cls_fields (klass data) →
             attrs data !! name = Some VNone → d = VNone) →
  and_then (load obj data) save = Ok data.
Proof.
  intros Hc Hcls Hnone. pose proof Hc as [Hnd Hdom].
  unfold load, inject_to, to_dict.
  rewrite fields_of_ok by (intros name Hin; by apply Hdom). cbn [and_then].
  unfold save, extract_from. cbn [_data_class]. rewrite Hcls.
  unfold construct. cbn [List.find and_then attrs].
  fold (initial (klass data) []).
  set (obj' := mkObject _ _).
  destruct (extract_keys_ok obj' (keys (klass data)) (initial (klass data) []))
    as (filled & -> & Hfilled).
  { intros name Hin. unfold obj'. cbn [dict]. rewrite inject_lookup.
    by rewrite bool_decide_eq_true_2. }
  cbn [and_then]. destruct data as [cls m]. cbn [klass attrs] in *.
  f_equal. f_equal. apply map_eq. intros name. rewrite Hfilled.
  unfold obj'. cbn [dict]. rewrite inject_lookup.
  destruct (decide (name ∈ keys cls)) as [Hin|Hnot].
  - rewrite !bool_decide_eq_true_2 by done. cbn.
    apply Hdom in Hin as Hsome. destruct Hsome as [v Hv]. rewrite Hv. cbn.
    destruct (is_None v) eqn:En; [|done]. cbn.
    destruct v; try discriminate.
    destruct (field_of_key _ _ Hin) as [d Hd].
    rewrite (initial_lookup _ _ _ d Hnd Hd). cbn.
    by rewrite (Hnone name d Hd Hv).
  - rewrite !bool_decide_eq_false_2 by done.
    assert (m !! name = None) as Hm.
    { apply eq_None_not_Some. by rewrite Hdom. }
    rewrite initial_lookup_None by done.
    destruct (dict obj !! name); by rewrite ?Hm.
Qed.

(** *** On the guest data classes *)

Lemma constructed_complete (cls : DataClass) (kwargs : Dict) :
  NoDup (keys cls) → complete (mkContainer cls (initial cls kwargs)).
Proof.
  intros Hnd. split; [done|]. intros name. cbn [attrs klass]. split.
  - intros Hsome. destruct (decide (name ∈ keys cls)) as [|Hnot]; [done|].
    rewrite (initial_lookup_None _ kwargs _ Hnot) in Hsome. by destruct Hsome.
  - intros Hin. destruct (field_of_key _ _ Hin) as [d Hd].
    by rewrite (initial_lookup _ _ _ d Hnd Hd).
Qed.

Lemma guest_keys_distinct : NoDup (keys GuestData) ∧ NoDup (keys GuestSshData).
Proof. split; apply (bool_decide_unpack _); by_vm. Qed.


(** The data of a guest with a role. *)
Definition plain_guest_data : Container :=
  mkContainer GuestData (initial GuestData [("role", VStr "server")]).




Lemma load_save_round_trip_witness :
  and_then (load (mkObject GuestData ∅) plain_guest_data) save
    = Ok plain_guest_data.
Proof.
  apply (load_save_round_trip plain_guest_data (mkObject GuestData ∅)).
  - apply constructed_complete, guest_keys_distinct.
  - reflexivity.
  - intros name d Hin _. cbn in Hin.
    by repeat (apply elem_of_cons in Hin as [[= -> ->]|Hin]; [done|]);
       apply elem_of_nil in Hin.
Defined.

End ContainerMoreFacts.

(** ** More on the internal executor *)

Module ExecuteMoreFacts.
Import Utils Execute ExecuteFacts.

Section Facts.
Context {G : Type} `{!GuestOps G} `{!Base G} `{!Library}.

Implicit Types (p : Plugin G).

(** Computations that leave the test objects alone. *)
Definition spares {A} (m : M (Plugin G) A) : Prop :=
  ∀ p, tests (m p).2 = tests p.

Lemma spares_on_host {A} (m : M (Host G) A) : spares (on_host m).
Proof. intros p. unfold on_host. by destruct (m (host p)). Qed.

Lemma spares_record e : spares (record e).
Proof. done. Qed.

Lemma spares_write path data append : spares (write path data append).
Proof. done. Qed.

Lemma spares_the_test index : spares (the_test index).
Proof. intros p. unfold the_test, bind, get. by destruct (tests p !! index). Qed.

Lemma spares_eq {A} (m : M (Plugin G) A) p r p' :
  spares m → m p = (r, p') → tests p' = tests p.
Proof. intros Hs Hm. specialize (Hs p). by rewrite Hm in Hs. Qed.

Lemma the_test_ok index p t p' :
  the_test index p = (Ok t, p') → tests p !! index = Some t ∧ p' = p.
Proof.
  unfold the_test, bind, get. destruct (tests p !! index); [|done].
  by intros [= -> ->].
Qed.

(** The part of [execute] that runs the command and stores the return
    code. *)
Lemma returncode_stored (index : nat) (m : M (Plugin G) CommandOutput)
    p output p' :
  spares m →
  try_except
    (let! out := m in
     do! update_test index (set_returncode (Some 0)) then
     ret (stdout out))
    is_RunError
    (λ error,
       match error with
       | RunError _ _ rc out _ =>
           do! update_test index (set_returncode (Some rc)) then
           ret out
       | e => raise e
       end) p = (Ok output, p') →
  ∃ rc, tests p' = alter (set_returncode (Some rc)) index (tests p).
Proof.
  intros Hm. unfold try_except, bind at 1. specialize (Hm p).
  destruct (m p) as [[out|e|] p1]; cbn [snd] in Hm.
  - cbn. intros [= _ <-]. exists 0. cbn. by rewrite Hm.
  - destruct e; cbn; try done. intros [= _ <-]. eexists. cbn. by rewrite Hm.
  - done.
Qed.

(** X13. [execute] that returns has stored a return code and the duration in
    the test it ran, and has touched no other test. So the assertion
    that follows it in [_run_tests] holds. *)
Theorem execute_stores_outcome opts index env p p1 :
  execute opts index env p = (Ok tt, p1) →
  ∃ t rc,
    tests p !! index = Some t ∧
    tests p1 !! index
      = Some (set_real_duration (Some (test_duration t))
                (set_returncode (Some rc) t)) ∧
    (∀ j, j ≠ index → tests p1 !! j = tests p !! j) ∧
    length (tests p1) = length (tests p).
Proof.
  unfold execute. intros Hrun.
  apply bind_ok in Hrun as (t & pa & Ha & Hrun).
  apply the_test_ok in Ha as [Ht ->].
  apply bind_ok in Hrun as (? & pb & Hb & Hrun).
  apply (spares_eq _ _ _ _ (spares_write _ _ _)) in Hb.
  apply bind_ok in Hrun as (? & pc & Hc & Hrun).
  apply (spares_eq _ _ _ _ (spares_record _)) in Hc.
  apply bind_ok in Hrun as (? & pd & Hd & Hrun).
  apply (spares_eq _ _ _ _ (spares_on_host _)) in Hd.
  apply bind_ok in Hrun as (? & pe & He & Hrun).
  apply (spares_eq _ _ _ _ (spares_record _)) in He.
  apply bind_ok in Hrun as (output & pf & Hf & Hrun).
  apply bind_ok in Hrun as (? & pg & Hg & Hrun).
  apply (spares_eq _ _ _ _ (spares_write _ _ _)) in Hg.
  injection Hrun as <-.
  assert (∃ rc, tests pf = alter (set_returncode (Some rc)) index (tests pe))
    as [rc Hrc].
  { revert Hf. unfold try_except, bind at 1, lift.
    destruct (duration_to_seconds (test_duration_limit t)) as [timeout|e|].
    - apply (returncode_stored index (on_host _)). apply spares_on_host.
    - destruct e; cbn; try done. intros [= _ <-]. eexists. reflexivity.
    - done. }
  assert (tests pe = tests p) as Hpe by congruence.
  exists t, rc. split; [done|]. cbn. rewrite Hg, Hrc, Hpe.
  split; [|split].
  - rewrite !list_lookup_alter_eq, Ht. reflexivity.
  - intros j Hj. by rewrite !list_lookup_alter_ne.
  - by rewrite !length_alter.
Qed.

(** The part of [_handle_reboot] that reboots the guest: a soft reboot,
    a hard one if the guest does not support that, and the verdict. *)
Definition reboot_guest (reboot_command : option ShellScript)
    (timeout : option Z) : M (Plugin G) bool :=
  let! rebooted :=
    try_except
      (try_except
         (do! record (DidReboot false (option_map _script reboot_command)
                                timeout) then
          on_host (guest_reboot false reboot_command timeout))
         is_RunError
         (λ error,
            do! record (Failed ("Failed to reboot guest using the "
                                +:+ "custom command '"
                                +:+ default "None"
                                      (option_map _script reboot_command)
                                +:+ "'.")) then
            raise error))
      is_ProvisionError
      (λ _,
         do! record (Warned ("Guest does not support soft reboot, "
                             +:+ "trying hard reboot.")) then
         do! record (DidReboot true None timeout) then
         on_host (guest_reboot true None timeout)) in
  if rebooted : bool then ret true
  else raise (RebootTimeoutError "Reboot timed out.").

(** The command a reboot request asks for: a non-empty string. Any other
    value is ignored, either because it is not true or because
    [ShellScript] refuses it. *)
Definition requested_command (v : JSON) : option ShellScript :=
  match v with
  | JStr c => if bool_decide (c = "") then None else Some (ShellScript_init c)
  | _ => None
  end.

(** The timeout a reboot request asks for: what [int] makes of the
    value, and none when [int] refuses the value with [ValueError]. *)
Definition parsed_timeout (v : JSON) (timeout : option Z) : Prop :=
  match int_of v with
  | Ok seconds => timeout = Some seconds
  | Raise (ValueError _) => timeout = None
  | _ => False
  end.

(** The test at [index] left a reboot request that asks for [command] and
    [timeout], and the push of the test data that follows its removal
    succeeds and leaves the host [h]. *)
Record request (p : Plugin G) (index : nat) (t : Test)
    (command : option ShellScript) (timeout : option Z) (h : Host G)
    : Prop := mkRequest
  { request_test : tests p !! index = Some t;
    request_parsed :
      ∃ content entries,
        files (host p) !! _reboot_request_path t = Some content ∧
        json_loads content = Ok (JObj entries) ∧
        command = requested_command (entries_get "command" entries) ∧
        parsed_timeout (entries_get "timeout" entries) timeout;
    request_pushed :
      guest_push (Some (path_join (data_path t) TEST_DATA)) None None
        (set_files (delete (_reboot_request_path t) (files (host p)))
                   (host p))
      = (Ok tt, h) }.

(** The plugin when the guest is about to be rebooted: the counter of the
    test is incremented, the request is gone and the test data are
    pushed. *)
Definition before_reboot (p : Plugin G) (index : nat) (t : Test)
    (h : Host G) : Plugin G :=
  mkPlugin h
    (alter (λ t, set_reboot_count (_reboot_count t + 1) t) index (tests p))
    (_results p)
    (trace p ++ [DidPush (Some (path_join (data_path t) TEST_DATA))]).

Lemma handle_reboot_request p index t command timeout h :
  request p index t command timeout h →
  _handle_reboot index p
    = reboot_guest command timeout (before_reboot p index t h).
Proof.
  intros [Ht (content & entries & Hfile & Hjson & -> & Hto) Hpush].
  unfold _handle_reboot. unfold bind at 1, the_test at 1, bind at 1, get.
  rewrite Ht. unfold ret at 1. unfold bind at 1, _will_reboot, bind at 1, get.
  unfold ret at 1. rewrite Hfile.
  rewrite bool_decide_eq_true_2 by (by eexists).
  unfold bind at 1, update_test, modify.
  unfold bind at 1, get. cbn [host set_tests files]. rewrite Hfile.
  unfold bind at 1, ret at 1. unfold bind at 1, lift at 1. rewrite Hjson.
  unfold bind at 1, lift at 1. cbn [json_get].
  unfold parsed_timeout in Hto.
  assert (∀ (k : option ShellScript → M (Plugin G) bool) s,
            bind (if json_truthy (entries_get "command" entries)
                  then
                    try_except
                      (let! requested := lift (Ok (entries_get "command" entries)) in
                       let! script := lift (shell_script_of requested) in
                       ret (Some script))
                      is_TypeError (λ _, ret None)
                  else ret None) k s
            = k (requested_command (entries_get "command" entries)) s) as Hcmd.
  { intros k s. destruct (entries_get "command" entries) as [| | | |c| |];
      try reflexivity.
    - by destruct b.
    - cbn [json_truthy]. by destruct (bool_decide (z = 0)).
    - cbn [json_truthy]. by destruct (Qeq_bool q 0).
    - cbn [json_truthy requested_command].
      by destruct (bool_decide (c = "")).
    - by destruct items.
    - by destruct entries0. }
  rewrite Hcmd.
  assert (∀ (k : option Z → M (Plugin G) bool) s,
            bind (try_except
                    (let! requested := lift (Ok (entries_get "timeout" entries)) in
                     let! seconds := lift (int_of requested) in
                     ret (Some seconds))
                    is_ValueError (λ _, ret None)) k s
            = k timeout s) as Htimeout.
  { intros k s. unfold bind, try_except, lift, ret.
    destruct (int_of (entries_get "timeout" entries)) as [z|e|]; [by subst| |done].
    destruct e; try done. by subst. }
  rewrite Htimeout.
  unfold bind at 1, modify. unfold bind at 1, record at 1, modify.
  unfold bind at 1, on_host at 1.
  cbn [host set_host set_tests tests _results trace]. rewrite Hpush.
  reflexivity.
Qed.

(** X14. A reboot request is honoured: the reboot counter of the test goes up
    by one, the request is removed, the test data are pushed, and the
    guest is asked for a soft reboot with the command and the timeout of
    the request. A command that is not a non-empty string counts as
    absent, and so does a timeout that [int] refuses with [ValueError].
    The call returns [True] when the guest came back and raises
    [RebootTimeoutError] when it did not. *)
Theorem reboot_request_honoured p index t command timeout h rebooted h' :
  request p index t command timeout h →
  guest_reboot false command timeout h = (Ok rebooted, h') →
  _handle_reboot index p =
    (if rebooted then Ok true
     else Raise (RebootTimeoutError "Reboot timed out."),
     mkPlugin h'
       (alter (λ t, set_reboot_count (_reboot_count t + 1) t) index (tests p))
       (_results p)
       (trace p ++
        [DidPush (Some (path_join (data_path t) TEST_DATA));
         DidReboot false (option_map _script command) timeout])).
Proof.
  intros Hreq Hreboot. rewrite (handle_reboot_request _ _ _ _ _ _ Hreq).
  unfold reboot_guest, before_reboot, bind, try_except, record, modify,
    on_host.
  cbn [host set_host tests _results trace]. rewrite Hreboot.
  rewrite <- app_assoc. by destruct rebooted.
Qed.

(** X15. When the soft reboot fails: a guest that does not support it
    ([ProvisionError]) is warned about and then asked for a hard reboot,
    without a command and with the timeout of the request; a failing
    reboot command ([RunError]) is reported with [fail] and its error
    raised again, without a hard reboot. *)
Theorem soft_reboot_fails p index t command timeout h :
  request p index t command timeout h →
  let tests' :=
    alter (λ t, set_reboot_count (_reboot_count t + 1) t) index (tests p) in
  let attempt :=
    [DidPush (Some (path_join (data_path t) TEST_DATA));
     DidReboot false (option_map _script command) timeout] in
  (∀ message h1 rebooted h2,
     guest_reboot false command timeout h = (Raise (ProvisionError message), h1) →
     guest_reboot true None timeout h1 = (Ok rebooted, h2) →
     _handle_reboot index p =
       (if rebooted then Ok true
        else Raise (RebootTimeoutError "Reboot timed out."),
        mkPlugin h2 tests' (_results p)
          (trace p ++ attempt ++
           [Warned ("Guest does not support soft reboot, "
                    +:+ "trying hard reboot.");
            DidReboot true None timeout]))) ∧
  (∀ message argv rc out err h1,
     guest_reboot false command timeout h
       = (Raise (RunError message argv rc out err), h1) →
     _handle_reboot index p =
       (Raise (RunError message argv rc out err),
        mkPlugin h1 tests' (_results p)
          (trace p ++ attempt ++
           [Failed ("Failed to reboot guest using the custom command '"
                    +:+ default "None" (option_map _script command)
                    +:+ "'.")]))).
Proof.
  intros Hreq. cbn zeta. rewrite (handle_reboot_request _ _ _ _ _ _ Hreq).
  split.
  - intros message h1 rebooted h2 Hsoft Hhard.
    unfold reboot_guest, before_reboot, bind, try_except, record, modify,
      on_host.
    cbn [host set_host tests _results trace]. rewrite Hsoft.
    cbn [is_RunError is_ProvisionError host set_host tests _results trace].
    rewrite Hhard. rewrite <- !app_assoc. by destruct rebooted.
  - intros message argv rc out err h1 Hsoft.
    unfold reboot_guest, before_reboot, bind, try_except, record, modify,
      on_host, raise.
    cbn [host set_host tests _results trace]. rewrite Hsoft.
    cbn [is_RunError is_ProvisionError host set_host tests _results trace].
    rewrite <- !app_assoc. reflexivity.
Qed.

(** A result that lets the run go on under [--exit-first]. *)
Definition passing (r : Result) : bool :=
  bool_decide (result r = PASS) || bool_decide (result r = INFO).

(** X16. With [exit-first], a test that left no reboot request and did not
    abort: when its last result is neither a pass nor an info, the results
    are collected, a warning says that the test failed, and the loop
    ends; when it is one of the two, the loop goes on with the next
    test. *)
Theorem exit_first_stops opts fuel index env last_result p p1 results r t :
  (index < length (tests p))%nat →
  run_test opts index env p = (Ok results, p1) →
  tests p1 !! index = Some t →
  files (host p1) !! _reboot_request_path t = None →
  check_abort_file t (host p1) = false →
  exit_first opts = true →
  last results = Some r →
  (passing r = false →
   ∃ p',
     tests_loop opts (S fuel) index env last_result p = (Ok tt, p') ∧
     _results p' = _results p ++ results ∧
     executed (trace p') = executed (trace p) ++ [index] ∧
     last (trace p')
       = Some (Warned ("Test " +:+ name t +:+ " failed, stopping execution."))) ∧
  (passing r = true → login_after_test opts = false →
   ∃ p',
     tests_loop opts (S fuel) index env last_result p
       = tests_loop opts fuel (S index) env (Some r) p' ∧
     _results p' = _results p ++ results ∧
     executed (trace p') = executed (trace p) ++ [index]).
Proof.
  intros Hlt Hrun Ht Hnone Hnoabort Hexit Hlast.
  pose proof (run_test_observed _ _ _ _ _ _ Hrun) as Hobs.
  injection Hobs as Hres Hexe.
  assert (tests_loop opts (S fuel) index env last_result p =
            (if negb (passing r)
             then
               do! record (Warned ("Test " +:+ name t
                                   +:+ " failed, stopping execution.")) then
               ret tt
             else
               do! (if login_after_test opts then record (DidLogin r)
                    else ret tt) then
               tests_loop opts fuel (S index) env (Some r))
              (set_results (_results p1 ++ results) p1)) as ->.
  { rewrite (tests_loop_step _ _ _ _ _ _ _ _ _ Hlt Hrun Ht).
    rewrite bool_decide_eq_false_2 by (rewrite Hnone; by intros [? ?]).
    unfold conclude, bind at 1, get.
    unfold bind at 1, the_test at 1, bind at 1, get. rewrite Ht.
    unfold ret at 1. rewrite Hnoabort, Hexit, Hlast.
    unfold bind at 1, modify. unfold bind at 1, ret at 1. reflexivity. }
  split.
  - intros Hfail. rewrite Hfail. cbn [negb].
    unfold bind, record, modify, ret. eexists. split; [reflexivity|].
    cbn [_results trace set_results]. rewrite Hres.
    split; [done|]. split.
    + unfold executed in *. rewrite omap_app, Hexe. cbn. by rewrite app_nil_r.
    + by rewrite last_snoc.
  - intros Hpass Hlogin. rewrite Hpass, Hlogin. cbn [negb].
    unfold bind at 1, ret at 1. eexists. split; [reflexivity|].
    cbn [_results trace set_results]. by rewrite Hres, Hexe.
Qed.

End Facts.

(** *** On the example guest *)

#[local] Existing Instance plain_library.
#[local] Existing Instance example_base.

(** A guest like the example guest that supports hard reboot only. *)
Definition hard_only : GuestOps (list Run) :=
  mkGuestOps (list Run)
    (@guest_localhost _ example_ops)
    (@guest_execute _ example_ops)
    (@guest_push _ example_ops)
    (@guest_pull _ example_ops)
    (λ hard _ _,
       if hard : bool then ret true
       else raise (ProvisionError "Guest does not support soft reboot.")).

(** The only test fails with exit code 3. *)
Definition failing : Plugin (list Run) := ready [mkRun 3 None false].

(** The first test has run and asked for a reboot within 90 seconds. *)
Definition asked (ops : GuestOps (list Run)) : Plugin (list Run) :=
  (@run_test _ ops _ _ plain_options 0 None rebooting).2.

(** The host after the request was removed. *)
Definition cleared (ops : GuestOps (list Run)) : Host (list Run) :=
  set_files (delete (_reboot_request_path first_test)
                    (files (host (asked ops))))
            (host (asked ops)).

Lemma asked_request (ops : GuestOps (list Run)) :
  @guest_execute _ ops = @guest_execute _ example_ops →
  @guest_push _ ops = @guest_push _ example_ops →
  @guest_pull _ ops = @guest_pull _ example_ops →
  @request _ ops _ _ (asked ops) 0 (ran 1 first_test) None (Some 90)
    (cleared ops).
Proof.
  intros He Hpush Hpull. destruct ops as [lo ex pu pl rb]. cbn in He, Hpush, Hpull.
  subst ex pu pl. split.
  - vm_compute. reflexivity.
  - exists request_timeout, [("timeout", JStr "90")].
    split; [vm_compute; reflexivity|]. by repeat split.
  - reflexivity.
Qed.

Lemma execute_stores_outcome_witness :
  let p1 := (@execute _ example_ops _ _ plain_options 0 None failing).2 in
  ∃ t rc,
    tests failing !! 0%nat = Some t ∧
    tests p1 !! 0%nat
      = Some (set_real_duration (Some (test_duration t))
                (set_returncode (Some rc) t)) ∧
    (∀ j, j ≠ 0%nat → tests p1 !! j = tests failing !! j) ∧
    length (tests p1) = length (tests failing).
Proof.
  apply (@execute_stores_outcome _ example_ops _ _ plain_options 0 None
           failing).
  apply (run_eq (@execute _ example_ops _ _ plain_options 0 None failing)).
  vm_compute. reflexivity.
Defined.

Lemma reboot_request_honoured_witness :
  @_handle_reboot _ example_ops _ _ 0 (asked example_ops) =
    (Ok true,
     mkPlugin (cleared example_ops)
       (alter (λ t, set_reboot_count (_reboot_count t + 1) t) 0%nat
              (tests (asked example_ops)))
       (_results (asked example_ops))
       (trace (asked example_ops) ++
        [DidPush (Some (path_join (data_path (ran 1 first_test)) TEST_DATA));
         DidReboot false None (Some 90)])).
Proof.
  apply (@reboot_request_honoured _ example_ops _ _ (asked example_ops) 0
           (ran 1 first_test) None (Some 90) (cleared example_ops) true
           (cleared example_ops)).
  - by apply asked_request.
  - reflexivity.
Defined.

Lemma soft_reboot_fails_witness :
  @_handle_reboot _ hard_only _ _ 0 (asked hard_only) =
    (Ok true,
     mkPlugin (cleared hard_only)
       (alter (λ t, set_reboot_count (_reboot_count t + 1) t) 0%nat
              (tests (asked hard_only)))
       (_results (asked hard_only))
       (trace (asked hard_only) ++
        [DidPush (Some (path_join (data_path (ran 1 first_test)) TEST_DATA));
         DidReboot false None (Some 90)] ++
        [Warned "Guest does not support soft reboot, trying hard reboot.";
         DidReboot true None (Some 90)])).
Proof.
  apply (proj1 (@soft_reboot_fails _ hard_only _ _ (asked hard_only) 0
                  (ran 1 first_test) None (Some 90) (cleared hard_only)
                  (asked_request hard_only eq_refl eq_refl eq_refl))
           "Guest does not support soft reboot." (cleared hard_only) true
           (cleared hard_only)); reflexivity.
Defined.

(** Stop at the first failure. *)
Definition exit_first_options : Options := mkOptions false true false.

(** The first test fails, the second would pass. *)
Definition first_fails : Plugin (list Run) :=
  ready [mkRun 1 None false; mkRun 0 None false].

Lemma exit_first_stops_witness :
  ∃ p',
    @tests_loop _ example_ops _ _ exit_first_options 2 0 None None first_fails
      = (Ok tt, p') ∧
    _results p' = [mkResult "/first" FAIL None (Some "00:00:01")] ∧
    executed (trace p') = [0%nat] ∧
    last (trace p')
      = Some (Warned "Test /first failed, stopping execution.").
Proof.
  destruct (@exit_first_stops _ example_ops _ _ exit_first_options 1 0 None
              None first_fails
              (@run_test _ example_ops _ _ exit_first_options 0 None
                 first_fails).2
              [mkResult "/first" FAIL None (Some "00:00:01")]
              (mkResult "/first" FAIL None (Some "00:00:01"))
              (ran 1 first_test)) as [H _].
  - cbn. lia.
  - apply (run_eq (@run_test _ example_ops _ _ exit_first_options 0 None
                     first_fails)).
    vm_compute. reflexivity.
  - vm_compute. reflexivity.
  - vm_compute. reflexivity.
  - vm_compute. reflexivity.
  - reflexivity.
  - reflexivity.
  - destruct H as (p' & Hloop & Hres & Hexe & Hlast); [reflexivity|].
    exists p'. split; [exact Hloop|]. split; [exact Hres|].
    split; [exact Hexe|exact Hlast].
Defined.

End ExecuteMoreFacts.

(** ** The environment of a test *)

Module EnvFacts.
Import Utils Execute.

(** The value a variable has in an environment. *)
Fixpoint env_lookup (k : string) (d : list (string * string))
    : option string :=
  match d with
  | [] => None
  | (k', v) :: d' => if bool_decide (k = k') then Some v else env_lookup k d'
  end.

(** The first of two optional values. *)
Definition or_else {A} (a b : option A) : option A :=
  match a with Some v => Some v | None => b end.

Lemma env_lookup_set k k' v d :
  env_lookup k (Provision.dict_set k' v d)
    = if bool_decide (k = k') then Some v else env_lookup k d.
Proof.
  induction d as [|[k'' v''] d IH]; cbn; [done|].
  destruct (bool_decide (k' = k'')) eqn:E; cbn.
  - apply bool_decide_eq_true_1 in E as <-.
    by destruct (bool_decide (k = k')).
  - rewrite IH. destruct (bool_decide (k = k'')) eqn:E2; [|done].
    apply bool_decide_eq_true_1 in E2 as ->.
    apply bool_decide_eq_false_1 in E.
    by rewrite bool_decide_eq_false_2 by done.
Qed.

Lemma env_lookup_app k a b :
  env_lookup k (a ++ b) = or_else (env_lookup k a) (env_lookup k b).
Proof.
  induction a as [|[k' v] a IH]; cbn; [done|].
  by destruct (bool_decide (k = k')).
Qed.

(** [dict.update]: the last binding of the update wins, then the
    dictionary that is updated. *)
Lemma env_lookup_update k d u :
  env_lookup k (Provision.dict_update d u)
    = or_else (env_lookup k (reverse u)) (env_lookup k d).
Proof.
  unfold Provision.dict_update. revert d.
  induction u as [|[k' v] u IH]; intros d; [done|].
  cbn [foldl fst snd].
  rewrite IH, reverse_cons, env_lookup_app, env_lookup_set.
  destruct (env_lookup k (reverse u)); [done|]. cbn.
  by destruct (bool_decide (k = k')).
Qed.

Lemma env_lookup_const k c (l : list string) :
  env_lookup k (reverse (map (λ x, (x, c)) l))
    = if bool_decide (k ∈ l) then Some c else None.
Proof.
  induction l as [|x l IH]; [done|].
  cbn [map]. rewrite reverse_cons, env_lookup_app, IH. cbn.
  destruct (decide (k ∈ l)) as [Hin|Hnot].
  - rewrite (bool_decide_eq_true_2 (k ∈ l)) by done.
    by rewrite (bool_decide_eq_true_2 (k ∈ x :: l)) by set_solver.
  - rewrite (bool_decide_eq_false_2 (k ∈ l)) by done. cbn.
    destruct (decide (k = x)) as [->|Hne].
    + rewrite (bool_decide_eq_true_2 (x = x)) by done.
      by rewrite (bool_decide_eq_true_2 (x ∈ x :: l)) by set_solver.
    + rewrite (bool_decide_eq_false_2 (k = x)) by done.
      by rewrite (bool_decide_eq_false_2 (k ∈ x :: l)) by set_solver.
Qed.

Section Facts.
Context {G : Type} `{!GuestOps G} `{!Base G} `{!Library}.

(** The variables [_test_environment] sets by itself, besides the reboot
    variables. *)
Definition tmt_variables : list string :=
  ["TMT_TEST_NAME"; "TMT_TEST_DATA"; "TMT_TEST_METADATA";
   "TMT_REBOOT_REQUEST"].
Definition beakerlib_variables : list string :=
  ["BEAKERLIB_DIR"; "BEAKERLIB_COMMAND_SUBMIT_LOG"].

(** X17. The environment of a test. A variable that tmt does not set has the
    value the test gives it, else the value of the extra environment. The
    name of the test cannot be overridden by either. Every reboot variable
    holds the reboot count of the test, also when the test or the extra
    environment set it. *)
Theorem test_environment_precedence (t : Test)
    (extra : option (list (string * string))) (k : string) :
  let env := _test_environment t extra in
  (k ∉ tmt_variables → k ∉ related_variables → k ∉ beakerlib_variables →
   env_lookup k env
     = or_else (env_lookup k (reverse (environment t)))
               (env_lookup k (default [] extra))) ∧
  ("TMT_TEST_NAME" ∉ related_variables →
   env_lookup "TMT_TEST_NAME" env = Some (name t)) ∧
  (k ∈ related_variables → k ∉ beakerlib_variables →
   env_lookup k env = Some (pretty (_reboot_count t))).
Proof.
  cbn zeta. unfold _test_environment.
  assert (∀ (d : list (string * string)) (k' : string),
            k' ∉ beakerlib_variables →
            env_lookup k'
              (if bool_decide (framework t = "beakerlib")
               then Provision.dict_update d
                      [("BEAKERLIB_DIR", data_path t);
                       ("BEAKERLIB_COMMAND_SUBMIT_LOG",
                        "bash " +:+ submit_script_path)]
               else d) = env_lookup k' d) as Hbkr.
  { intros d k' Hk. destruct (bool_decide _); [|done].
    rewrite env_lookup_update. cbn.
    unfold beakerlib_variables in Hk.
    apply not_elem_of_cons in Hk as [H1 Hk].
    apply not_elem_of_cons in Hk as [H2 _].
    by rewrite !bool_decide_eq_false_2 by done. }
  split; [|split].
  - intros Htmt Hrel Hbk. rewrite Hbkr by done.
    rewrite !env_lookup_update, env_lookup_const.
    rewrite (bool_decide_eq_false_2 (k ∈ related_variables)) by done. cbn.
    unfold tmt_variables in Htmt.
    repeat (apply not_elem_of_cons in Htmt as [? Htmt]).
    by rewrite !bool_decide_eq_false_2 by done.
  - intros Hrel.
    rewrite Hbkr by (unfold beakerlib_variables; set_solver).
    rewrite !env_lookup_update, env_lookup_const.
    rewrite (bool_decide_eq_false_2 ("TMT_TEST_NAME" ∈ related_variables))
      by done.
    reflexivity.
  - intros Hrel Hbk. rewrite Hbkr by done.
    rewrite env_lookup_update, env_lookup_const.
    by rewrite bool_decide_eq_true_2.
Qed.

End Facts.

(** *** On the example guest *)

#[local] Existing Instance ExecuteFacts.plain_library.
#[local] Existing Instance ExecuteFacts.example_base.
#[local] Existing Instance ExecuteFacts.example_ops.

(** A test that sets its own search path. *)
Definition path_test : Test :=
  mkTest "/first" "shell" "./first.sh" "5m" "respect"
         [("PATH", "/opt/bin"); ("REBOOTCOUNT", "7")] 2 None None.

Definition extra_environment : option (list (string * string)) :=
  Some [("PATH", "/usr/bin"); ("TMT_TEST_NAME", "/other"); ("LANG", "C")].

Lemma test_environment_precedence_witness :
  let env := _test_environment path_test extra_environment in
  env_lookup "PATH" env = Some "/opt/bin" ∧
  env_lookup "LANG" env = Some "C" ∧
  env_lookup "TMT_TEST_NAME" env = Some "/first" ∧
  env_lookup "REBOOTCOUNT" env = Some "2".
Proof.
  cbn zeta.
  destruct (test_environment_precedence path_test extra_environment "PATH")
    as (Hpath & Hname & _).
  destruct (test_environment_precedence path_test extra_environment "LANG")
    as (Hlang & _ & _).
  destruct (test_environment_precedence path_test extra_environment
              "REBOOTCOUNT") as (_ & _ & Hcount).
  split; [|split; [|split]].
  - refine (eq_trans (Hpath _ _ _) _);
      first [reflexivity | apply (bool_decide_unpack _); vm_compute; exact I].
  - refine (eq_trans (Hlang _ _ _) _);
      first [reflexivity | apply (bool_decide_unpack _); vm_compute; exact I].
  - apply Hname. apply (bool_decide_unpack _). vm_compute. exact I.
  - refine (eq_trans (Hcount _ _) _);
      first [reflexivity | apply (bool_decide_unpack _); vm_compute; exact I].
Defined.

End EnvFacts.

(** ** Helpers of tmt/utils.py *)

Module HelperFacts.
Import Utils Helpers Stdlib.Strings.Ascii.

(** Whether a character occurs in a text. *)
Fixpoint occurs (c : Ascii.ascii) (s : string) : bool :=
  match s with
  | EmptyString => false
  | String a rest => Ascii.eqb a c || occurs c rest
  end.

Lemma replace_back (a b : Ascii.ascii) (s : string) :
  occurs b s = false →
  replace_char b a (replace_char a b s) = s.
Proof.
  induction s as [|c s IH]; [done|]. cbn [occurs replace_char].
  intros [Hc Hs]%orb_false_elim. f_equal; [|by apply IH].
  destruct (Ascii.eqb c a) eqn:E.
  - rewrite Ascii.eqb_refl. by apply Ascii.eqb_eq in E.
  - by rewrite Hc.
Qed.

Lemma replace_removes (a b : Ascii.ascii) (s : string) :
  a ≠ b → occurs a (replace_char a b s) = false.
Proof.
  intros Hne. induction s as [|c s IH]; [done|]. cbn. rewrite IH, orb_false_r.
  destruct (Ascii.eqb c a) eqn:E; [|done].
  apply Ascii.eqb_neq. congruence.
Qed.

(** X18. Keys and options: the option of a key has no underscore, and turning
    it back gives the key, for keys without a dash; likewise from options
    without an underscore to keys and back. *)
Theorem key_option_round_trip (name : string) :
  occurs "_"%char (key_to_option name) = false ∧
  occurs "-"%char (option_to_key name) = false ∧
  (occurs "-"%char name = false → option_to_key (key_to_option name) = name) ∧
  (occurs "_"%char name = false → key_to_option (option_to_key name) = name).
Proof.
  unfold key_to_option, option_to_key.
  split; [by apply replace_removes|]. split; [by apply replace_removes|].
  split; apply replace_back.
Qed.

Lemma key_option_round_trip_witness :
  option_to_key (key_to_option "ssh_option") = "ssh_option" ∧
  key_to_option (option_to_key "exit-first") = "exit-first".
Proof.
  split.
  - by apply (proj1 (proj2 (proj2 (key_option_round_trip "ssh_option")))).
  - by apply (proj2 (proj2 (proj2 (key_option_round_trip "exit-first")))).
Defined.

(** A key with a dash does not come back. *)
Example key_with_dash :
  option_to_key (key_to_option "a-b_c") = "a_b_c".
Proof. reflexivity. Qed.

(** *** Variables *)

Lemma before_append (c : Ascii.ascii) (name rest : string) :
  occurs c name = false →
  before c (name +:+ String c rest) = name.
Proof.
  induction name as [|a name IH]; simpl.
  { intros _. by rewrite Ascii.eqb_refl. }
  intros [Ha Hn]%orb_false_elim. by rewrite Ha, IH.
Qed.

Lemma after_append (c : Ascii.ascii) (name rest : string) :
  occurs c name = false →
  after c (name +:+ String c rest) = Some rest.
Proof.
  induction name as [|a name IH]; simpl.
  { intros _. by rewrite Ascii.eqb_refl. }
  intros [Ha Hn]%orb_false_elim. by rewrite Ha, IH.
Qed.

Lemma before_all (c : Ascii.ascii) (s : string) :
  occurs c s = false → before c s = s.
Proof.
  induction s as [|a s IH]; [done|]. simpl.
  intros [Ha Hs]%orb_false_elim. by rewrite Ha, IH.
Qed.

Lemma after_None (c : Ascii.ascii) (s : string) :
  occurs c s = false → after c s = None.
Proof.
  induction s as [|a s IH]; [done|]. simpl.
  intros [Ha Hs]%orb_false_elim. by rewrite Ha, IH.
Qed.

(** A variable and its value, written as the shell wants them. *)
Definition assignment (pair : string * string) : string :=
  pair.1 +:+ String "="%char pair.2.

(** A name that is not empty and has no equals sign, with a value on one
    line. *)
Definition well_formed (pair : string * string) : Prop :=
  pair.1 ≠ EmptyString ∧ occurs "="%char pair.1 = false ∧
  occurs newline pair.2 = false.

(** X19. [_add_simple_var]: an assignment sets the name to the value, which
    may contain equals signs itself; text without an equals sign, or that
    starts with one, is refused with [GeneralError] and the dictionary is
    not returned. *)
Theorem add_simple_var_spec (result : list (string * string))
    (var : string) :
  (∀ pair, var = assignment pair → well_formed pair →
     _add_simple_var result var
       = Ok (Provision.dict_set pair.1 pair.2 result)) ∧
  (occurs "="%char var = false ∨ (∃ rest, var = String "="%char rest) →
   _add_simple_var result var
     = Raise (GeneralError ("Invalid variable specification '" +:+ var
                            +:+ "'."))).
Proof.
  split.
  - intros [name value] -> (Hne & Hname & Hvalue). cbn in *.
    unfold _add_simple_var, match_variable, assignment. cbn [fst snd].
    rewrite after_append, before_append by done.
    rewrite bool_decide_eq_false_2 by done. by rewrite before_all.
  - intros [Hno|[rest ->]]; unfold _add_simple_var, match_variable.
    + by rewrite after_None.
    + cbn. done.
Qed.

Lemma add_simple_var_spec_witness :
  _add_simple_var [("X", "0")] "X=a=b" = Ok [("X", "a=b")] ∧
  _add_simple_var [("X", "0")] "X"
    = Raise (GeneralError "Invalid variable specification 'X'.").
Proof.
  destruct (add_simple_var_spec [("X", "0")] "X=a=b") as [Hok _].
  destruct (add_simple_var_spec [("X", "0")] "X") as [_ Hbad].
  split.
  - apply (Hok ("X", "a=b")); [reflexivity|]. by repeat split.
  - apply Hbad. by left.
Defined.

Section Shell.
Context `{Library}.
Variable shlex_split : string → outcome (list string).

Lemma add_simple_vars_ok (result pairs : list (string * string)) :
  Forall well_formed pairs →
  add_simple_vars result (map assignment pairs)
    = Ok (Provision.dict_update result pairs).
Proof.
  revert result. induction pairs as [|pair pairs IH]; intros result Hwf.
  { done. }
  apply Forall_cons in Hwf as [Hp Hps]. cbn [map add_simple_vars].
  rewrite (proj1 (add_simple_var_spec result (assignment pair)) pair eq_refl Hp).
  cbn [Containers.and_then]. by rewrite IH.
Qed.

(** What one element of the argument of [shell_to_dict] contributes:
    nothing for [None], else the assignments [shlex.split] finds. *)
Definition contributes (variable : option string)
    (pairs : list (string * string)) : Prop :=
  match variable with
  | None => pairs = []
  | Some text =>
      shlex_split text = Ok (map assignment pairs) ∧ Forall well_formed pairs
  end.

Lemma shell_to_dict_from_ok (variables : list (option string))
    (groups : list (list (string * string))) (result : list (string * string)) :
  Forall2 contributes variables groups →
  shell_to_dict_from shlex_split result variables
    = Ok (Provision.dict_update result (concat groups)).
Proof.
  intros Hall. revert result.
  induction Hall as [|variable pairs variables groups Hc _ IH]; intros result.
  { done. }
  destruct variable as [text|]; cbn [shell_to_dict_from concat].
  - destruct Hc as [Hsplit Hwf]. rewrite Hsplit. cbn [Containers.and_then].
    rewrite add_simple_vars_ok by done. cbn [Containers.and_then].
    rewrite IH. unfold Provision.dict_update. by rewrite foldl_app.
  - cbn in Hc. subst pairs. by rewrite IH.
Qed.

(** X20. [shell_to_dict]: when every text of the argument splits into
    assignments, the result holds the assigned variables, and a variable
    assigned more than once has the value assigned last; [None] elements
    are skipped. *)
Theorem shell_to_dict_assignments (variables : list (option string))
    (groups : list (list (string * string))) :
  Forall2 contributes variables groups →
  ∃ result,
    shell_to_dict shlex_split variables = Ok result ∧
    ∀ name,
      EnvFacts.env_lookup name result
        = EnvFacts.env_lookup name (reverse (concat groups)).
Proof.
  intros Hall. unfold shell_to_dict.
  rewrite (shell_to_dict_from_ok variables groups [] Hall).
  eexists. split; [reflexivity|]. intros name.
  rewrite EnvFacts.env_lookup_update.
  by destruct (EnvFacts.env_lookup name (reverse (concat groups))).
Qed.

Lemma split_on_nonempty (c : Ascii.ascii) (s : string) : split_on c s ≠ [].
Proof.
  destruct s as [|a s]; [done|]. cbn [split_on].
  destruct (Ascii.eqb a c); [done|]. by destruct (split_on c s).
Qed.

Lemma concat_split (c : Ascii.ascii) (s : string) :
  String.concat (String c EmptyString) (split_on c s) = s.
Proof.
  induction s as [|a s IH]; [done|]. cbn [split_on].
  pose proof (split_on_nonempty c s) as Hne.
  destruct (split_on c s) as [|first others] eqn:Hs; [done|].
  destruct (Ascii.eqb a c) eqn:E.
  - apply Ascii.eqb_eq in E as ->.
    change (String.concat (String c EmptyString)
              (EmptyString :: first :: others))
      with (String c (String.concat (String c EmptyString)
                        (first :: others))).
    by rewrite IH.
  - rewrite <- IH. by destruct others.
Qed.

Lemma split_on_parts (c : Ascii.ascii) (s : string) :
  head (split_on c s) = Some (before c s) ∧
  String.concat (String c EmptyString) (tail (split_on c s))
    = default EmptyString (after c s).
Proof.
  induction s as [|a s [IHh IHt]]; [done|]. cbn [split_on before after].
  destruct (Ascii.eqb a c) eqn:E.
  - split; [done|]. cbn [tail default]. apply concat_split.
  - pose proof (split_on_nonempty c s) as Hne.
    destruct (split_on c s) as [|first others] eqn:Hs; [done|].
    cbn in IHh. injection IHh as <-. done.
Qed.

(** X21. [shell_variables] for a list of pairs: each item becomes its key, an
    equals sign, and the quoted value, where the key is the text before
    the first equals sign of the item and the value all that follows it,
    further equals signs included; an item without equals sign has the
    empty value. *)
Theorem shell_variables_list_spec (data : list string) :
  shell_variables_list data
    = map (λ item,
             before "="%char item +:+ "=" +:+
             quote (default EmptyString (after "="%char item)))
          data ∧
  ∀ key value,
    occurs "="%char key = false →
    shell_variables_list [assignment (key, value)]
      = [key +:+ "=" +:+ quote value].
Proof.
  assert (∀ item,
            default EmptyString (head (split_on "="%char item)) +:+ "=" +:+
            quote (String.concat "=" (tail (split_on "="%char item)))
            = before "="%char item +:+ "=" +:+
              quote (default EmptyString (after "="%char item))) as Hitem.
  { intros item. destruct (split_on_parts "="%char item) as [-> Ht].
    cbn [default]. by rewrite <- Ht. }
  split.
  - unfold shell_variables_list. apply map_ext. intros item. apply Hitem.
  - intros key value Hkey. unfold shell_variables_list. cbn [map].
    rewrite Hitem. unfold assignment. cbn [fst snd].
    by rewrite before_append, after_append.
Qed.

End Shell.

Lemma shell_variables_list_spec_witness :
  @shell_variables_list ExecuteFacts.plain_library
    [assignment ("OPTS", "a=1 b=2")]
    = ["OPTS" +:+ "=" +:+ @quote ExecuteFacts.plain_library "a=1 b=2"].
Proof.
  by apply (proj2 (@shell_variables_list_spec ExecuteFacts.plain_library
                     [assignment ("OPTS", "a=1 b=2")])).
Defined.

(** A splitter for the example: the text holds two assignments. *)
Definition split_example (text : string) : outcome (list string) :=
  if bool_decide (text = "X=1 Y=2 X=3")
  then Ok ["X=1"; "Y=2"; "X=3"]
  else Raise (ValueError "No closing quotation").

Lemma shell_to_dict_assignments_witness :
  ∃ result,
    shell_to_dict split_example [None; Some "X=1 Y=2 X=3"] = Ok result ∧
    ∀ name,
      EnvFacts.env_lookup name result
        = EnvFacts.env_lookup name
            (reverse (concat [[]; [("X", "1"); ("Y", "2"); ("X", "3")]])).
Proof.
  apply (shell_to_dict_assignments split_example
           [None; Some "X=1 Y=2 X=3"]
           [[]; [("X", "1"); ("Y", "2"); ("X", "3")]]).
  repeat constructor; done.
Defined.

Section Files.
Variable path_div : Path → Path → Path.
Variable writable : World → Path → bool.
Variable strerror : Path → string.



End Files.


End HelperFacts.

(** ** More on running commands *)

Module RunMoreFacts.
Import Utils RunFacts.

(** The process ends by itself before the timeout, if there is one. *)
Definition in_time (timeout : option Z) (p : Process) : Prop :=
  match timeout with
  | Some t => (runtime p <= inject_Z t)%Q
  | None => True
  end.

(** X23. A command that [run] really executes, not interactively, and that
    ends before its timeout is not killed: [run] waits for it, and returns
    its output when the exit status is 0, else raises a run error that
    carries the exit status, the command and the output. When the program
    does not exist the run error has return code 127 and no output. *)
Theorem run_in_time (self : Common) (command : Command)
    (friendly : option string) (cwd : option Path) (dry shell join : bool)
    (timeout : option Z) (w : World) :
  executed self cwd dry w →
  let started :=
    [EvPopen (spawned w) (_command command) (effective_cwd self cwd)] in
  (∀ p, launches w (spawned w) = Started p → in_time timeout p →
     let out :=
       captured (if join then both else only_out) (runtime p) (output p) in
     let err :=
       if join then out else captured only_err (runtime p) (output p) in
     ∃ w',
       events w' = events w ++ started ∧
       clock w' = (clock w + runtime p)%Q ∧
       run self command friendly cwd dry shell false join timeout w =
         (if bool_decide (exit_status p = 0)
          then Ok (mkCommandOutput (Some out)
                     (if join then None else Some err))
          else Raise (RunError
                        ("Failed to run command: "
                         +:+ default "None" friendly
                         +:+ " Reason: Command returned '"
                         +:+ pretty (exit_status p) +:+ "'.")
                        (_command command) (exit_status p)
                        (Some out) (Some err)),
          w')) ∧
  (∀ filename, launches w (spawned w) = FileNotFound filename →
     ∃ w',
       events w' = events w ++ started ∧
       run self command friendly cwd dry shell false join timeout w =
         (Raise (RunError
                   ("Failed to run command: " +:+ default "None" friendly
                    +:+ " Reason: File '" +:+ filename +:+ "' not found.")
                   (_command command) 127 None None),
          w')).
Proof.
  intros Hex. cbn zeta. rewrite (run_executed _ _ _ _ _ _ _ _ _ _ Hex).
  unfold try_except, _run. split.
  - intros p -> Hin.
    assert (match timeout with
            | Some t => Qltb (inject_Z t) (runtime p)
            | None => false
            end = false) as ->.
    { destruct timeout as [t|]; [|done]. by apply Qltb_ge. }
    destruct (bool_decide (exit_status p = 0)) eqn:E.
    + apply bool_decide_eq_true_1 in E as E'.
      rewrite (bool_decide_eq_false_2 (exit_status p ≠ 0)) by (by intros ?).
      destruct join; eexists; (split; [|split; [|reflexivity]]); done.
    + apply bool_decide_eq_false_1 in E as E'.
      rewrite (bool_decide_eq_true_2 (exit_status p ≠ 0)) by done.
      cbn [is_RunError]. unfold raise.
      eexists. split; [|split; [|reflexivity]]; done.
  - intros filename ->. cbn [is_RunError]. unfold raise.
    eexists. split; [|reflexivity]. done.
Qed.

Lemma run_in_time_witness :
  ∃ w',
    events w' = [EvPopen 0 ["sleep"; "10"] None] ∧
    clock w' = (0 + 10)%Q ∧
    run plain (mkCommand ["sleep"; "10"]) (Some "sleep 10") None false false
        false false (Some 30) slow_world
      = (Ok (mkCommandOutput (Some "earlylate") (Some "")), w').
Proof.
  destruct (run_in_time plain (mkCommand ["sleep"; "10"]) (Some "sleep 10")
              None false false false (Some 30) slow_world) as [H _].
  - by split.
  - destruct (H slow eq_refl) as (w' & Hev & Hck & Hrun); [discriminate|].
    exists w'. split; [exact Hev|]. split; [exact Hck|exact Hrun].
Defined.

End RunMoreFacts.

(** ** Durations and names *)

Module DurationFacts.
Import Utils Durations Stdlib.Strings.Ascii.

(** A text of digits only. *)
Fixpoint all_digits (s : string) : bool :=
  match s with
  | EmptyString => true
  | String c rest => is_digit c && all_digits rest
  end.

Lemma digit_is_ascii c : is_digit c = true → (Ascii.nat_of_ascii c <? 128)%nat = true.
Proof.
  unfold is_digit. intros [_ H]%andb_prop. apply Nat.leb_le in H.
  apply Nat.ltb_lt. lia.
Qed.

Lemma digits_then (number rest : string) :
  all_digits number = true →
  (∀ c rest', rest = String c rest' → is_digit c = false) →
  digits_of (number +:+ rest) = number ∧ after_digits (number +:+ rest) = rest.
Proof.
  intros Hd Hrest. induction number as [|c number IH].
  - change (EmptyString +:+ rest) with rest.
    destruct rest as [|c rest']; [done|]. cbn [digits_of after_digits].
    by rewrite (Hrest c rest' eq_refl).
  - change (String c number +:+ rest) with (String c (number +:+ rest)).
    cbn [all_digits] in Hd. apply andb_prop in Hd as [Hc Hn].
    cbn [digits_of after_digits]. rewrite Hc.
    destruct (IH Hn) as [-> ->]. done.
Qed.

Lemma ascii_append (a b : string) :
  is_ascii_text (a +:+ b) = is_ascii_text a && is_ascii_text b.
Proof.
  induction a as [|c a IH]; [done|].
  change (String c a +:+ b) with (String c (a +:+ b)).
  cbn [is_ascii_text]. by rewrite IH, andb_assoc.
Qed.

Lemma digits_ascii (number : string) :
  all_digits number = true → is_ascii_text number = true.
Proof.
  induction number as [|c number IH]; [done|]. cbn [all_digits is_ascii_text].
  intros [Hc Hn]%andb_prop. by rewrite (digit_is_ascii c Hc), IH.
Qed.

(** The suffixes [duration_to_seconds] knows, with their factors. *)
Definition suffixes : list (string * Z) :=
  [("", 1); ("s", 1); ("m", 60); ("h", 3600); ("d", 86400)].

(** X24. [duration_to_seconds] on a number with a suffix: for every non-empty
    text of digits and each of the suffixes none, s, m, h and d, the
    result is the number times 1, 1, 60, 3600 and 86400; a line break at
    the end is accepted. A text that does not start with a digit is
    refused with [SpecificationError], and so is a known suffix that is
    followed by more text. *)
Theorem duration_to_seconds_spec (unicode : string → outcome Z)
    (number : string) :
  number ≠ EmptyString → all_digits number = true →
  (∀ suffix factor, (suffix, factor) ∈ suffixes →
     duration_to_seconds unicode (number +:+ suffix)
       = Ok (int_of_digits 0 number * factor) ∧
     duration_to_seconds unicode
       (number +:+ suffix +:+ String (Ascii.ascii_of_nat 10) EmptyString)
       = Ok (int_of_digits 0 number * factor)) ∧
  (∀ text, is_ascii_text text = true → digits_of text = EmptyString →
     duration_to_seconds unicode text
       = Raise (SpecificationError ("Invalid duration '" +:+ text +:+ "'."))) ∧
  duration_to_seconds unicode (number +:+ "ms")
    = Raise (SpecificationError
               ("Invalid duration '" +:+ (number +:+ "ms") +:+ "'.")).
Proof.
  intros Hne Hd. split; [|split].
  - intros suffix factor Hin. unfold suffixes in Hin.
    assert (∀ rest, (∀ c rest', rest = String c rest' → is_digit c = false) →
              is_ascii_text rest = true →
              duration_to_seconds unicode (number +:+ rest)
              = match rest with
                | EmptyString => Ok (int_of_digits 0 number * units "")
                | String c rest' =>
                    let suffix := String c EmptyString in
                    if (bool_decide (suffix = "s") || bool_decide (suffix = "m")
                        || bool_decide (suffix = "h")
                        || bool_decide (suffix = "d"))
                       && at_end rest'
                    then Ok (int_of_digits 0 number * units suffix)
                    else if at_end rest
                    then Ok (int_of_digits 0 number * units "")
                    else Raise (SpecificationError
                                  ("Invalid duration '" +:+ (number +:+ rest)
                                   +:+ "'."))
                end) as Hrun.
    { intros rest Hrest Hascii. unfold duration_to_seconds.
      rewrite ascii_append, (digits_ascii number Hd), Hascii. cbn [andb negb].
      destruct (digits_then number rest Hd Hrest) as [-> ->].
      by rewrite bool_decide_eq_false_2 by done. }
    repeat (apply elem_of_cons in Hin as [[= -> ->]|Hin]);
      [..|by apply elem_of_nil in Hin].
    all: split;
      (rewrite Hrun;
       [reflexivity
       |by intros c rest' [= <- <-]
       |reflexivity]).
  - intros text Hascii Hnone. unfold duration_to_seconds.
    rewrite Hascii, Hnone. cbn [negb]. by rewrite bool_decide_eq_true_2.
  - unfold duration_to_seconds.
    rewrite ascii_append, (digits_ascii number Hd). cbn [andb negb is_ascii_text].
    destruct (digits_then number "ms" Hd) as [-> ->].
    { by intros c rest' [= <- <-]. }
    by rewrite bool_decide_eq_false_2 by done.
Qed.

Lemma duration_to_seconds_spec_witness :
  duration_to_seconds (λ _, Raise (ValueError "")) "90m" = Ok (90 * 60) ∧
  duration_to_seconds (λ _, Raise (ValueError "")) "-5"
    = Raise (SpecificationError "Invalid duration '-5'.").
Proof.
  destruct (duration_to_seconds_spec (λ _, Raise (ValueError "")) "90")
    as (Hok & Hbad & _); [done..|].
  split.
  - apply (proj1 (Hok "m" 60 ltac:(unfold suffixes; set_solver))).
  - by apply (Hbad "-5").
Defined.

(** *** Random names *)

Lemma length_append (a b : string) :
  String.length (a +:+ b) = (String.length a + String.length b)%nat.
Proof.
  induction a as [|c a IH]; [done|].
  change (String c a +:+ b) with (String c (a +:+ b)). cbn [String.length].
  by rewrite IH.
Qed.

Lemma length_skip (n : nat) (s : string) :
  String.length (skip n s) = (String.length s - n)%nat.
Proof.
  revert s. induction n as [|n IH]; intros [|c s]; cbn; done.
Qed.

Lemma skip_append (n : nat) (a b : string) :
  skip n (a +:+ b)
    = if (n <=? String.length a)%nat then skip n a +:+ b
      else skip (n - String.length a) b.
Proof.
  revert a. induction n as [|n IH]; intros a.
  { by destruct a. }
  destruct a as [|c a].
  - change (EmptyString +:+ b) with b. by destruct b.
  - change (String c a +:+ b) with (String c (a +:+ b)).
    cbn [skip String.length]. rewrite IH. done.
Qed.

Lemma skip_suffix (n : nat) (s : string) : ∃ dropped, s = dropped +:+ skip n s.
Proof.
  revert s. induction n as [|n IH]; intros s.
  { by exists EmptyString. }
  destruct s as [|c s]; [by exists EmptyString|].
  destruct (IH s) as [dropped Hs]. exists (String c dropped).
  cbn [skip]. change (String c dropped +:+ skip n s)
    with (String c (dropped +:+ skip n s)). by rewrite <- Hs.
Qed.

(** X25. [_random_name] with a length of at least one: the name has exactly
    that length; it is the end of the prefix followed by the random
    letters, and it ends with random letters, at least five of them when
    the length allows. *)
Theorem random_name_length (choices : nat → string) (prefix : string)
    (length : Z) :
  (∀ k, String.length (choices k) = k) → 1 <= length →
  let name := _random_name choices prefix length in
  let random :=
    choices (Z.to_nat (Z.max 5 (length - Z.of_nat (String.length prefix)))) in
  Z.of_nat (String.length name) = length ∧
  (∃ dropped, prefix +:+ random = dropped +:+ name) ∧
  ∃ head tail,
    name = head +:+ tail ∧ (∃ dropped, random = dropped +:+ tail) ∧
    Z.of_nat (String.length tail) = Z.min length (Z.of_nat (String.length random)) ∧
    Z.min 5 length <= Z.of_nat (String.length tail).
Proof.
  intros Hchoices Hlen. cbn zeta. unfold _random_name, slice_from.
  set (k := Z.to_nat (Z.max 5 (length - Z.of_nat (String.length prefix)))).
  set (whole := prefix +:+ choices k).
  assert (String.length whole = (String.length prefix + k)%nat) as Hwhole.
  { unfold whole. by rewrite length_append, Hchoices. }
  assert ((- length <? 0)%Z = true) as -> by (apply Z.ltb_lt; lia).
  rewrite Hwhole.
  set (i := Z.to_nat (Z.max 0 (- length + Z.of_nat (String.length prefix + k)))).
  assert (Z.of_nat i = Z.of_nat (String.length prefix + k) - length) as Hi.
  { unfold i, k. lia. }
  split; [|split].
  - rewrite length_skip, Hwhole. lia.
  - apply skip_suffix.
  - unfold whole. rewrite skip_append.
    destruct (i <=? String.length prefix)%nat eqn:E.
    + apply Nat.leb_le in E. exists (skip i prefix), (choices k).
      split; [done|]. split; [by exists EmptyString|].
      rewrite Hchoices. unfold k in *. lia.
    + apply Nat.leb_gt in E. exists EmptyString, (skip (i - String.length prefix) (choices k)).
      split; [done|]. split; [apply skip_suffix|].
      rewrite length_skip, !Hchoices. unfold k in *. lia.
Qed.

Lemma random_name_length_witness :
  let choices := λ k : nat, String.string_of_list_ascii (replicate k "x"%char) in
  Z.of_nat (String.length (_random_name choices "tmt-001-" 16)) = 16.
Proof.
  cbn zeta.
  apply (random_name_length
           (λ k : nat, String.string_of_list_ascii (replicate k "x"%char))
           "tmt-001-" 16); [|done].
  intros k. induction k as [|k IH]; [done|]. cbn. by rewrite IH.
Defined.

End DurationFacts.

(** ** The environment of a command on the guest *)

Module PlanEnvironmentFacts.
Import Utils Provision EnvFacts.

Lemma env_lookup_reverse_None (name : string) (l : list (string * string)) :
  name ∉ l.*1 → env_lookup name (reverse l) = None.
Proof.
  induction l as [|[k v] l IH]; [done|]. cbn [fmap list_fmap fst].
  intros [Hne Hk]%not_elem_of_cons.
  rewrite reverse_cons, env_lookup_app, (IH Hk). cbn.
  by rewrite bool_decide_eq_false_2.
Qed.

Lemma env_lookup_reverse_NoDup (name value : string)
    (l : list (string * string)) :
  NoDup l.*1 → (name, value) ∈ l → env_lookup name (reverse l) = Some value.
Proof.
  induction l as [|[k v] l IH]; [by intros _ ?%elem_of_nil|].
  cbn [fmap list_fmap fst].
  intros [Hk Hnd]%NoDup_cons Hin. rewrite reverse_cons, env_lookup_app.
  apply elem_of_cons in Hin as [[= -> ->]|Hin].
  - rewrite (env_lookup_reverse_None k l Hk). cbn.
    by rewrite bool_decide_eq_true_2.
  - by rewrite (IH Hnd Hin).
Qed.

(** X26. The environment [execute] exports on the guest: a variable of the
    plan has the value the plan gives it, whatever the caller of
    [execute] passes; any other variable has the value the caller
    passes. *)
Theorem plan_environment_overrides (self : GuestSsh)
    (execute_environment : option (list (string * string))) (name : string) :
  env_lookup name (_prepare_environment self execute_environment)
    = or_else (env_lookup name (reverse (plan_environment self)))
              (env_lookup name (reverse (default [] execute_environment))) ∧
  (∀ value, (name, value) ∈ plan_environment self →
            NoDup (plan_environment self).*1 →
            env_lookup name (_prepare_environment self execute_environment)
              = Some value).
Proof.
  assert (env_lookup name (_prepare_environment self execute_environment)
          = or_else (env_lookup name (reverse (plan_environment self)))
              (env_lookup name (reverse (default [] execute_environment))))
    as Heq.
  { unfold _prepare_environment. rewrite !env_lookup_update.
    by destruct (env_lookup name (reverse (default [] execute_environment))). }
  split; [exact Heq|]. intros value Hin Hnd. rewrite Heq.
  by rewrite (env_lookup_reverse_NoDup name value _ Hnd Hin).
Qed.

Lemma plan_environment_overrides_witness :
  let self :=
    mkGuestSsh (mkCommon None false) None [("LANG", "C"); ("DEBUG", "1")]
               None (Some "10.0.0.5") None None [] None [] None None in
  env_lookup "LANG" (_prepare_environment self (Some [("LANG", "cs_CZ")]))
    = Some "C".
Proof.
  cbn zeta.
  apply (proj2 (plan_environment_overrides
                  (mkGuestSsh (mkCommon None false) None
                     [("LANG", "C"); ("DEBUG", "1")]
                     None (Some "10.0.0.5") None None [] None [] None None)
                  (Some [("LANG", "cs_CZ")]) "LANG")).
  - cbn. apply elem_of_cons. by left.
  - cbn. apply (bool_decide_unpack _). vm_compute. exact I.
Defined.

End PlanEnvironmentFacts.
